(** * toughcrowd: transcript engine, slide tracker and session store

    A shallow embedding of

    - [app/src/utils/transcript.ts]            (module [Transcript]),
    - [app/src/hooks/useSpeechToText.ts]       (module [Speech]),
    - [app/src/hooks/useSlideTransitionTracker.ts] (module [Tracker]),
    - [app/src/stores/session.ts]              (module [Store]),
    - [app/src/components/SlideViewer.tsx]     (module [SlideViewer]),
    - [app/src/services/pdf.ts]                (module [Pdf]),
    - [app/src/components/FileUpload.tsx]      (module [FileUpload]),
    - [app/src/components/TranscriptPanel.tsx] (module [TranscriptPanel]),

    followed by the properties of these functions.

    Conventions.  A TypeScript [number] that holds a millisecond timestamp,
    a slide number or an index is an integer, modelled as [Z]; on integers
    below 2^53 the double-precision operations used by the source
    ([-], [+], [<=], [Math.floor (x / k)], [%], [Math.min], [Math.max]) agree
    with the integer operations used here.  [Date.now ()] is an explicit
    [now] argument.  React state ([useState]) and refs ([useRef]) are fields
    of one record; a handler is a function from the record to the record.
    Calls made on an external object (the speech recognizer, the caller's
    [onResult] callback) are appended to a log kept in the record. *)

From Stdlib Require Import ZArith List String Ascii Bool Lia.
From Stdlib Require Import Permutation DecimalString DecimalPos.
Import ListNotations.

Open Scope Z_scope.

(* ================================================================= *)
(** ** JavaScript primitives used by the sources *)

Module JS.

(** [n.toString ()] for an integer [n]: decimal digits, a leading ["-"]
    for a negative number, ["0"] for zero. *)
Definition number_toString (n : Z) : string :=
  NilEmpty.string_of_int (Z.to_int n).

(** A string of [k] copies of the character [c]. *)
Fixpoint repeat_char (c : ascii) (k : nat) : string :=
  match k with
  | O => EmptyString
  | S k' => String c (repeat_char c k')
  end.

(** [s.padStart (targetLength, fill)] for a one-character [fill]. *)
Definition padStart (s : string) (targetLength : nat) (fill : ascii) : string :=
  (repeat_char fill (targetLength - String.length s) ++ s)%string.

(** Truthiness of a string: every string but the empty one. *)
Definition truthy (s : string) : bool :=
  match s with
  | EmptyString => false
  | String _ _ => true
  end.

(** [parts.join (sep)]. *)
Fixpoint join (sep : string) (parts : list string) : string :=
  match parts with
  | [] => EmptyString
  | [p] => p
  | p :: rest => (p ++ sep ++ join sep rest)%string
  end.

(** [Math.min (...xs)] and [Math.max (...xs)] on a list with a first
    element (on the empty list JavaScript answers an infinity; the
    sources never call them there). *)
Definition Math_min (x0 : Z) (xs : list Z) : Z := fold_left Z.min xs x0.
Definition Math_max (x0 : Z) (xs : list Z) : Z := fold_left Z.max xs x0.

End JS.

(* ================================================================= *)
(** ** app/src/utils/transcript.ts *)

Module Transcript.

Record TranscriptSegment : Type := mkSegment
  { text : string;
    timestamp : Z;
    slideNumber : Z }.

(** [formatTimestamp]'s local [pad]. *)
Definition pad (n : Z) : string :=
  JS.padStart (JS.number_toString n) 2 "0"%char.

(** [formatTimestamp (timestamp, baseTime)].  [Math.floor (x / k)] is
    [Z.div] (floor for a positive divisor); [%] is [Z.rem] (the result
    has the sign of the dividend). *)
Definition formatTimestamp (timestamp baseTime : Z) : string :=
  let diffMs := timestamp - baseTime in
  let totalSeconds := diffMs / 1000 in
  let hours := totalSeconds / 3600 in
  let minutes := Z.rem totalSeconds 3600 / 60 in
  let seconds := Z.rem totalSeconds 60 in
  if 0 <? hours
  then (pad hours ++ ":" ++ pad minutes ++ ":" ++ pad seconds)%string
  else (pad minutes ++ ":" ++ pad seconds)%string.

(** [calculateSpeakingDuration (segments)]. *)
Definition calculateSpeakingDuration (segments : list TranscriptSegment) : Z :=
  if (List.length segments <=? 1)%nat then 0
  else
    let timestamps := map timestamp segments in
    match timestamps with
    | [] => 0
    | t0 :: ts =>
        let minTimestamp := JS.Math_min t0 ts in
        let maxTimestamp := JS.Math_max t0 ts in
        maxTimestamp - minTimestamp
    end.

(** The test of the loop of [mergeConsecutiveSegments]:
    [next.slideNumber === current.slideNumber &&
     next.timestamp - current.timestamp <= thresholdMs]. *)
Definition same_run (thresholdMs : Z) (current next : TranscriptSegment) : bool :=
  (slideNumber next =? slideNumber current)
  && (timestamp next - timestamp current <=? thresholdMs).

(** [current.text = `${current.text} ${next.text}`]. *)
Definition append_text (current next : TranscriptSegment) : TranscriptSegment :=
  {| text := (text current ++ " " ++ text next)%string;
     timestamp := timestamp current;
     slideNumber := slideNumber current |}.

(** One iteration of the [for] loop; the loop state is the pair
    [(result, current)]. *)
Definition merge_iter (thresholdMs : Z)
    (st : list TranscriptSegment * TranscriptSegment)
    (next : TranscriptSegment) : list TranscriptSegment * TranscriptSegment :=
  let (result, current) := st in
  if same_run thresholdMs current next
  then (result, append_text current next)
  else (result ++ [current], next).

(** [mergeConsecutiveSegments (segments, thresholdMs)]. *)
Definition mergeConsecutiveSegments (segments : list TranscriptSegment)
    (thresholdMs : Z) : list TranscriptSegment :=
  match segments with
  | [] => []
  | first :: rest =>
      let (result, current) :=
        fold_left (merge_iter thresholdMs) rest ([], first) in
      result ++ [current]
  end.

(** The merge as section 4.1 of the specification words it: a running
    accumulator [acc] that absorbs a matching segment, is flushed by a
    non-matching one, and is flushed at the end. *)
Fixpoint mergeAdjacent_from (thresholdMs : Z) (acc : TranscriptSegment)
    (segments : list TranscriptSegment) : list TranscriptSegment :=
  match segments with
  | [] => [acc]
  | s :: rest =>
      if (slideNumber s =? slideNumber acc)
         && (timestamp s - timestamp acc <=? thresholdMs)
      then mergeAdjacent_from thresholdMs
             {| text := (text acc ++ " " ++ text s)%string;
                timestamp := timestamp acc;
                slideNumber := slideNumber acc |} rest
      else acc :: mergeAdjacent_from thresholdMs s rest
  end.

Definition mergeAdjacent_spec (segments : list TranscriptSegment)
    (thresholdMs : Z) : list TranscriptSegment :=
  match segments with
  | [] => []
  | first :: rest => mergeAdjacent_from thresholdMs first rest
  end.

(** The decimal digit [d] (from 0 to 9) as a character, and a number
    below 100 written with exactly two decimal digits. *)
Definition digit (d : Z) : ascii := ascii_of_nat (48 + Z.to_nat d).

Definition two_digits (n : Z) : string :=
  String (digit (n / 10)) (String (digit (n mod 10)) EmptyString).

(** The spoken text of a list of segments, as [getTranscriptText] of the
    session store builds it: [segments.map (s => s.text).join (' ')]. *)
Definition spoken_text (segments : list TranscriptSegment) : string :=
  JS.join " " (map text segments).

Definition DEFAULT_ROLLING_BUFFER_MS : Z := 60000.

(** [getRollingBuffer (segments, windowMs)] called at time [now]; a
    missing [windowMs] ([None]) takes the default. *)
Definition getRollingBuffer (now : Z) (segments : list TranscriptSegment)
    (windowMs : option Z) : list TranscriptSegment :=
  let windowMs :=
    match windowMs with
    | Some w => w
    | None => DEFAULT_ROLLING_BUFFER_MS
    end in
  let cutoffTime := now - windowMs in
  filter (fun segment => cutoffTime <=? timestamp segment) segments.

(** [getSegmentsForSlide (segments, slideNumber)]. *)
Definition getSegmentsForSlide (segments : list TranscriptSegment)
    (n : Z) : list TranscriptSegment :=
  filter (fun segment => slideNumber segment =? n) segments.

(** The timestamps of a list of segments never decrease from one segment
    to the next. *)
Fixpoint chronological (segments : list TranscriptSegment) : bool :=
  match segments with
  | [] => true
  | a :: rest =>
      match rest with
      | [] => true
      | b :: _ => (timestamp a <=? timestamp b) && chronological rest
      end
  end.

End Transcript.

(* ================================================================= *)
(** ** app/src/hooks/useSpeechToText.ts *)

Module Speech.

(** A method call made on the underlying recognizer. *)
Inductive RecognizerCall : Type :=
| CallStart
| CallStop
| CallAbort.

(** The recognizer instance built by the first effect: its configuration
    and the calls made on it so far, oldest first.  A call is logged when
    it is made; [start ()] on a running recognizer throws, and both call
    sites swallow the exception in an empty [catch]. *)
Record SpeechRecognition : Type := mkRecognition
  { continuous : bool;
    interimResults : bool;
    lang : string;
    calls : list RecognizerCall }.

(** One entry of [event.results]: its [isFinal] flag and
    [result[0].transcript], the text of its first alternative. *)
Record SpeechRecognitionResult : Type := mkResult
  { isFinal : bool;
    transcript0 : string }.

Record SpeechRecognitionEvent : Type := mkEvent
  { resultIndex : nat;
    results : list SpeechRecognitionResult }.

(** The state of one [useSpeechToText] hook.  [onResult] is the caller's
    optional callback: [None] when the option is absent, otherwise the
    arguments of the invocations made so far, oldest first. *)
Record Session : Type := mkSession
  { isSupported : bool;
    isListening : bool;
    transcript : string;
    interimTranscript : string;
    error : option string;
    recognitionRef : option SpeechRecognition;
    shouldRestartRef : bool;
    isStoppingRef : bool;
    onResult : option (list (string * bool)) }.

Definition unsupported_message : string :=
  "Speech recognition is not supported in this browser. Please use Chrome or Edge.".

Definition getErrorMessage (code : string) : string :=
  if String.eqb code "no-speech" then
    "No speech detected. Please try again."
  else if String.eqb code "audio-capture" then
    "No microphone detected. Please check your microphone."
  else if String.eqb code "not-allowed" then
    "Microphone permission denied. Please allow microphone access."
  else if String.eqb code "network" then
    "Network error. Please check your connection."
  else ("Speech recognition error: " ++ code)%string.

(** The hook after its first render and its first effect.  [supported]
    says whether [getSpeechRecognition ()] found a constructor;
    [callback] whether the caller passed [onResult]. *)
Definition mount (supported callback : bool) (language : string) : Session :=
  {| isSupported := supported;
     isListening := false;
     transcript := "";
     interimTranscript := "";
     error := if supported then None else Some unsupported_message;
     recognitionRef :=
       if supported
       then Some {| continuous := true; interimResults := true;
                    lang := language; calls := [] |}
       else None;
     shouldRestartRef := false;
     isStoppingRef := false;
     onResult := if callback then Some [] else None |}.

(** [recognition.m ()]: log the call [c]. *)
Definition call (c : RecognizerCall) (r : SpeechRecognition) : SpeechRecognition :=
  {| continuous := continuous r; interimResults := interimResults r;
     lang := lang r; calls := calls r ++ [c] |}.

(** [onResult?.(text, final)]. *)
Definition invoke_onResult (text : string) (final : bool)
    (cb : option (list (string * bool))) : option (list (string * bool)) :=
  match cb with
  | None => None
  | Some log => Some (log ++ [(text, final)])
  end.

(** [recognition.onstart]. *)
Definition onstart (s : Session) : Session :=
  match recognitionRef s with
  | None => s
  | Some _ =>
      {| isSupported := isSupported s;
         isListening := true;
         transcript := transcript s;
         interimTranscript := interimTranscript s;
         error := None;
         recognitionRef := recognitionRef s;
         shouldRestartRef := shouldRestartRef s;
         isStoppingRef := isStoppingRef s;
         onResult := onResult s |}
  end.

(** The [for] loop of [recognition.onresult], from [event.resultIndex] to
    the end of [event.results]; the loop state is
    [(finalTranscript, interim)]. *)
Definition collect (acc : string * string) (result : SpeechRecognitionResult)
    : string * string :=
  let (finalTranscript, interim) := acc in
  if isFinal result
  then ((finalTranscript ++ transcript0 result)%string, interim)
  else (finalTranscript, (interim ++ transcript0 result)%string).

Definition batch_texts (event : SpeechRecognitionEvent) : string * string :=
  fold_left collect (skipn (resultIndex event) (results event))
    (EmptyString, EmptyString).

(** [recognition.onresult]. *)
Definition onresult (event : SpeechRecognitionEvent) (s : Session) : Session :=
  match recognitionRef s with
  | None => s
  | Some _ =>
      let (finalTranscript, interim) := batch_texts event in
      if JS.truthy finalTranscript then
        {| isSupported := isSupported s;
           isListening := isListening s;
           transcript := (transcript s ++ finalTranscript)%string;
           interimTranscript := "";
           error := error s;
           recognitionRef := recognitionRef s;
           shouldRestartRef := shouldRestartRef s;
           isStoppingRef := isStoppingRef s;
           onResult := invoke_onResult finalTranscript true (onResult s) |}
      else
        {| isSupported := isSupported s;
           isListening := isListening s;
           transcript := transcript s;
           interimTranscript := interim;
           error := error s;
           recognitionRef := recognitionRef s;
           shouldRestartRef := shouldRestartRef s;
           isStoppingRef := isStoppingRef s;
           onResult := invoke_onResult interim false (onResult s) |}
  end.

(** [recognition.onerror]. *)
Definition onerror (code : string) (s : Session) : Session :=
  match recognitionRef s with
  | None => s
  | Some _ =>
      {| isSupported := isSupported s;
         isListening := isListening s;
         transcript := transcript s;
         interimTranscript := interimTranscript s;
         error := Some (getErrorMessage code);
         recognitionRef := recognitionRef s;
         shouldRestartRef := false;
         isStoppingRef := isStoppingRef s;
         onResult := onResult s |}
  end.

(** [recognition.onend]. *)
Definition onend (s : Session) : Session :=
  match recognitionRef s with
  | None => s
  | Some recognition =>
      {| isSupported := isSupported s;
         isListening := false;
         transcript := transcript s;
         interimTranscript := interimTranscript s;
         error := error s;
         recognitionRef :=
           if shouldRestartRef s && negb (isStoppingRef s)
           then Some (call CallStart recognition)
           else Some recognition;
         shouldRestartRef := shouldRestartRef s;
         isStoppingRef := isStoppingRef s;
         onResult := onResult s |}
  end.

(** [start ()]. *)
Definition start (s : Session) : Session :=
  match recognitionRef s with
  | None => s
  | Some recognition =>
      if negb (isSupported s) then s
      else
        {| isSupported := isSupported s;
           isListening := isListening s;
           transcript := transcript s;
           interimTranscript := interimTranscript s;
           error := None;
           recognitionRef := Some (call CallStart recognition);
           shouldRestartRef := true;
           isStoppingRef := false;
           onResult := onResult s |}
  end.

(** [stop ()]. *)
Definition stop (s : Session) : Session :=
  match recognitionRef s with
  | None => s
  | Some recognition =>
      {| isSupported := isSupported s;
         isListening := isListening s;
         transcript := transcript s;
         interimTranscript := interimTranscript s;
         error := error s;
         recognitionRef := Some (call CallStop recognition);
         shouldRestartRef := false;
         isStoppingRef := true;
         onResult := onResult s |}
  end.

(** [resetTranscript ()]. *)
Definition resetTranscript (s : Session) : Session :=
  {| isSupported := isSupported s;
     isListening := isListening s;
     transcript := "";
     interimTranscript := "";
     error := None;
     recognitionRef := recognitionRef s;
     shouldRestartRef := shouldRestartRef s;
     isStoppingRef := isStoppingRef s;
     onResult := onResult s |}.

(** What can happen to a mounted hook: a call of one of the three
    functions it returns, or an event delivered by the recognizer. *)
Inductive Input : Type :=
| Start
| Stop
| ResetTranscript
| OnStart
| OnResult (event : SpeechRecognitionEvent)
| OnError (code : string)
| OnEnd.

Definition step (s : Session) (i : Input) : Session :=
  match i with
  | Start => start s
  | Stop => stop s
  | ResetTranscript => resetTranscript s
  | OnStart => onstart s
  | OnResult event => onresult event s
  | OnError code => onerror code s
  | OnEnd => onend s
  end.

Definition run (s : Session) (inputs : list Input) : Session :=
  fold_left step inputs s.

(** The calls made on the recognizer so far (none without a recognizer). *)
Definition recognizer_calls (s : Session) : list RecognizerCall :=
  match recognitionRef s with
  | None => []
  | Some r => calls r
  end.

(** The invocations of the caller's callback so far. *)
Definition callback_calls (s : Session) : list (string * bool) :=
  match onResult s with
  | None => []
  | Some log => log
  end.

(** The hook is mounted in a browser that has a recognizer. *)
Definition has_recognizer (s : Session) : Prop :=
  isSupported s = true /\ recognitionRef s <> None.

(** The part of an event that [onresult] reads, and the text of its
    final and of its interim results, in order. *)
Definition batch (event : SpeechRecognitionEvent) : list SpeechRecognitionResult :=
  skipn (resultIndex event) (results event).

Definition final_text (event : SpeechRecognitionEvent) : string :=
  String.concat "" (map transcript0 (filter isFinal (batch event))).

Definition interim_text (event : SpeechRecognitionEvent) : string :=
  String.concat ""
    (map transcript0 (filter (fun r => negb (isFinal r)) (batch event))).

Definition is_start (i : Input) : bool :=
  match i with Start => true | _ => false end.
Definition is_stop (i : Input) : bool :=
  match i with Stop => true | _ => false end.
Definition is_error (i : Input) : bool :=
  match i with OnError _ => true | _ => false end.

(** The final text an input delivers: that of the batch of a result
    event, nothing for every other input. *)
Definition delivered_final_text (i : Input) : string :=
  match i with
  | OnResult event => final_text event
  | _ => EmptyString
  end.

Definition is_reset (i : Input) : bool :=
  match i with ResetTranscript => true | _ => false end.
Definition is_result (i : Input) : bool :=
  match i with OnResult _ => true | _ => false end.
Definition is_end (i : Input) : bool :=
  match i with OnEnd => true | _ => false end.

Definition is_call_start (c : RecognizerCall) : bool :=
  match c with CallStart => true | _ => false end.
Definition is_call_stop (c : RecognizerCall) : bool :=
  match c with CallStop => true | _ => false end.

(** How many elements of a list pass a test. *)
Definition count {A : Type} (p : A -> bool) (l : list A) : nat :=
  List.length (filter p l).

End Speech.

(* ================================================================= *)
(** ** app/src/hooks/useSlideTransitionTracker.ts *)

Module Tracker.

Record SlideTransition : Type := mkTransition
  { slideIndex : Z;
    timestamp : Z }.

Record SlideTiming : Type := mkTiming
  { timingSlideIndex : Z;
    startTime : Z;
    duration : Z }.

(** The state of one [useSlideTransitionTracker] hook.
    [currentSlideIndex] is the value read from the session store by the
    latest render (the value the callbacks close over); [effectDeps] is
    the dependency array [[currentSlideIndex, isTracking]] with which the
    transition-detection effect last ran, [None] before the first render. *)
Record State : Type := mkState
  { currentSlideIndex : Z;
    transitions : list SlideTransition;
    sessionStartTime : option Z;
    isTracking : bool;
    previousSlideIndexRef : option Z;
    effectDeps : option (Z * bool) }.

(** The hook before its first render, the store showing slide [index]. *)
Definition initial (index : Z) : State :=
  {| currentSlideIndex := index;
     transitions := [];
     sessionStartTime := None;
     isTracking := false;
     previousSlideIndexRef := None;
     effectDeps := None |}.

(** [startTracking ()] at time [now]. *)
Definition startTracking (now : Z) (s : State) : State :=
  {| currentSlideIndex := currentSlideIndex s;
     transitions :=
       [ {| slideIndex := currentSlideIndex s; timestamp := now |} ];
     sessionStartTime := Some now;
     isTracking := true;
     previousSlideIndexRef := Some (currentSlideIndex s);
     effectDeps := effectDeps s |}.

(** [stopTracking ()]. *)
Definition stopTracking (s : State) : State :=
  {| currentSlideIndex := currentSlideIndex s;
     transitions := transitions s;
     sessionStartTime := sessionStartTime s;
     isTracking := false;
     previousSlideIndexRef := previousSlideIndexRef s;
     effectDeps := effectDeps s |}.

(** [reset ()]. *)
Definition reset (s : State) : State :=
  {| currentSlideIndex := currentSlideIndex s;
     transitions := [];
     sessionStartTime := None;
     isTracking := false;
     previousSlideIndexRef := None;
     effectDeps := effectDeps s |}.

(** The body of the transition-detection effect, run at time [now] in a
    render whose [currentSlideIndex] and [isTracking] are those of [s]. *)
Definition effect (now : Z) (s : State) : State :=
  if negb (isTracking s) then s
  else
    let prevIndex := previousSlideIndexRef s in
    let changed :=
      match prevIndex with
      | None => false
      | Some p => negb (p =? currentSlideIndex s)
      end in
    {| currentSlideIndex := currentSlideIndex s;
       transitions :=
         if changed
         then transitions s
                ++ [ {| slideIndex := currentSlideIndex s; timestamp := now |} ]
         else transitions s;
       sessionStartTime := sessionStartTime s;
       isTracking := isTracking s;
       previousSlideIndexRef := Some (currentSlideIndex s);
       effectDeps := effectDeps s |}.

Definition deps_eqb (d : option (Z * bool)) (index : Z) (tracking : bool) : bool :=
  match d with
  | None => false
  | Some (i, t) => (i =? index) && Bool.eqb t tracking
  end.

(** A render that observes slide [index] in the store at time [now]: the
    effect runs when its dependency array differs from the one of its
    last run, and always after the first render. *)
Definition render (index now : Z) (s : State) : State :=
  let s1 :=
    {| currentSlideIndex := index;
       transitions := transitions s;
       sessionStartTime := sessionStartTime s;
       isTracking := isTracking s;
       previousSlideIndexRef := previousSlideIndexRef s;
       effectDeps := effectDeps s |} in
  if deps_eqb (effectDeps s) index (isTracking s) then s1
  else
    let s2 := effect now s1 in
    {| currentSlideIndex := currentSlideIndex s2;
       transitions := transitions s2;
       sessionStartTime := sessionStartTime s2;
       isTracking := isTracking s2;
       previousSlideIndexRef := previousSlideIndexRef s2;
       effectDeps := Some (index, isTracking s) |}.

(** [getSlideTimings ()] at time [now]. *)
Fixpoint slide_timings (now : Z) (ts : list SlideTransition) : list SlideTiming :=
  match ts with
  | [] => []
  | transition :: rest =>
      let duration :=
        match rest with
        | nextTransition :: _ => timestamp nextTransition - timestamp transition
        | [] => now - timestamp transition
        end in
      {| timingSlideIndex := slideIndex transition;
         startTime := timestamp transition;
         duration := duration |} :: slide_timings now rest
  end.

Definition getSlideTimings (now : Z) (s : State) : list SlideTiming :=
  slide_timings now (transitions s).

(** [getCurrentSlideDuration ()] at time [now]. *)
Definition getCurrentSlideDuration (now : Z) (s : State) : Z :=
  if negb (isTracking s) then 0
  else
    match rev (transitions s) with
    | [] => 0
    | lastTransition :: _ => now - timestamp lastTransition
    end.

(** What can happen to the hook. *)
Inductive Input : Type :=
| Render (index now : Z)
| StartTracking (now : Z)
| StopTracking
| Reset.

Definition step (s : State) (i : Input) : State :=
  match i with
  | Render index now => render index now s
  | StartTracking now => startTracking now s
  | StopTracking => stopTracking s
  | Reset => reset s
  end.

Definition run (s : State) (inputs : list Input) : State :=
  fold_left step inputs s.

(** The invariant of the reachable states: while armed, the ref holds
    the index of the latest render; the dependency array of the last
    effect run holds it too. *)
Definition tracker_inv (s : State) : Prop :=
  (isTracking s = true -> previousSlideIndexRef s = Some (currentSlideIndex s))
  /\ (forall i t, effectDeps s = Some (i, t) -> i = currentSlideIndex s).

(** The sum of the durations of a list of timings. *)
Definition total_duration (timings : list SlideTiming) : Z :=
  fold_right (fun timing acc => duration timing + acc) 0 timings.

(** No two neighbours of a list of transitions are for the same slide. *)
Fixpoint no_repeated_slide (ts : list SlideTransition) : bool :=
  match ts with
  | [] => true
  | a :: rest =>
      match rest with
      | [] => true
      | b :: _ => negb (slideIndex a =? slideIndex b) && no_repeated_slide rest
      end
  end.

(** Invariants of the reachable states: the session start time is the
    timestamp of the first transition; no two neighbouring transitions are
    for the same slide; while armed, the last transition is for the slide
    held by the ref. *)
Definition start_inv (s : State) : Prop :=
  match transitions s with
  | [] => sessionStartTime s = None
  | first :: _ => sessionStartTime s = Some (timestamp first)
  end.

(** The slide of the last transition, if there is one. *)
Definition last_slide (ts : list SlideTransition) : option Z :=
  match rev ts with
  | [] => None
  | lastTransition :: _ => Some (slideIndex lastTransition)
  end.

Definition record_inv (s : State) : Prop :=
  no_repeated_slide (transitions s) = true
  /\ (isTracking s = true ->
      last_slide (transitions s) = previousSlideIndexRef s).

(** The time at which an input happens, if it reads the clock. *)
Definition input_time (i : Input) : option Z :=
  match i with
  | Render _ now => Some now
  | StartTracking now => Some now
  | StopTracking => None
  | Reset => None
  end.

(** The clock never runs backwards along a list of inputs that starts at
    time [t0]. *)
Fixpoint clock_monotone (t0 : Z) (inputs : list Input) : bool :=
  match inputs with
  | [] => true
  | i :: rest =>
      match input_time i with
      | None => clock_monotone t0 rest
      | Some t => (t0 <=? t) && clock_monotone t rest
      end
  end.

(** The time of the last input that reads the clock, [t0] if none does. *)
Fixpoint clock_after (t0 : Z) (inputs : list Input) : Z :=
  match inputs with
  | [] => t0
  | i :: rest =>
      match input_time i with
      | None => clock_after t0 rest
      | Some t => clock_after t rest
      end
  end.

(** The timestamps of a list of transitions never decrease and none is
    later than [t]. *)
Fixpoint timestamps_upto (t : Z) (ts : list SlideTransition) : bool :=
  match ts with
  | [] => true
  | a :: rest =>
      match rest with
      | [] => timestamp a <=? t
      | b :: _ => (timestamp a <=? timestamp b) && timestamps_upto t rest
      end
  end.

Definition is_start_tracking (i : Input) : bool :=
  match i with StartTracking _ => true | _ => false end.
Definition is_reset (i : Input) : bool :=
  match i with Reset => true | _ => false end.

End Tracker.

(* ================================================================= *)
(** ** app/src/stores/session.ts *)

Module Store.

Section WithTypes.

(** The types [Slide] (of [app/src/types]) and [File] (of the browser)
    are only stored and returned by the store. *)
Variables Slide File : Type.

Record SessionState : Type := mkSessionState
  { slides : list Slide;
    currentSlideIndex : Z;
    isLoading : bool;
    error : option string;
    pdfFile : option File;
    transcript : list Transcript.TranscriptSegment;
    isRecording : bool }.

Definition createInitialState : SessionState :=
  {| slides := [];
     currentSlideIndex := 0;
     isLoading := false;
     error := None;
     pdfFile := None;
     transcript := [];
     isRecording := false |}.

(** [set ({ currentSlideIndex: index })]. *)
Definition set_currentSlideIndex (index : Z) (s : SessionState) : SessionState :=
  {| slides := slides s;
     currentSlideIndex := index;
     isLoading := isLoading s;
     error := error s;
     pdfFile := pdfFile s;
     transcript := transcript s;
     isRecording := isRecording s |}.

(** [slides.length]. *)
Definition slides_length (s : SessionState) : Z :=
  Z.of_nat (List.length (slides s)).

Definition setSlides (new_slides : list Slide) (s : SessionState) : SessionState :=
  {| slides := new_slides;
     currentSlideIndex := 0;
     isLoading := isLoading s;
     error := None;
     pdfFile := pdfFile s;
     transcript := transcript s;
     isRecording := isRecording s |}.

Definition setCurrentSlide (index : Z) (s : SessionState) : SessionState :=
  if slides_length s =? 0 then set_currentSlideIndex 0 s
  else
    let clampedIndex := Z.max 0 (Z.min index (slides_length s - 1)) in
    set_currentSlideIndex clampedIndex s.

Definition nextSlide (s : SessionState) : SessionState :=
  if currentSlideIndex s <? slides_length s - 1
  then set_currentSlideIndex (currentSlideIndex s + 1) s
  else s.

Definition previousSlide (s : SessionState) : SessionState :=
  if 0 <? currentSlideIndex s
  then set_currentSlideIndex (currentSlideIndex s - 1) s
  else s.

Definition setLoading (b : bool) (s : SessionState) : SessionState :=
  {| slides := slides s;
     currentSlideIndex := currentSlideIndex s;
     isLoading := b;
     error := error s;
     pdfFile := pdfFile s;
     transcript := transcript s;
     isRecording := isRecording s |}.

Definition setError (e : option string) (s : SessionState) : SessionState :=
  {| slides := slides s;
     currentSlideIndex := currentSlideIndex s;
     isLoading := isLoading s;
     error := e;
     pdfFile := pdfFile s;
     transcript := transcript s;
     isRecording := isRecording s |}.

Definition setPdfFile (f : option File) (s : SessionState) : SessionState :=
  {| slides := slides s;
     currentSlideIndex := currentSlideIndex s;
     isLoading := isLoading s;
     error := error s;
     pdfFile := f;
     transcript := transcript s;
     isRecording := isRecording s |}.

Definition resetSession (s : SessionState) : SessionState :=
  createInitialState.

Definition set_transcript (t : list Transcript.TranscriptSegment)
    (s : SessionState) : SessionState :=
  {| slides := slides s;
     currentSlideIndex := currentSlideIndex s;
     isLoading := isLoading s;
     error := error s;
     pdfFile := pdfFile s;
     transcript := t;
     isRecording := isRecording s |}.

Definition addTranscriptSegment (segment : Transcript.TranscriptSegment)
    (s : SessionState) : SessionState :=
  set_transcript (transcript s ++ [segment]) s.

Definition clearTranscript (s : SessionState) : SessionState :=
  set_transcript [] s.

Definition setIsRecording (b : bool) (s : SessionState) : SessionState :=
  {| slides := slides s;
     currentSlideIndex := currentSlideIndex s;
     isLoading := isLoading s;
     error := error s;
     pdfFile := pdfFile s;
     transcript := transcript s;
     isRecording := b |}.

(** The actions of the store. *)
Inductive Action : Type :=
| SetSlides (new_slides : list Slide)
| SetCurrentSlide (index : Z)
| NextSlide
| PreviousSlide
| SetLoading (b : bool)
| SetError (e : option string)
| SetPdfFile (f : option File)
| ResetSession
| AddTranscriptSegment (segment : Transcript.TranscriptSegment)
| ClearTranscript
| SetIsRecording (b : bool).

Definition dispatch (s : SessionState) (a : Action) : SessionState :=
  match a with
  | SetSlides new_slides => setSlides new_slides s
  | SetCurrentSlide index => setCurrentSlide index s
  | NextSlide => nextSlide s
  | PreviousSlide => previousSlide s
  | SetLoading b => setLoading b s
  | SetError e => setError e s
  | SetPdfFile f => setPdfFile f s
  | ResetSession => resetSession s
  | AddTranscriptSegment segment => addTranscriptSegment segment s
  | ClearTranscript => clearTranscript s
  | SetIsRecording b => setIsRecording b s
  end.

Definition run (s : SessionState) (actions : list Action) : SessionState :=
  fold_left dispatch actions s.

(** The current-slide index is in bounds. *)
Definition index_in_bounds (s : SessionState) : Prop :=
  match slides s with
  | [] => currentSlideIndex s = 0
  | _ :: _ => 0 <= currentSlideIndex s <= slides_length s - 1
  end.

(** [slides[index]]: the element at an index inside the array,
    [undefined] ([None]) at every other index. *)
Definition slide_at (index : Z) (s : SessionState) : option Slide :=
  if index <? 0 then None else nth_error (slides s) (Z.to_nat index).

Definition getCurrentSlide (s : SessionState) : option Slide :=
  slide_at (currentSlideIndex s) s.

(** [slides[index]?.textContent], for the field [textContent] of [Slide]. *)
Definition getSlideContent (textContent : Slide -> string) (index : Z)
    (s : SessionState) : option string :=
  match slide_at index s with
  | None => None
  | Some slide => Some (textContent slide)
  end.

Definition getTotalSlides (s : SessionState) : Z := slides_length s.

(** [getRecentTranscript (windowMs)] called at time [now]. *)
Definition getRecentTranscript (now windowMs : Z) (s : SessionState)
    : list Transcript.TranscriptSegment :=
  let cutoffTime := now - windowMs in
  filter (fun segment => cutoffTime <=? Transcript.timestamp segment)
    (transcript s).

Definition getFullTranscript (s : SessionState)
    : list Transcript.TranscriptSegment :=
  transcript s.

Definition getTranscriptText (s : SessionState) : string :=
  JS.join " " (map Transcript.text (transcript s)).

(** The actions that set the transcript. *)
Definition is_transcript_action (a : Action) : bool :=
  match a with
  | AddTranscriptSegment _ | ClearTranscript | ResetSession => true
  | _ => false
  end.

End WithTypes.

Arguments slides {Slide File} _.
Arguments currentSlideIndex {Slide File} _.
Arguments createInitialState {Slide File}.
Arguments slides_length {Slide File} _.
Arguments setSlides {Slide File} _ _.
Arguments setCurrentSlide {Slide File} _ _.
Arguments nextSlide {Slide File} _.
Arguments previousSlide {Slide File} _.
Arguments resetSession {Slide File} _.
Arguments dispatch {Slide File} _ _.
Arguments run {Slide File} _ _.
Arguments index_in_bounds {Slide File} _.
Arguments SetCurrentSlide {Slide File} _.
Arguments SetSlides {Slide File} _.
Arguments NextSlide {Slide File}.
Arguments PreviousSlide {Slide File}.
Arguments ResetSession {Slide File}.
Arguments isLoading {Slide File} _.
Arguments error {Slide File} _.
Arguments pdfFile {Slide File} _.
Arguments transcript {Slide File} _.
Arguments isRecording {Slide File} _.
Arguments slide_at {Slide File} _ _.
Arguments getCurrentSlide {Slide File} _.
Arguments getSlideContent {Slide File} _ _ _.
Arguments getTotalSlides {Slide File} _.
Arguments getRecentTranscript {Slide File} _ _ _.
Arguments getFullTranscript {Slide File} _.
Arguments getTranscriptText {Slide File} _.
Arguments addTranscriptSegment {Slide File} _ _.
Arguments clearTranscript {Slide File} _.
Arguments is_transcript_action {Slide File} _.
Arguments SetLoading {Slide File} _.
Arguments SetError {Slide File} _.
Arguments SetPdfFile {Slide File} _.
Arguments AddTranscriptSegment {Slide File} _.
Arguments ClearTranscript {Slide File}.
Arguments SetIsRecording {Slide File} _.

End Store.

(* ================================================================= *)
(** ** app/src/components/SlideViewer.tsx *)

Module SlideViewer.

Section WithTypes.

Variables Slide File : Type.

(** [isFirstSlide] and [isLastSlide], which disable the two buttons. *)
Definition isFirstSlide (s : Store.SessionState Slide File) : bool :=
  Store.currentSlideIndex s =? 0.

Definition isLastSlide (s : Store.SessionState Slide File) : bool :=
  Store.currentSlideIndex s =? Store.getTotalSlides s - 1.

(** [handleKeyDown] for a key event with the given [event.key]. *)
Definition handleKeyDown (key : string) (s : Store.SessionState Slide File)
    : Store.SessionState Slide File :=
  if String.eqb key "ArrowRight" then Store.nextSlide s
  else if String.eqb key "ArrowLeft" then Store.previousSlide s
  else s.

End WithTypes.

Arguments isFirstSlide {Slide File} _.
Arguments isLastSlide {Slide File} _.
Arguments handleKeyDown {Slide File} _ _.

End SlideViewer.

(* ================================================================= *)
(** ** app/src/services/pdf.ts *)

Module Pdf.

(** [sanitizeFilename] looks at the characters of its argument, so here a
    JavaScript string is the list of its UTF-16 code units, which is what
    a regular expression without the [u] flag and [trim] work on. *)
Definition jsstring : Type := list N.

Open Scope N_scope.

Definition MAX_FILE_SIZE : N := 50 * 1024 * 1024.
Definition PDF_MAGIC_BYTES : list N := [37; 80; 68; 70; 45].

(** What [validatePDF] reads of a [File]: its [size], its [type], and its
    bytes as [FileReader] delivers them, [None] when the read fails. *)
Record File : Type := mkFile
  { size : N;
    type : string;
    bytes : option (list N) }.

Record ValidationResult : Type := mkValidation
  { valid : bool;
    error : option string }.

(** [readFileSlice (file, start, end)]: the bytes of [file.slice (start,
    end)], or a rejection. *)
Definition readFileSlice (file : File) (first last : nat) : option (list N) :=
  match bytes file with
  | None => None
  | Some content => Some (firstn (last - first) (skipn first content))
  end.

(** [xs.every ((x, index) => f (x, index))], the indices counted from [i]. *)
Fixpoint every_from {A : Type} (i : nat) (f : A -> nat -> bool)
    (xs : list A) : bool :=
  match xs with
  | [] => true
  | x :: rest => f x i && every_from (S i) f rest
  end.

(** [bytes[index] === byte] on a [Uint8Array]: false outside the array. *)
Definition byte_is (content : list N) (byte : N) (index : nat) : bool :=
  match nth_error content index with
  | None => false
  | Some b => b =? byte
  end.

Definition validatePDF (file : File) : ValidationResult :=
  if size file =? 0 then
    {| valid := false; error := Some "File is empty."%string |}
  else if MAX_FILE_SIZE <? size file then
    {| valid := false; error := Some "File size exceeds 50MB limit."%string |}
  else if negb (String.eqb (type file) "application/pdf") then
    {| valid := false;
       error := Some "Invalid file type. Please upload a PDF file."%string |}
  else
    match readFileSlice file 0 5 with
    | None => {| valid := false; error := Some "Unable to read file."%string |}
    | Some content =>
        let hasMagicBytes := every_from 0 (byte_is content) PDF_MAGIC_BYTES in
        if negb hasMagicBytes then
          {| valid := false;
             error := Some "File does not appear to be a valid PDF."%string |}
        else {| valid := true; error := None |}
    end.

(** [validation.error || 'Invalid PDF file'], the message that
    [extractTextFromPDF], [renderPDFPagesAsImages] and [processFile] report
    for a file that is not valid. *)
Definition validation_message (validation : ValidationResult) : string :=
  match error validation with
  | None => "Invalid PDF file"%string
  | Some e => if JS.truthy e then e else "Invalid PDF file"%string
  end.

(** Character classes of [sanitizeFilename]; [is_control] is the class
    [[\x00-\x1f]] of its first replacement. *)
Definition is_control (c : N) : bool := c <=? 31.
Definition is_path_separator (c : N) : bool := (c =? 47) || (c =? 92).
Definition is_dot (c : N) : bool := c =? 46.
Definition is_underscore (c : N) : bool := c =? 95.

(** [\s], and the characters [trim] strips: tab, line feed, vertical tab,
    form feed, carriage return, space, no-break space, U+1680, U+2000 to
    U+200A, U+2028, U+2029, U+202F, U+205F, U+3000 and U+FEFF. *)
Definition is_space (c : N) : bool :=
  ((9 <=? c) && (c <=? 13))
  || (c =? 32) || (c =? 160) || (c =? 5760)
  || ((8192 <=? c) && (c <=? 8202))
  || (c =? 8232) || (c =? 8233) || (c =? 8239) || (c =? 8287)
  || (c =? 12288) || (c =? 65279).

Definition is_space_or_underscore (c : N) : bool :=
  is_space c || is_underscore c.

(** [s.replace (/[class]/g, '')]. *)
Definition remove_all (class : N -> bool) (s : jsstring) : jsstring :=
  filter (fun c => negb (class c)) s.

(** [s.replace (/\.\./g, '')]: the matches are found from left to right
    and do not overlap. *)
Fixpoint remove_dotdot (s : jsstring) : jsstring :=
  match s with
  | [] => []
  | c :: rest =>
      match rest with
      | [] => [c]
      | d :: rest' =>
          if is_dot c && is_dot d then remove_dotdot rest'
          else c :: remove_dotdot rest
      end
  end.

(** [s.replace (/^[class]+/, '')]. *)
Fixpoint drop_leading (class : N -> bool) (s : jsstring) : jsstring :=
  match s with
  | [] => []
  | c :: rest => if class c then drop_leading class rest else s
  end.

(** [s.replace (/[class]+$/, '')]. *)
Definition drop_trailing (class : N -> bool) (s : jsstring) : jsstring :=
  rev (drop_leading class (rev s)).

(** [s.trim ()]. *)
Definition trim (s : jsstring) : jsstring :=
  drop_trailing is_space (drop_leading is_space s).

(** [s.replace (/[class]+/g, '_')]: every maximal run of characters of the
    class becomes one underscore.  [in_run] says that the character before
    [s] belongs to a run that has already been replaced. *)
Fixpoint collapse_runs (class : N -> bool) (in_run : bool) (s : jsstring)
    : jsstring :=
  match s with
  | [] => []
  | c :: rest =>
      if class c then
        if in_run then collapse_runs class true rest
        else 95 :: collapse_runs class true rest
      else c :: collapse_runs class false rest
  end.

(** The code units of an ASCII literal. *)
Fixpoint literal (s : string) : jsstring :=
  match s with
  | EmptyString => []
  | String c rest => N_of_ascii c :: literal rest
  end.

Definition sanitizeFilename (filename : jsstring) : jsstring :=
  let sanitized :=
    drop_trailing is_underscore
      (collapse_runs is_space_or_underscore false
         (drop_leading is_dot
            (trim
               (remove_dotdot
                  (remove_all is_path_separator
                     (remove_all is_control filename)))))) in
  match sanitized with
  | [] => literal "unnamed"
  | _ :: _ => sanitized
  end.

(** No two neighbours of a string are both in the class. *)
Fixpoint no_pair (class : N -> bool) (s : jsstring) : bool :=
  match s with
  | [] => true
  | c :: rest =>
      match rest with
      | [] => true
      | d :: _ => negb (class c && class d) && no_pair class rest
      end
  end.

(** The first and the last character of a string are not in the class. *)
Definition not_leading (class : N -> bool) (s : jsstring) : bool :=
  match s with
  | [] => true
  | c :: _ => negb (class c)
  end.

Definition not_trailing (class : N -> bool) (s : jsstring) : bool :=
  not_leading class (rev s).

(** What [sanitizeFilename] establishes of a file name: it is not empty,
    has no character from U+0000 to U+001F (the class [is_control] that
    the first replacement removes; U+007F and the characters from U+0080
    to U+009F are not in it), no slash or backslash, no white space, no two
    dots in a row and no two underscores in a row, does not start with a
    dot and does not end with an underscore. *)
Definition safe_name (s : jsstring) : bool :=
  negb (Nat.eqb (List.length s) 0)
  && forallb (fun c => negb (is_control c)) s
  && forallb (fun c => negb (is_path_separator c)) s
  && forallb (fun c => negb (is_space c)) s
  && no_pair is_dot s
  && no_pair is_underscore s
  && not_leading is_dot s
  && not_trailing is_underscore s.

Close Scope N_scope.

End Pdf.

(* ================================================================= *)
(** ** app/src/components/FileUpload.tsx *)

Module FileUpload.

(** A [Slide] as [processFile] builds it. *)
Record Slide : Type := mkSlide
  { number : Z;
    textContent : string;
    visualDescription : string;
    imageUrl : string }.

(** [pageImages[index] || '']. *)
Definition image_or_empty (pageImages : list string) (index : nat) : string :=
  match nth_error pageImages index with
  | None => EmptyString
  | Some url => if JS.truthy url then url else EmptyString
  end.

(** [pageTexts.map ((textContent, index) => ({ ... }))], the indices
    counted from [index]. *)
Fixpoint slides_from (index : nat) (pageImages pageTexts : list string)
    : list Slide :=
  match pageTexts with
  | [] => []
  | text :: rest =>
      {| number := Z.of_nat index + 1;
         textContent := text;
         visualDescription := EmptyString;
         imageUrl := image_or_empty pageImages index |}
      :: slides_from (S index) pageImages rest
  end.

Definition build_slides (pageTexts pageImages : list string) : list Slide :=
  slides_from 0 pageImages pageTexts.

(** How [Promise.all ([extractTextFromPDF (file), renderPDFPagesAsImages
    (file)])] ends: with the page texts and the page images, or with a
    thrown value, of which [processFile] reads the message when it is an
    [Error] ([None] when it is not). *)
Inductive Extraction : Type :=
| Extracted (pageTexts pageImages : list string)
| Threw (message : option string).

(** [processFile (file)], as the list of store actions it makes, in order. *)
Definition processFile (file : Pdf.File) (outcome : Extraction)
    : list (Store.Action Slide Pdf.File) :=
  [Store.SetError None; Store.SetLoading true]
  ++ (let validation := Pdf.validatePDF file in
      if negb (Pdf.valid validation) then
        [Store.SetError (Some (Pdf.validation_message validation));
         Store.SetLoading false]
      else
        match outcome with
        | Extracted pageTexts pageImages =>
            [Store.SetPdfFile (Some file);
             Store.SetSlides (build_slides pageTexts pageImages);
             Store.SetLoading false]
        | Threw thrown =>
            let message :=
              match thrown with
              | Some m => m
              | None => "Unknown error"%string
              end in
            [Store.SetError (Some ("Failed to process PDF: " ++ message)%string);
             Store.SetLoading false]
        end).

(** Every [setSlides] of a list of actions sets slides built by
    [processFile]: numbered from 1 in steps of 1. *)
Fixpoint numbered_from (n : Z) (slides : list Slide) : bool :=
  match slides with
  | [] => true
  | slide :: rest => (number slide =? n) && numbered_from (n + 1) rest
  end.

Definition sets_numbered_slides (a : Store.Action Slide Pdf.File) : bool :=
  match a with
  | Store.SetSlides new_slides => numbered_from 1 new_slides
  | _ => true
  end.

End FileUpload.

(* ================================================================= *)
(** ** app/src/components/TranscriptPanel.tsx and [createTranscriptSegment]
       of app/src/utils/transcript.ts *)

Module TranscriptPanel.

Section WithTrim.

(** [String.prototype.trim], of which the panel only uses that it maps a
    string to a string. *)
Variable trim : string -> string.

Variables Slide File : Type.

(** [createTranscriptSegment (text, slideNumber, timestamp?)] called at
    time [now]. *)
Definition createTranscriptSegment (text : string) (slideNumber : Z)
    (timestamp : option Z) (now : Z) : Transcript.TranscriptSegment :=
  {| Transcript.text := trim text;
     Transcript.timestamp :=
       match timestamp with
       | Some t => t
       | None => now
       end;
     Transcript.slideNumber := slideNumber |}.

(** [handleResult (text, isFinal)] called at time [now], for the
    [handleResult] made by a render that read [currentSlideIndex] from the
    store: the callback closes over that value, while
    [addTranscriptSegment] appends to the transcript the store has at the
    time of the call. *)
Definition handleResult (currentSlideIndex : Z) (text : string)
    (isFinal : bool) (now : Z) (s : Store.SessionState Slide File)
    : Store.SessionState Slide File :=
  if isFinal && JS.truthy (trim text) then
    let segment :=
      createTranscriptSegment text (currentSlideIndex + 1) None now in
    Store.addTranscriptSegment segment s
  else s.

(** The mounted panel and the store.  [renderedSlideIndex] is the
    [currentSlideIndex] read by the latest render, which the [handleResult]
    of that render closes over ([useCallback] with [currentSlideIndex]
    among its dependencies); [installedSlideIndex] is the one closed over
    by the [handleResult] that the recognizer's [onresult] handler calls,
    the handler being installed by the effect of [useSpeechToText] whose
    dependency is [onResult].  Between a change of the store and the next
    render, and between a render and its effect, the two can lag behind
    the store. *)
Record Panel : Type := mkPanel
  { store : Store.SessionState Slide File;
    renderedSlideIndex : Z;
    installedSlideIndex : Z }.

(** The panel mounted on a store: its first render and its effects. *)
Definition mount (s : Store.SessionState Slide File) : Panel :=
  {| store := s;
     renderedSlideIndex := Store.currentSlideIndex s;
     installedSlideIndex := Store.currentSlideIndex s |}.

(** A render of the panel. *)
Definition render (p : Panel) : Panel :=
  {| store := store p;
     renderedSlideIndex := Store.currentSlideIndex (store p);
     installedSlideIndex := installedSlideIndex p |}.

(** The effect that installs the handlers of the latest render. *)
Definition install (p : Panel) : Panel :=
  {| store := store p;
     renderedSlideIndex := renderedSlideIndex p;
     installedSlideIndex := renderedSlideIndex p |}.

(** What happens while the panel is mounted: an action of the store, a
    render, the effect of the latest render, or a result reported by the
    recognition session to the installed callback. *)
Inductive Input : Type :=
| Dispatch (a : Store.Action Slide File)
| Render
| RunEffect
| Result (text : string) (isFinal : bool) (now : Z).

Definition step (p : Panel) (i : Input) : Panel :=
  match i with
  | Dispatch a =>
      {| store := Store.dispatch (store p) a;
         renderedSlideIndex := renderedSlideIndex p;
         installedSlideIndex := installedSlideIndex p |}
  | Render => render p
  | RunEffect => install p
  | Result text isFinal now =>
      {| store :=
           handleResult (installedSlideIndex p) text isFinal now (store p);
         renderedSlideIndex := renderedSlideIndex p;
         installedSlideIndex := installedSlideIndex p |}
  end.

Definition run (p : Panel) (inputs : list Input) : Panel :=
  fold_left step inputs p.

Definition is_add_segment (a : Store.Action Slide File) : bool :=
  match a with
  | Store.AddTranscriptSegment _ => true
  | _ => false
  end.

(** No input adds a segment to the store directly. *)
Definition adds_through_panel (i : Input) : bool :=
  match i with
  | Dispatch a => negb (is_add_segment a)
  | _ => true
  end.

(** The clock read at the results never runs backwards, from [t0] on. *)
Fixpoint clock_monotone (t0 : Z) (inputs : list Input) : bool :=
  match inputs with
  | [] => true
  | Result _ _ now :: rest => (t0 <=? now) && clock_monotone now rest
  | _ :: rest => clock_monotone t0 rest
  end.

(** What the panel guarantees of a segment: its text is a trimmed text and
    is not empty, its slide number is at least 1, and it is not later than
    [t]. *)
Definition well_formed_segment (t : Z) (segment : Transcript.TranscriptSegment)
    : Prop :=
  (exists raw, Transcript.text segment = trim raw)
  /\ Transcript.text segment <> EmptyString
  /\ 1 <= Transcript.slideNumber segment
  /\ Transcript.timestamp segment <= t.

(** The invariant of the panel at clock time [t]. *)
Definition panel_inv (t : Z) (p : Panel) : Prop :=
  Store.index_in_bounds (store p)
  /\ 0 <= renderedSlideIndex p
  /\ 0 <= installedSlideIndex p
  /\ Forall (well_formed_segment t) (Store.transcript (store p))
  /\ Transcript.chronological (Store.transcript (store p)) = true.

End WithTrim.

Arguments createTranscriptSegment _ _ _ _ _ : clear implicits.
Arguments handleResult trim {Slide File} _ _ _ _ _.
Arguments store {Slide File} _.
Arguments renderedSlideIndex {Slide File} _.
Arguments installedSlideIndex {Slide File} _.
Arguments mount {Slide File} _.
Arguments render {Slide File} _.
Arguments install {Slide File} _.
Arguments Dispatch {Slide File} _.
Arguments Render {Slide File}.
Arguments RunEffect {Slide File}.
Arguments Result {Slide File} _ _ _.
Arguments step trim {Slide File} _ _.
Arguments run trim {Slide File} _ _.
Arguments is_add_segment {Slide File} _.
Arguments adds_through_panel {Slide File} _.
Arguments clock_monotone {Slide File} _ _.
Arguments panel_inv trim {Slide File} _ _.

End TranscriptPanel.

(* ================================================================= *)
(** * Properties *)

(* ================================================================= *)
(** ** The models on the inputs of the repository's tests *)

Example formatTimestamp_pads_single_digits :
  Transcript.formatTimestamp 1771761605000 1771761600000 = "00:05"%string.
Proof. reflexivity. Qed.

Example getErrorMessage_unknown_code :
  Speech.getErrorMessage "aborted" = "Speech recognition error: aborted"%string.
Proof. reflexivity. Qed.

Example speech_accumulates_final_results :
  Speech.transcript
    (Speech.run (Speech.mount true false "en-US")
       [Speech.Start; Speech.OnStart;
        Speech.OnResult (Speech.mkEvent 0 [Speech.mkResult true "Hello "]);
        Speech.OnResult
          (Speech.mkEvent 1 [Speech.mkResult true "Hello ";
                             Speech.mkResult true "world"])])
  = "Hello world"%string.
Proof. reflexivity. Qed.

Example speech_start_unsupported_does_nothing :
  Speech.start (Speech.mount false true "en-US") = Speech.mount false true "en-US"
  /\ Speech.error (Speech.mount false true "en-US")
     = Some Speech.unsupported_message.
Proof. split; reflexivity. Qed.

Example tracker_records_transitions_in_order :
  Tracker.transitions
    (Tracker.run (Tracker.initial 0)
       [Tracker.Render 0 100; Tracker.StartTracking 1000; Tracker.Render 0 1000;
        Tracker.Render 1 6000; Tracker.Render 1 6000; Tracker.Render 2 9000])
  = [Tracker.mkTransition 0 1000; Tracker.mkTransition 1 6000;
     Tracker.mkTransition 2 9000].
Proof. reflexivity. Qed.

Example tracker_timings_of_three_transitions :
  map Tracker.duration
    (Tracker.slide_timings 12000
       [Tracker.mkTransition 0 1000; Tracker.mkTransition 1 6000;
        Tracker.mkTransition 2 9000])
  = [5000; 3000; 3000].
Proof. reflexivity. Qed.

Example tracker_not_tracking_records_nothing :
  Tracker.transitions
    (Tracker.run (Tracker.initial 0) [Tracker.Render 0 100; Tracker.Render 1 200])
  = [].
Proof. reflexivity. Qed.

Example store_clamps_negative_index :
  Store.currentSlideIndex
    (Store.run (Store.createInitialState : Store.SessionState nat unit)
       [Store.SetSlides [1%nat; 2%nat]; Store.SetCurrentSlide (-1)]) = 0.
Proof. reflexivity. Qed.

(* ================================================================= *)
(** ** Strings *)

Section StringFacts.

Open Scope string_scope.

Lemma string_app_assoc (a b c : string) : (a ++ b) ++ c = a ++ (b ++ c).
Proof.
  induction a as [| ch a IH]; simpl.
  - reflexivity.
  - now rewrite IH.
Qed.

(** Joining after gluing the first two parts with the separator. *)
Lemma join_glue (sep a b : string) (l : list string) :
  JS.join sep ((a ++ sep ++ b) :: l) = JS.join sep (a :: b :: l).
Proof.
  destruct l as [| c l]; simpl.
  - reflexivity.
  - now rewrite !string_app_assoc.
Qed.

Lemma join_cons_nonempty (sep a b : string) (l : list string) :
  JS.join sep (a :: b :: l) = a ++ sep ++ JS.join sep (b :: l).
Proof. reflexivity. Qed.

End StringFacts.

(* ================================================================= *)
(** ** Merging consecutive segments *)

Section MergeFacts.

Import Transcript.

Variable thresholdMs : Z.

(** The loop of the source, started from any loop state, computes what
    the accumulator walk of the specification computes. *)
Lemma merge_loop_walk (rest : list TranscriptSegment) :
  forall result current,
    (let (r, c) := fold_left (merge_iter thresholdMs) rest (result, current) in
     r ++ [c])
    = result ++ mergeAdjacent_from thresholdMs current rest.
Proof.
  induction rest as [| next rest IH]; intros result current; simpl.
  - reflexivity.
  - unfold same_run.
    destruct ((slideNumber next =? slideNumber current)
              && (timestamp next - timestamp current <=? thresholdMs)).
    + apply IH.
    + rewrite IH, <- app_assoc. reflexivity.
Qed.

Lemma merge_refines_spec (segments : list TranscriptSegment) :
  mergeConsecutiveSegments segments thresholdMs
  = mergeAdjacent_spec segments thresholdMs.
Proof.
  destruct segments as [| first rest]; simpl.
  - reflexivity.
  - apply (merge_loop_walk rest [] first).
Qed.

(** A walk starts its output with a segment that has the timestamp and
    the slide number of its accumulator. *)
Lemma walk_head (rest : list TranscriptSegment) :
  forall acc, exists h tl,
    mergeAdjacent_from thresholdMs acc rest = h :: tl
    /\ timestamp h = timestamp acc
    /\ slideNumber h = slideNumber acc.
Proof.
  induction rest as [| s rest IH]; intros acc; simpl.
  - exists acc, []. auto.
  - destruct ((slideNumber s =? slideNumber acc)
              && (timestamp s - timestamp acc <=? thresholdMs)).
    + destruct (IH {| text := (text acc ++ " " ++ text s)%string;
                      timestamp := timestamp acc;
                      slideNumber := slideNumber acc |})
        as (h & tl & E & Ht & Hs).
      exists h, tl. auto.
    + exists acc, (mergeAdjacent_from thresholdMs s rest). auto.
Qed.

(** Walking the output of a walk changes nothing. *)
Lemma walk_idempotent (rest : list TranscriptSegment) :
  forall acc,
    mergeAdjacent_spec (mergeAdjacent_from thresholdMs acc rest) thresholdMs
    = mergeAdjacent_from thresholdMs acc rest.
Proof.
  induction rest as [| s rest IH]; intros acc.
  - reflexivity.
  - simpl mergeAdjacent_from.
    destruct ((slideNumber s =? slideNumber acc)
              && (timestamp s - timestamp acc <=? thresholdMs)) eqn:Etest.
    + apply IH.
    + specialize (IH s).
      destruct (walk_head rest s) as (h & tl & E & Ht & Hs).
      rewrite E in *. simpl in *.
      rewrite Ht, Hs, Etest. now rewrite IH.
Qed.

(** A walk regroups the spoken text and keeps all of it. *)
Lemma walk_spoken_text (rest : list TranscriptSegment) :
  forall acc,
    spoken_text (mergeAdjacent_from thresholdMs acc rest)
    = spoken_text (acc :: rest).
Proof.
  unfold spoken_text.
  induction rest as [| s rest IH]; intros acc.
  - reflexivity.
  - simpl mergeAdjacent_from.
    destruct ((slideNumber s =? slideNumber acc)
              && (timestamp s - timestamp acc <=? thresholdMs)).
    + rewrite IH.
      exact (join_glue " " (text acc) (text s) (map text rest)).
    + specialize (IH s).
      destruct (walk_head rest s) as (h & tl & E & _ & _).
      rewrite E in *. cbn [map] in *.
      rewrite join_cons_nonempty, IH. reflexivity.
Qed.

End MergeFacts.

(** C4.  [mergeConsecutiveSegments] walks its input in the given order:
    the empty list gives the empty list; a single segment is flushed as it
    is; with an accumulator [a] in front, the next segment [s] is merged
    into [a] exactly when it has the slide number of [a] and
    [s.timestamp - a.timestamp <= thresholdMs], the merged accumulator
    having the text of [a], one space and the text of [s], and the
    timestamp and slide number of [a]; otherwise [a] is flushed and [s]
    becomes the accumulator.  The source loop agrees with the accumulator
    walk worded by the specification, a non-empty input gives a non-empty
    output, and "Hello" at 1000 followed by "world" at 2000 on slide 1
    merge under threshold 3000 into "Hello world" at 1000. *)
Theorem mergeConsecutiveSegments_walk :
  forall thresholdMs : Z,
    Transcript.mergeConsecutiveSegments [] thresholdMs = []
    /\ (forall a, Transcript.mergeConsecutiveSegments [a] thresholdMs = [a])
    /\ (forall a s rest,
          Transcript.mergeConsecutiveSegments (a :: s :: rest) thresholdMs
          = if (Transcript.slideNumber s =? Transcript.slideNumber a)
               && (Transcript.timestamp s - Transcript.timestamp a <=? thresholdMs)
            then Transcript.mergeConsecutiveSegments
                   (Transcript.mkSegment
                      (Transcript.text a ++ " " ++ Transcript.text s)%string
                      (Transcript.timestamp a) (Transcript.slideNumber a)
                    :: rest) thresholdMs
            else a :: Transcript.mergeConsecutiveSegments (s :: rest) thresholdMs)
    /\ (forall segments,
          Transcript.mergeConsecutiveSegments segments thresholdMs
          = Transcript.mergeAdjacent_spec segments thresholdMs)
    /\ (forall a rest,
          Transcript.mergeConsecutiveSegments (a :: rest) thresholdMs <> [])
    /\ Transcript.mergeConsecutiveSegments
         [Transcript.mkSegment "Hello" 1000 1; Transcript.mkSegment "world" 2000 1]
         3000
       = [Transcript.mkSegment "Hello world" 1000 1].
Proof.
  intros thresholdMs.
  split; [reflexivity |].
  split; [reflexivity |].
  split.
  { intros a s rest. rewrite !merge_refines_spec. simpl.
    destruct ((Transcript.slideNumber s =? Transcript.slideNumber a)
              && (Transcript.timestamp s - Transcript.timestamp a <=? thresholdMs));
      reflexivity. }
  split; [apply merge_refines_spec |].
  split.
  { intros a rest. rewrite merge_refines_spec. simpl.
    destruct (walk_head thresholdMs rest a) as (h & tl & E & _).
    rewrite E. discriminate. }
  reflexivity.
Qed.

(** C5.  [mergeConsecutiveSegments] is idempotent on its own output: run
    again with the same threshold on what it returned, it returns the
    same list. *)
Theorem mergeConsecutiveSegments_idempotent :
  forall (segments : list Transcript.TranscriptSegment) (thresholdMs : Z),
    Transcript.mergeConsecutiveSegments
      (Transcript.mergeConsecutiveSegments segments thresholdMs) thresholdMs
    = Transcript.mergeConsecutiveSegments segments thresholdMs.
Proof.
  intros segments thresholdMs.
  rewrite !merge_refines_spec.
  destruct segments as [| first rest]; simpl.
  - reflexivity.
  - apply walk_idempotent.
Qed.

(** C9.  [mergeConsecutiveSegments] loses no spoken text: the texts of its
    output joined in order by one space are the texts of its input joined
    in order by one space. *)
Theorem mergeConsecutiveSegments_keeps_spoken_text :
  forall (segments : list Transcript.TranscriptSegment) (thresholdMs : Z),
    Transcript.spoken_text
      (Transcript.mergeConsecutiveSegments segments thresholdMs)
    = Transcript.spoken_text segments.
Proof.
  intros segments thresholdMs.
  rewrite merge_refines_spec.
  destruct segments as [| first rest]; simpl.
  - reflexivity.
  - apply walk_spoken_text.
Qed.

(* ================================================================= *)
(** ** Speaking duration *)

Section DurationFacts.

Import Transcript.

Lemma Math_min_lower (xs : list Z) :
  forall x0 x, In x (x0 :: xs) -> JS.Math_min x0 xs <= x.
Proof.
  unfold JS.Math_min.
  induction xs as [| y xs IH]; intros x0 x Hin; simpl in *.
  - destruct Hin as [-> | []]. lia.
  - assert (Hstep : forall z, In z (Z.min x0 y :: xs) ->
                              fold_left Z.min xs (Z.min x0 y) <= z)
      by (intros z Hz; apply IH; exact Hz).
    pose proof (Hstep (Z.min x0 y) (or_introl eq_refl)) as Hm.
    destruct Hin as [-> | [-> | Hin]].
    + lia.
    + lia.
    + apply Hstep. right. exact Hin.
Qed.

Lemma Math_min_member (xs : list Z) :
  forall x0, In (JS.Math_min x0 xs) (x0 :: xs).
Proof.
  unfold JS.Math_min.
  induction xs as [| y xs IH]; intros x0; simpl.
  - now left.
  - destruct (IH (Z.min x0 y)) as [E | Hin].
    + rewrite <- E. destruct (Z.min_spec x0 y) as [[_ ->] | [_ ->]]; auto.
    + right. right. exact Hin.
Qed.

Lemma Math_max_upper (xs : list Z) :
  forall x0 x, In x (x0 :: xs) -> x <= JS.Math_max x0 xs.
Proof.
  unfold JS.Math_max.
  induction xs as [| y xs IH]; intros x0 x Hin; simpl in *.
  - destruct Hin as [-> | []]. lia.
  - assert (Hstep : forall z, In z (Z.max x0 y :: xs) ->
                              z <= fold_left Z.max xs (Z.max x0 y))
      by (intros z Hz; apply IH; exact Hz).
    pose proof (Hstep (Z.max x0 y) (or_introl eq_refl)) as Hm.
    destruct Hin as [-> | [-> | Hin]].
    + lia.
    + lia.
    + apply Hstep. right. exact Hin.
Qed.

Lemma Math_max_member (xs : list Z) :
  forall x0, In (JS.Math_max x0 xs) (x0 :: xs).
Proof.
  unfold JS.Math_max.
  induction xs as [| y xs IH]; intros x0; simpl.
  - now left.
  - destruct (IH (Z.max x0 y)) as [E | Hin].
    + rewrite <- E. destruct (Z.max_spec x0 y) as [[_ ->] | [_ ->]]; auto.
    + right. right. exact Hin.
Qed.

(** On two or more segments the duration is the distance between two
    timestamps of the list that bound all the others. *)
Lemma duration_is_range (segments : list TranscriptSegment) :
  (2 <= List.length segments)%nat ->
  exists lo hi,
    In lo (map timestamp segments)
    /\ In hi (map timestamp segments)
    /\ (forall t, In t (map timestamp segments) -> lo <= t <= hi)
    /\ calculateSpeakingDuration segments = hi - lo.
Proof.
  intros Hlen. unfold calculateSpeakingDuration.
  destruct (Nat.leb_spec (List.length segments) 1) as [Hle | _]; [lia |].
  destruct segments as [| s0 rest]; [simpl in Hlen; lia |].
  cbn [map].
  exists (JS.Math_min (timestamp s0) (map timestamp rest)),
         (JS.Math_max (timestamp s0) (map timestamp rest)).
  split; [apply Math_min_member |].
  split; [apply Math_max_member |].
  split; [| reflexivity].
  intros t Ht. split.
  - now apply Math_min_lower.
  - now apply Math_max_upper.
Qed.

Lemma duration_perm (segments segments' : list TranscriptSegment) :
  Permutation segments segments' ->
  calculateSpeakingDuration segments' = calculateSpeakingDuration segments.
Proof.
  intros Hperm.
  pose proof (Permutation_length Hperm) as Hlen.
  destruct (Nat.leb_spec (List.length segments) 1) as [Hle | Hgt].
  - unfold calculateSpeakingDuration.
    destruct (Nat.leb_spec (List.length segments') 1) as [_ | ?]; [| lia].
    destruct (Nat.leb_spec (List.length segments) 1) as [_ | ?]; [| lia].
    reflexivity.
  - destruct (duration_is_range segments) as (lo & hi & Hlo & Hhi & Hb & ->);
      [lia |].
    destruct (duration_is_range segments') as (lo' & hi' & Hlo' & Hhi' & Hb' & ->);
      [lia |].
    pose proof (Permutation_map timestamp Hperm) as Hts.
    assert (Hin : forall t, In t (map timestamp segments)
                            <-> In t (map timestamp segments')).
    { intros t. split; intros Ht.
      - exact (Permutation_in t Hts Ht).
      - exact (Permutation_in t (Permutation_sym Hts) Ht). }
    pose proof (Hb lo' (proj2 (Hin lo') Hlo')).
    pose proof (Hb hi' (proj2 (Hin hi') Hhi')).
    pose proof (Hb' lo (proj1 (Hin lo) Hlo)).
    pose proof (Hb' hi (proj1 (Hin hi) Hhi)).
    lia.
Qed.

End DurationFacts.

(** C6.  [calculateSpeakingDuration] is 0 on zero or one segment; on a
    longer list it is [hi - lo] for the greatest timestamp [hi] and the
    least timestamp [lo] of the whole list; its result is the same on every
    permutation of its input, and every ordering of segments with
    timestamps 5000, 1000 and 10000 gives 9000. *)
Theorem calculateSpeakingDuration_range_perm :
  forall segments : list Transcript.TranscriptSegment,
    ((List.length segments <= 1)%nat ->
     Transcript.calculateSpeakingDuration segments = 0)
    /\ ((2 <= List.length segments)%nat ->
        exists lo hi,
          In lo (map Transcript.timestamp segments)
          /\ In hi (map Transcript.timestamp segments)
          /\ (forall t, In t (map Transcript.timestamp segments) -> lo <= t <= hi)
          /\ Transcript.calculateSpeakingDuration segments = hi - lo)
    /\ (forall segments',
          Permutation segments segments' ->
          Transcript.calculateSpeakingDuration segments'
          = Transcript.calculateSpeakingDuration segments)
    /\ (forall text1 text2 text3 slide1 slide2 slide3,
          Permutation
            [Transcript.mkSegment text1 5000 slide1;
             Transcript.mkSegment text2 1000 slide2;
             Transcript.mkSegment text3 10000 slide3] segments ->
          Transcript.calculateSpeakingDuration segments = 9000).
Proof.
  intros segments.
  split.
  { intros Hlen. unfold Transcript.calculateSpeakingDuration.
    destruct (Nat.leb_spec (List.length segments) 1); [reflexivity | lia]. }
  split; [apply duration_is_range |].
  split; [intros segments'; apply duration_perm |].
  intros text1 text2 text3 slide1 slide2 slide3 Hperm.
  rewrite (duration_perm _ _ Hperm). reflexivity.
Qed.

(** The three timestamps of the specification in another order, a single
    segment, and the bounds of a two-segment list. *)
Lemma calculateSpeakingDuration_range_perm_witness :
  Transcript.calculateSpeakingDuration
    [Transcript.mkSegment "c" 10000 1; Transcript.mkSegment "a" 5000 1;
     Transcript.mkSegment "b" 1000 2] = 9000
  /\ Transcript.calculateSpeakingDuration [Transcript.mkSegment "a" 5000 1] = 0
  /\ (exists lo hi,
        In lo [7000; 4000] /\ In hi [7000; 4000]
        /\ (forall t, In t [7000; 4000] -> lo <= t <= hi)
        /\ Transcript.calculateSpeakingDuration
             [Transcript.mkSegment "x" 7000 3; Transcript.mkSegment "y" 4000 3]
           = hi - lo)
  /\ Transcript.calculateSpeakingDuration
       [Transcript.mkSegment "y" 4000 3; Transcript.mkSegment "x" 7000 3]
     = Transcript.calculateSpeakingDuration
         [Transcript.mkSegment "x" 7000 3; Transcript.mkSegment "y" 4000 3].
Proof.
  split; [| split; [| split]].
  - destruct (calculateSpeakingDuration_range_perm
                [Transcript.mkSegment "c" 10000 1; Transcript.mkSegment "a" 5000 1;
                 Transcript.mkSegment "b" 1000 2]) as (_ & _ & _ & Hshuffle).
    apply (Hshuffle "a"%string "b"%string "c"%string 1 2 1).
    apply Permutation_sym.
    apply (perm_trans (l' := [Transcript.mkSegment "a" 5000 1;
                              Transcript.mkSegment "c" 10000 1;
                              Transcript.mkSegment "b" 1000 2])).
    + apply perm_swap.
    + apply perm_skip. apply perm_swap.
  - destruct (calculateSpeakingDuration_range_perm
                [Transcript.mkSegment "a" 5000 1]) as (Hshort & _).
    apply Hshort. simpl. lia.
  - destruct (calculateSpeakingDuration_range_perm
                [Transcript.mkSegment "x" 7000 3; Transcript.mkSegment "y" 4000 3])
      as (_ & Hrange & _).
    apply Hrange. simpl. lia.
  - destruct (calculateSpeakingDuration_range_perm
                [Transcript.mkSegment "x" 7000 3; Transcript.mkSegment "y" 4000 3])
      as (_ & _ & Hperm & _).
    apply Hperm. apply perm_swap.
Defined.

(* ================================================================= *)
(** ** Formatting a relative timestamp *)

Section FormatFacts.

Import Transcript.

(** Below 100, [pad] writes exactly two decimal digits. *)
Lemma pad_below_100 (n : Z) : 0 <= n < 100 -> pad n = two_digits n.
Proof.
  intros Hn.
  assert (Hall : forallb
                   (fun k => String.eqb (pad (Z.of_nat k)) (two_digits (Z.of_nat k)))
                   (seq 0 100) = true) by (vm_compute; reflexivity).
  rewrite forallb_forall in Hall.
  specialize (Hall (Z.to_nat n)).
  rewrite Z2Nat.id in Hall by lia.
  apply String.eqb_eq, Hall, in_seq. lia.
Qed.

Lemma string_of_uint_length (d : Decimal.uint) :
  String.length (NilEmpty.string_of_uint d) = Decimal.nb_digits d.
Proof. induction d; simpl; congruence. Qed.

(** From 10 on, the decimal writing has two characters or more, and
    [pad] adds nothing. *)
Lemma pad_from_10 (n : Z) : 10 <= n -> pad n = JS.number_toString n.
Proof.
  intros Hn. unfold pad, JS.padStart.
  assert (Hlen : (2 <= String.length (JS.number_toString n))%nat).
  { destruct n as [| p | p]; try lia.
    unfold JS.number_toString. simpl Z.to_int.
    cbn [NilEmpty.string_of_int]. rewrite string_of_uint_length.
    pose proof (DecimalPos.Unsigned.of_to p) as Hp.
    destruct (Pos.to_uint p) as [| d | d | d | d | d | d | d | d | d | d].
    all: try (simpl in Hp; discriminate Hp).
    all: destruct d; simpl; try lia.
    all: simpl in Hp; try discriminate Hp; injection Hp as Hp; lia. }
  replace (2 - String.length (JS.number_toString n))%nat with 0%nat by lia.
  reflexivity.
Qed.

Lemma formatTimestamp_same (b : Z) : formatTimestamp b b = "00:00"%string.
Proof. unfold formatTimestamp. rewrite Z.sub_diag. reflexivity. Qed.

Lemma formatTimestamp_offset (b d : Z) :
  formatTimestamp (b + d) b = formatTimestamp d 0.
Proof.
  unfold formatTimestamp.
  replace (b + d - b) with d by lia.
  replace (d - 0) with d by lia.
  reflexivity.
Qed.

Lemma formatTimestamp_under_an_hour (t b : Z) :
  b <= t -> (t - b) / 1000 < 3600 ->
  formatTimestamp t b
  = (two_digits ((t - b) / 1000 / 60) ++ ":"
     ++ two_digits (((t - b) / 1000) mod 60))%string.
Proof.
  intros Hle Hlt. unfold formatTimestamp.
  set (secs := (t - b) / 1000) in *.
  assert (Hsecs : 0 <= secs) by (apply Z.div_pos; lia).
  rewrite (Z.div_small secs 3600) by lia. simpl (0 <? 0).
  rewrite !Z.rem_mod_nonneg by lia.
  rewrite (Z.mod_small secs 3600) by lia.
  assert (Hm : 0 <= secs / 60 < 100)
    by (split; [apply Z.div_pos; lia | apply Z.div_lt_upper_bound; lia]).
  assert (Hs : 0 <= secs mod 60 < 100)
    by (pose proof (Z.mod_pos_bound secs 60 ltac:(lia)); lia).
  rewrite (pad_below_100 _ Hm), (pad_below_100 _ Hs). reflexivity.
Qed.

Lemma formatTimestamp_an_hour_or_more (t b : Z) :
  b <= t -> 3600 <= (t - b) / 1000 ->
  formatTimestamp t b
  = ((if ((t - b) / 1000 / 3600 <? 100)%Z
      then two_digits ((t - b) / 1000 / 3600)
      else JS.number_toString ((t - b) / 1000 / 3600)) ++ ":"
     ++ two_digits (((t - b) / 1000) mod 3600 / 60) ++ ":"
     ++ two_digits (((t - b) / 1000) mod 60))%string.
Proof.
  intros Hle Hge. unfold formatTimestamp.
  set (secs := (t - b) / 1000) in *.
  assert (Hhours : 1 <= secs / 3600) by (apply Z.div_le_lower_bound; lia).
  destruct (Z.ltb_spec 0 (secs / 3600)) as [_ | ?]; [| lia].
  rewrite !Z.rem_mod_nonneg by lia.
  assert (Hm : 0 <= secs mod 3600 / 60 < 100).
  { pose proof (Z.mod_pos_bound secs 3600 ltac:(lia)).
    split; [apply Z.div_pos; lia | apply Z.div_lt_upper_bound; lia]. }
  assert (Hs : 0 <= secs mod 60 < 100)
    by (pose proof (Z.mod_pos_bound secs 60 ltac:(lia)); lia).
  rewrite (pad_below_100 _ Hm), (pad_below_100 _ Hs).
  destruct (Z.ltb_spec (secs / 3600) 100) as [Hlt | Hbig].
  - rewrite pad_below_100 by lia. reflexivity.
  - rewrite pad_from_10 by lia. reflexivity.
Qed.

End FormatFacts.

(** The format of a timestamp [t] at or after the base [b], with [secs]
    the elapsed whole seconds: under one hour the result is the minutes
    and the seconds, two decimal digits each, as "mm:ss"; from one hour on
    it is "hh:mm:ss", the minutes and seconds with two digits each and the
    hours with two digits below 100 hours and written in full from 100
    hours on.  For every base [b] the elapsed times 0, 65000 and 3661000
    ms give "00:00", "01:05" and "01:01:01". *)
Theorem formatTimestamp_nonnegative_elapsed :
  forall t b : Z,
    (b <= t ->
     let secs := (t - b) / 1000 in
     Transcript.formatTimestamp t b
     = if secs <? 3600
       then (Transcript.two_digits (secs / 60) ++ ":"
             ++ Transcript.two_digits (secs mod 60))%string
       else ((if (secs / 3600 <? 100)%Z
              then Transcript.two_digits (secs / 3600)
              else JS.number_toString (secs / 3600)) ++ ":"
             ++ Transcript.two_digits (secs mod 3600 / 60) ++ ":"
             ++ Transcript.two_digits (secs mod 60))%string)
    /\ Transcript.formatTimestamp b b = "00:00"%string
    /\ Transcript.formatTimestamp (b + 65000) b = "01:05"%string
    /\ Transcript.formatTimestamp (b + 3661000) b = "01:01:01"%string.
Proof.
  intros t b. split.
  { intros Hle secs. subst secs.
    destruct (Z.ltb_spec ((t - b) / 1000) 3600) as [Hlt | Hge].
    - now apply formatTimestamp_under_an_hour.
    - now apply formatTimestamp_an_hour_or_more. }
  split; [apply formatTimestamp_same |].
  split; [rewrite formatTimestamp_offset; reflexivity |].
  rewrite formatTimestamp_offset. reflexivity.
Qed.

(** Ninety minutes and seven seconds after the base. *)
Lemma formatTimestamp_nonnegative_elapsed_witness :
  Transcript.formatTimestamp 5407900 500 = "01:30:07"%string.
Proof.
  destruct (formatTimestamp_nonnegative_elapsed 5407900 500) as (Hfmt & _).
  rewrite Hfmt by lia. reflexivity.
Defined.

(** C3.  On a timestamp before the base the code returns neither the
    "00:00" of the claim nor any zero-padded "mm:ss" or "hh:mm:ss" of its
    own doc comment: whatever the base [b], one second before it is
    written "-1:-1", one minute before it "-1:00", and one hour, one
    minute and one second before it "-2:-1".  The difference is floored
    and divided as it is, without a clamp, and [pad] writes the minus
    sign. *)
Theorem formatTimestamp_negative_elapsed_malformed :
  forall b : Z,
    Transcript.formatTimestamp (b - 1000) b = "-1:-1"%string
    /\ Transcript.formatTimestamp (b - 60000) b = "-1:00"%string
    /\ Transcript.formatTimestamp (b - 3661000) b = "-2:-1"%string
    /\ Transcript.formatTimestamp 0 1000 = "-1:-1"%string.
Proof.
  intros b.
  replace (b - 1000) with (b + -1000) by lia.
  replace (b - 60000) with (b + -60000) by lia.
  replace (b - 3661000) with (b + -3661000) by lia.
  rewrite !formatTimestamp_offset. repeat split.
Qed.

(* ================================================================= *)
(** ** The session store *)

Section StoreFacts.

Variables Slide File : Type.

Lemma initial_in_bounds :
  Store.index_in_bounds (Store.createInitialState : Store.SessionState Slide File).
Proof. reflexivity. Qed.

Lemma setCurrentSlide_in_bounds (index : Z) (s : Store.SessionState Slide File) :
  Store.index_in_bounds (Store.setCurrentSlide index s).
Proof.
  unfold Store.setCurrentSlide.
  destruct (Z.eqb_spec (Store.slides_length s) 0) as [E | Hne];
    unfold Store.index_in_bounds, Store.set_currentSlideIndex,
           Store.slides_length in *;
    cbn [Store.slides Store.currentSlideIndex];
    destruct (Store.slides s); cbn [List.length] in *; lia.
Qed.

Lemma dispatch_in_bounds (s : Store.SessionState Slide File) (a : Store.Action Slide File) :
  Store.index_in_bounds s -> Store.index_in_bounds (Store.dispatch s a).
Proof.
  intros Hs. destruct a; cbn [Store.dispatch]; try exact Hs.
  - (* setSlides *)
    unfold Store.index_in_bounds, Store.slides_length, Store.setSlides.
    cbn [Store.slides Store.currentSlideIndex].
    destruct new_slides; cbn [List.length]; lia.
  - apply setCurrentSlide_in_bounds.
  - (* nextSlide *)
    unfold Store.nextSlide.
    destruct (Z.ltb_spec (Store.currentSlideIndex s) (Store.slides_length s - 1))
      as [Hlt | _]; [| exact Hs].
    unfold Store.index_in_bounds, Store.set_currentSlideIndex,
           Store.slides_length in *.
    cbn [Store.slides Store.currentSlideIndex].
    destruct (Store.slides s); cbn [List.length] in *; lia.
  - (* previousSlide *)
    unfold Store.previousSlide.
    destruct (Z.ltb_spec 0 (Store.currentSlideIndex s)) as [Hlt | _]; [| exact Hs].
    unfold Store.index_in_bounds, Store.set_currentSlideIndex,
           Store.slides_length in *.
    cbn [Store.slides Store.currentSlideIndex].
    destruct (Store.slides s); cbn [List.length] in *; lia.
  - (* resetSession *)
    apply initial_in_bounds.
Qed.

Lemma run_in_bounds (actions : list (Store.Action Slide File)) :
  forall s : Store.SessionState Slide File,
    Store.index_in_bounds s -> Store.index_in_bounds (Store.run s actions).
Proof.
  induction actions as [| a actions IH]; intros s Hs; simpl.
  - exact Hs.
  - apply IH, dispatch_in_bounds, Hs.
Qed.

End StoreFacts.

(** C10.  After any sequence of store actions from the initial state, the
    current-slide index is 0 when there are no slides and lies between 0
    and [slides.length - 1] otherwise; [setCurrentSlide] stores its
    argument clamped to that range, whatever the argument. *)
Theorem store_index_in_bounds :
  forall (Slide File : Type) (actions : list (Store.Action Slide File)),
    let s := Store.run Store.createInitialState actions in
    (Store.slides s = [] -> Store.currentSlideIndex s = 0)
    /\ (Store.slides s <> [] ->
        0 <= Store.currentSlideIndex s <= Store.slides_length s - 1)
    /\ (forall index,
          Store.currentSlideIndex (Store.setCurrentSlide index s)
          = if Store.slides_length s =? 0 then 0
            else Z.max 0 (Z.min index (Store.slides_length s - 1))).
Proof.
  intros Slide File actions s.
  pose proof (run_in_bounds Slide File actions Store.createInitialState
                (initial_in_bounds Slide File)) as Hb.
  fold s in Hb. unfold Store.index_in_bounds in Hb.
  split; [| split].
  - intros E. rewrite E in Hb. exact Hb.
  - intros Hne. destruct (Store.slides s); [contradiction | exact Hb].
  - intros index. unfold Store.setCurrentSlide.
    destruct (Store.slides_length s =? 0); reflexivity.
Qed.

(** Three slides, a jump far past the end and one step further; the same
    followed by a reset and a step back. *)
Lemma store_index_in_bounds_witness :
  (let s := Store.run (Store.createInitialState : Store.SessionState nat unit)
              [Store.SetSlides [1%nat; 2%nat; 3%nat]; Store.SetCurrentSlide 99;
               Store.NextSlide] in
   0 <= Store.currentSlideIndex s <= Store.slides_length s - 1)
  /\ Store.currentSlideIndex
       (Store.run (Store.createInitialState : Store.SessionState nat unit)
          [Store.SetSlides [1%nat; 2%nat; 3%nat]; Store.SetCurrentSlide 99;
           Store.ResetSession; Store.PreviousSlide]) = 0.
Proof.
  split.
  - destruct (store_index_in_bounds nat unit
                [Store.SetSlides [1%nat; 2%nat; 3%nat]; Store.SetCurrentSlide 99;
                 Store.NextSlide]) as (_ & Hin & _).
    apply Hin. simpl. discriminate.
  - destruct (store_index_in_bounds nat unit
                [Store.SetSlides [1%nat; 2%nat; 3%nat]; Store.SetCurrentSlide 99;
                 Store.ResetSession; Store.PreviousSlide]) as (Hempty & _).
    apply Hempty. reflexivity.
Defined.

(* ================================================================= *)
(** ** The slide transition tracker *)

Section TrackerFacts.

Import Tracker.

Lemma initial_inv (index : Z) : tracker_inv (initial index).
Proof. split; simpl; intros; discriminate. Qed.

Lemma step_inv (s : State) (i : Input) : tracker_inv s -> tracker_inv (step s i).
Proof.
  intros [Href Hdeps]. destruct i as [index now | now | |]; simpl.
  - (* render *)
    unfold render, deps_eqb.
    destruct (effectDeps s) as [[i t] |] eqn:Edeps.
    + destruct (Z.eqb_spec i index) as [-> | Hne]; simpl.
      * destruct (Bool.eqb t (isTracking s)) eqn:Et.
        -- pose proof (Hdeps _ _ eq_refl) as Hcur.
           split; simpl.
           ++ intros Ht. rewrite (Href Ht). now rewrite Hcur.
           ++ intros i' t' E. injection E as <- <-. reflexivity.
        -- unfold effect; simpl.
           destruct (isTracking s); simpl; split; simpl; intros; try congruence.
      * unfold effect; simpl.
        destruct (isTracking s); simpl; split; simpl; intros; try congruence.
    + unfold effect; simpl.
      destruct (isTracking s); simpl; split; simpl; intros; try congruence.
  - split; simpl; auto.
  - split; simpl; [discriminate | auto].
  - split; simpl; [discriminate | auto].
Qed.

Lemma run_inv (inputs : list Input) :
  forall s, tracker_inv s -> tracker_inv (run s inputs).
Proof.
  induction inputs as [| i inputs IH]; intros s Hs; simpl.
  - exact Hs.
  - apply IH, step_inv, Hs.
Qed.

(** A render in a state that satisfies the invariant. *)
Lemma render_transitions (index now : Z) (s : State) :
  tracker_inv s ->
  transitions (render index now s)
  = if isTracking s && negb (index =? currentSlideIndex s)
    then transitions s ++ [ {| slideIndex := index; timestamp := now |} ]
    else transitions s.
Proof.
  intros [Href Hdeps]. unfold render, deps_eqb.
  destruct (effectDeps s) as [[i t] |] eqn:Edeps.
  - pose proof (Hdeps _ _ eq_refl) as ->.
    destruct (Z.eqb_spec (currentSlideIndex s) index) as [E | Hne]; simpl.
    + subst index. rewrite Z.eqb_refl, andb_false_r.
      destruct (Bool.eqb t (isTracking s)); [reflexivity |].
      unfold effect; simpl.
      destruct (isTracking s) eqn:Et; simpl; [| reflexivity].
      rewrite (Href eq_refl), Z.eqb_refl. reflexivity.
    + unfold effect; simpl.
      destruct (isTracking s) eqn:Et; simpl; [| reflexivity].
      rewrite (Href eq_refl).
      destruct (Z.eqb_spec (currentSlideIndex s) index); [contradiction |].
      destruct (Z.eqb_spec index (currentSlideIndex s)); [congruence |].
      reflexivity.
  - unfold effect; simpl.
    destruct (isTracking s) eqn:Et; simpl; [| reflexivity].
    rewrite (Href eq_refl).
    rewrite (Z.eqb_sym index).
    destruct (currentSlideIndex s =? index); reflexivity.
Qed.

End TrackerFacts.

(** C7.  In every state the tracker can reach, a render that observes the
    slide index [index] at time [now] appends exactly the record
    [{slideIndex: index, timestamp: now}] when tracking is armed and
    [index] differs from the index observed before, and leaves the
    transitions as they are when the index is unchanged or tracking is
    disarmed. *)
Theorem tracker_records_each_change_once :
  forall (index0 : Z) (inputs : list Tracker.Input) (index now : Z),
    let s := Tracker.run (Tracker.initial index0) inputs in
    Tracker.transitions (Tracker.render index now s)
    = if Tracker.isTracking s && negb (index =? Tracker.currentSlideIndex s)
      then Tracker.transitions s ++ [Tracker.mkTransition index now]
      else Tracker.transitions s.
Proof.
  intros index0 inputs index now s.
  apply render_transitions.
  apply run_inv, initial_inv.
Qed.

(* ================================================================= *)
(** ** The recognition session *)

Section SpeechFacts.

Import Speech.

Lemma string_app_nil_r (a : string) : (a ++ "")%string = a.
Proof. induction a as [| ch a IH]; simpl; [reflexivity | now rewrite IH]. Qed.

Lemma truthy_nonempty (a : string) : JS.truthy a = true <-> a <> EmptyString.
Proof. destruct a; simpl; split; intros; congruence. Qed.

Lemma concat_empty_cons (a : string) (l : list string) :
  String.concat "" (a :: l) = (a ++ String.concat "" l)%string.
Proof.
  destruct l as [| b l]; simpl.
  - now rewrite string_app_nil_r.
  - reflexivity.
Qed.

(** The loop of [onresult] appends the final texts to its first
    accumulator and the interim texts to its second. *)
Lemma collect_loop (l : list SpeechRecognitionResult) :
  forall f i,
    fold_left collect l (f, i)
    = ((f ++ String.concat "" (map transcript0 (filter isFinal l)))%string,
       (i ++ String.concat ""
               (map transcript0 (filter (fun r => negb (isFinal r)) l)))%string).
Proof.
  induction l as [| r l IH]; intros f i.
  - simpl. now rewrite !string_app_nil_r.
  - cbn [fold_left collect filter].
    destruct (isFinal r); cbn [negb map]; rewrite IH, concat_empty_cons;
      now rewrite string_app_assoc.
Qed.

Lemma batch_texts_split (event : SpeechRecognitionEvent) :
  batch_texts event = (final_text event, interim_text event).
Proof. unfold batch_texts. now rewrite collect_loop. Qed.

(** Every input keeps the recognizer. *)
Lemma step_has_recognizer (s : Session) (i : Input) :
  has_recognizer s -> has_recognizer (step s i).
Proof.
  intros [Hsup Hrec]. unfold has_recognizer.
  destruct (recognitionRef s) as [r |] eqn:Er; [| contradiction].
  assert (Hclose : forall s' : Session,
             isSupported s' = isSupported s ->
             (exists r', recognitionRef s' = Some r') ->
             isSupported s' = true /\ recognitionRef s' <> None).
  { intros s' E1 [r' E2]. rewrite E1, E2. split; [assumption | discriminate]. }
  destruct i; cbn [step].
  - unfold start. rewrite Er, Hsup. cbn [negb]. apply Hclose; simpl; eauto.
  - unfold stop. rewrite Er. apply Hclose; simpl; eauto.
  - apply Hclose; simpl; eauto.
  - unfold onstart. rewrite Er. apply Hclose; simpl; eauto.
  - unfold onresult. rewrite Er.
    destruct (batch_texts event) as [f it].
    destruct (JS.truthy f); apply Hclose; simpl; eauto.
  - unfold onerror. rewrite Er. apply Hclose; simpl; eauto.
  - unfold onend. rewrite Er. apply Hclose; simpl; [reflexivity |].
    destruct (shouldRestartRef s && negb (isStoppingRef s)); eauto.
Qed.

Lemma run_has_recognizer (inputs : list Input) :
  forall s, has_recognizer s -> has_recognizer (run s inputs).
Proof.
  induction inputs as [| i inputs IH]; intros s Hs; simpl.
  - exact Hs.
  - apply IH, step_has_recognizer, Hs.
Qed.

Lemma mount_has_recognizer (callback : bool) (language : string) :
  has_recognizer (mount true callback language).
Proof. split; simpl; [reflexivity | discriminate]. Qed.

(** The two refs read by [onend]. *)
Lemma start_sets_refs (s : Session) :
  has_recognizer s ->
  shouldRestartRef (start s) = true /\ isStoppingRef (start s) = false.
Proof.
  intros [Hsup Hrec]. unfold start.
  destruct (recognitionRef s); [| contradiction].
  rewrite Hsup. simpl. auto.
Qed.

Lemma step_keeps_refs (s : Session) (i : Input) :
  is_stop i || is_error i = false ->
  shouldRestartRef s = true /\ isStoppingRef s = false ->
  shouldRestartRef (step s i) = true /\ isStoppingRef (step s i) = false.
Proof.
  intros Hi [Hre Hst].
  destruct i; simpl in Hi; try discriminate; simpl.
  - unfold start. destruct (recognitionRef s); [| auto].
    destruct (negb (isSupported s)); simpl; auto.
  - auto.
  - unfold onstart. destruct (recognitionRef s); simpl; auto.
  - unfold onresult. destruct (recognitionRef s); [| auto].
    destruct (batch_texts event) as [f it].
    destruct (JS.truthy f); simpl; auto.
  - unfold onend. destruct (recognitionRef s); simpl; auto.
Qed.

Lemma run_keeps_refs (inputs : list Input) :
  forall s,
    forallb (fun i => negb (is_stop i || is_error i)) inputs = true ->
    shouldRestartRef s = true /\ isStoppingRef s = false ->
    shouldRestartRef (run s inputs) = true /\ isStoppingRef (run s inputs) = false.
Proof.
  induction inputs as [| i inputs IH]; intros s Hall Hs; simpl in *.
  - exact Hs.
  - apply andb_prop in Hall as [Hi Hall].
    apply IH; [exact Hall |].
    apply step_keeps_refs; [| exact Hs].
    now apply negb_true_iff.
Qed.

Lemma step_keeps_no_restart (s : Session) (i : Input) :
  is_start i = false ->
  shouldRestartRef s = false ->
  shouldRestartRef (step s i) = false.
Proof.
  intros Hi Hre.
  destruct i; simpl in Hi; try discriminate; simpl.
  - unfold stop. destruct (recognitionRef s); simpl; auto.
  - auto.
  - unfold onstart. destruct (recognitionRef s); simpl; auto.
  - unfold onresult. destruct (recognitionRef s); [| auto].
    destruct (batch_texts event) as [f it].
    destruct (JS.truthy f); simpl; auto.
  - unfold onerror. destruct (recognitionRef s); simpl; auto.
  - unfold onend. destruct (recognitionRef s); simpl; auto.
Qed.

Lemma run_keeps_no_restart (inputs : list Input) :
  forall s,
    forallb (fun i => negb (is_start i)) inputs = true ->
    shouldRestartRef s = false ->
    shouldRestartRef (run s inputs) = false.
Proof.
  induction inputs as [| i inputs IH]; intros s Hall Hs; simpl in *.
  - exact Hs.
  - apply andb_prop in Hall as [Hi Hall].
    apply IH; [exact Hall |].
    apply step_keeps_no_restart; [| exact Hs].
    now apply negb_true_iff.
Qed.

(** [onend] with the restart ref set and no deliberate stop under way. *)
Lemma onend_restart (s : Session) :
  recognitionRef s <> None ->
  shouldRestartRef s = true -> isStoppingRef s = false ->
  recognizer_calls (onend s) = recognizer_calls s ++ [CallStart].
Proof.
  intros Hrec Hre Hst. unfold onend, recognizer_calls.
  destruct (recognitionRef s); [| contradiction].
  rewrite Hre, Hst. reflexivity.
Qed.

(** [onend] with the restart ref cleared, or without a recognizer. *)
Lemma onend_no_restart (s : Session) :
  recognitionRef s = None \/ shouldRestartRef s = false ->
  recognizer_calls (onend s) = recognizer_calls s.
Proof.
  intros H. unfold onend, recognizer_calls.
  destruct (recognitionRef s) as [r |] eqn:Er; [| now rewrite Er].
  destruct H as [H | H]; [discriminate |].
  rewrite H. reflexivity.
Qed.

Lemma onerror_clears_restart (code : string) (s : Session) :
  recognitionRef (onerror code s) = None
  \/ shouldRestartRef (onerror code s) = false.
Proof.
  unfold onerror. destruct (recognitionRef s) eqn:Er; simpl; auto.
Qed.

Lemma stop_clears_restart (s : Session) :
  recognitionRef (stop s) = None \/ shouldRestartRef (stop s) = false.
Proof.
  unfold stop. destruct (recognitionRef s) eqn:Er; simpl; auto.
Qed.

Lemma step_keeps_no_recognizer (s : Session) (i : Input) :
  recognitionRef s = None -> recognitionRef (step s i) = None.
Proof.
  intros Er.
  destruct i; simpl;
    unfold start, stop, resetTranscript, onstart, onresult, onerror, onend;
    rewrite Er; auto.
Qed.

Lemma run_keeps_no_recognizer (inputs : list Input) :
  forall s, recognitionRef s = None -> recognitionRef (run s inputs) = None.
Proof.
  induction inputs as [| i inputs IH]; intros s Hs; simpl.
  - exact Hs.
  - apply IH, step_keeps_no_recognizer, Hs.
Qed.

(** Once the restart ref is cleared (or there is no recognizer), it stays
    so until [start ()] is called, and [onend] requests nothing. *)
Lemma onend_after_clear (s : Session) (inputs : list Input) :
  recognitionRef s = None \/ shouldRestartRef s = false ->
  forallb (fun i => negb (is_start i)) inputs = true ->
  recognizer_calls (onend (run s inputs)) = recognizer_calls (run s inputs).
Proof.
  intros Hs Hall. apply onend_no_restart.
  destruct Hs as [Hs | Hs].
  - left. now apply run_keeps_no_recognizer.
  - right. now apply run_keeps_no_restart.
Qed.

End SpeechFacts.

(** C1.  In a session that has a recognizer: when [onend] fires with the
    restart ref set and no deliberate stop under way, the engine sets
    [isListening] to false and makes exactly one call, [start ()], on the
    recognizer; that is the case after the caller's [start ()] followed by
    any inputs other than [stop ()] and an error.  After an error, and
    after [stop ()], the restart ref is false, and as long as [start ()] is
    not called again [onend] makes no call on the recognizer. *)
Theorem onend_restarts_once_unless_error :
  forall s : Speech.Session,
    (Speech.recognitionRef s <> None ->
     Speech.shouldRestartRef s = true ->
     Speech.isStoppingRef s = false ->
     Speech.recognizer_calls (Speech.onend s)
     = Speech.recognizer_calls s ++ [Speech.CallStart]
     /\ Speech.isListening (Speech.onend s) = false)
    /\ (forall after,
          Speech.has_recognizer s ->
          forallb (fun i => negb (Speech.is_stop i || Speech.is_error i)) after
          = true ->
          let s1 := Speech.run (Speech.start s) after in
          Speech.recognizer_calls (Speech.onend s1)
          = Speech.recognizer_calls s1 ++ [Speech.CallStart])
    /\ (forall code,
          Speech.recognitionRef s <> None ->
          Speech.shouldRestartRef (Speech.onerror code s) = false)
    /\ (forall code after,
          forallb (fun i => negb (Speech.is_start i)) after = true ->
          let s1 := Speech.run (Speech.onerror code s) after in
          Speech.recognizer_calls (Speech.onend s1) = Speech.recognizer_calls s1)
    /\ (forall after,
          forallb (fun i => negb (Speech.is_start i)) after = true ->
          let s1 := Speech.run (Speech.stop s) after in
          Speech.recognizer_calls (Speech.onend s1) = Speech.recognizer_calls s1).
Proof.
  intros s. split; [| split; [| split; [| split]]].
  - intros Hrec Hre Hst. split.
    + now apply onend_restart.
    + unfold Speech.onend.
      destruct (Speech.recognitionRef s); [reflexivity | contradiction].
  - intros after Hs Hall s1.
    assert (Hs1 : Speech.has_recognizer s1).
    { apply run_has_recognizer. apply (step_has_recognizer s Speech.Start Hs). }
    destruct (run_keeps_refs after (Speech.start s) Hall (start_sets_refs s Hs))
      as [Hre Hst].
    apply onend_restart; [apply Hs1 | exact Hre | exact Hst].
  - intros code Hrec. unfold Speech.onerror.
    destruct (Speech.recognitionRef s); [reflexivity | contradiction].
  - intros code after Hall s1.
    apply onend_after_clear; [apply onerror_clears_restart | exact Hall].
  - intros after Hall s1.
    apply onend_after_clear; [apply stop_clears_restart | exact Hall].
Qed.

(** A supported session with a callback: started, running, one result in,
    then ended by the recognizer; the same with an error, and with a
    [stop ()], before the end. *)
Lemma onend_restarts_once_unless_error_witness :
  (let s1 := Speech.run (Speech.start (Speech.mount true true "en-US"))
               [Speech.OnStart;
                Speech.OnResult
                  (Speech.mkEvent 0 [Speech.mkResult true "Hello"])] in
   Speech.recognizer_calls s1 = [Speech.CallStart]
   /\ Speech.recognizer_calls (Speech.onend s1)
      = [Speech.CallStart; Speech.CallStart])
  /\ (let s2 := Speech.run
                  (Speech.onerror "no-speech"
                     (Speech.start (Speech.mount true true "en-US")))
                  [Speech.ResetTranscript] in
      Speech.recognizer_calls (Speech.onend s2) = [Speech.CallStart])
  /\ (let s3 := Speech.run
                  (Speech.stop (Speech.start (Speech.mount true true "en-US")))
                  [Speech.OnEnd] in
      Speech.recognizer_calls (Speech.onend s3)
      = [Speech.CallStart; Speech.CallStop]).
Proof.
  split; [| split].
  - destruct (onend_restarts_once_unless_error (Speech.mount true true "en-US"))
      as (_ & Hrestart & _).
    split; [reflexivity |].
    apply (Hrestart [Speech.OnStart;
                     Speech.OnResult
                       (Speech.mkEvent 0 [Speech.mkResult true "Hello"])]).
    + split; simpl; [reflexivity | discriminate].
    + reflexivity.
  - destruct (onend_restarts_once_unless_error
                (Speech.start (Speech.mount true true "en-US")))
      as (_ & _ & _ & Herror & _).
    apply (Herror "no-speech"%string [Speech.ResetTranscript]). reflexivity.
  - destruct (onend_restarts_once_unless_error
                (Speech.start (Speech.mount true true "en-US")))
      as (_ & _ & _ & _ & Hstop).
    apply (Hstop [Speech.OnEnd]). reflexivity.
Defined.

(** C8.  [resetTranscript] empties the transcript and the interim
    transcript and clears the error; it leaves [isListening], the
    recognizer and the calls made on it, the restart and stopping refs, the
    support flag and the callback as they are, so the next [onend] requests
    what it would have requested without the reset. *)
Theorem resetTranscript_frame :
  forall s : Speech.Session,
    let s' := Speech.resetTranscript s in
    Speech.transcript s' = EmptyString
    /\ Speech.interimTranscript s' = EmptyString
    /\ Speech.error s' = None
    /\ Speech.isListening s' = Speech.isListening s
    /\ Speech.shouldRestartRef s' = Speech.shouldRestartRef s
    /\ Speech.isStoppingRef s' = Speech.isStoppingRef s
    /\ Speech.recognitionRef s' = Speech.recognitionRef s
    /\ Speech.isSupported s' = Speech.isSupported s
    /\ Speech.onResult s' = Speech.onResult s
    /\ Speech.recognizer_calls (Speech.onend s')
       = Speech.recognizer_calls (Speech.onend s).
Proof.
  intros s s'. subst s'.
  repeat (split; [reflexivity |]).
  unfold Speech.recognizer_calls, Speech.onend, Speech.resetTranscript.
  cbn [Speech.recognitionRef Speech.shouldRestartRef Speech.isStoppingRef].
  destruct (Speech.recognitionRef s) as [r |] eqn:Er; cbn [Speech.recognitionRef].
  - reflexivity.
  - now rewrite Er.
Qed.

(** C2, as the code has it.  With [final_text] and [interim_text] the
    concatenated texts of the final and of the interim results of the
    batch: when the final text is not empty it is appended to the
    transcript, the interim transcript is emptied and the callback is
    invoked with the final text and [true]; when the final text is empty
    the interim transcript is replaced by the interim text and the callback
    is invoked with the interim text and [false], also when the interim
    text is empty.  Nothing else of the session changes. *)
Theorem onresult_final_else_interim :
  forall (event : Speech.SpeechRecognitionEvent) (s : Speech.Session),
    Speech.recognitionRef s <> None ->
    let s' := Speech.onresult event s in
    (Speech.final_text event <> EmptyString ->
     Speech.transcript s'
     = (Speech.transcript s ++ Speech.final_text event)%string
     /\ Speech.interimTranscript s' = EmptyString
     /\ (forall log, Speech.onResult s = Some log ->
           Speech.onResult s' = Some (log ++ [(Speech.final_text event, true)])))
    /\ (Speech.final_text event = EmptyString ->
        Speech.transcript s' = Speech.transcript s
        /\ Speech.interimTranscript s' = Speech.interim_text event
        /\ (forall log, Speech.onResult s = Some log ->
              Speech.onResult s'
              = Some (log ++ [(Speech.interim_text event, false)])))
    /\ (Speech.onResult s = None -> Speech.onResult s' = None)
    /\ Speech.isListening s' = Speech.isListening s
    /\ Speech.error s' = Speech.error s
    /\ Speech.shouldRestartRef s' = Speech.shouldRestartRef s
    /\ Speech.isStoppingRef s' = Speech.isStoppingRef s
    /\ Speech.recognitionRef s' = Speech.recognitionRef s
    /\ Speech.isSupported s' = Speech.isSupported s.
Proof.
  intros event s Hrec s'. subst s'. unfold Speech.onresult.
  destruct (Speech.recognitionRef s) as [r |] eqn:Er; [| contradiction].
  rewrite batch_texts_split.
  destruct (JS.truthy (Speech.final_text event)) eqn:Et.
  - apply truthy_nonempty in Et.
    repeat split; simpl; try congruence.
    + intros log ->. reflexivity.
    + intros ->. reflexivity.
  - assert (Hempty : Speech.final_text event = EmptyString)
      by (destruct (Speech.final_text event); [reflexivity | discriminate]).
    repeat split; simpl; try congruence.
    + intros log ->. reflexivity.
    + intros ->. reflexivity.
Qed.

(** A final result after an interim one, and an interim result alone. *)
Lemma onresult_final_else_interim_witness :
  (let s := Speech.run (Speech.mount true true "en-US")
              [Speech.Start; Speech.OnStart;
               Speech.OnResult
                 (Speech.mkEvent 0 [Speech.mkResult false "Hello wor"])] in
   let s' := Speech.onresult
               (Speech.mkEvent 0 [Speech.mkResult true "Hello world"]) s in
   Speech.transcript s' = "Hello world"%string
   /\ Speech.interimTranscript s' = EmptyString
   /\ Speech.onResult s'
      = Some [("Hello wor"%string, false); ("Hello world"%string, true)])
  /\ (let s := Speech.start (Speech.mount true true "en-US") in
      let s' := Speech.onresult
                  (Speech.mkEvent 1 [Speech.mkResult true "Hello";
                                     Speech.mkResult false "wor"]) s in
      Speech.transcript s' = EmptyString
      /\ Speech.interimTranscript s' = "wor"%string
      /\ Speech.onResult s' = Some [("wor"%string, false)]).
Proof.
  split.
  - intros s s'.
    destruct (onresult_final_else_interim
                (Speech.mkEvent 0 [Speech.mkResult true "Hello world"]) s)
      as (Hfinal & _).
    + simpl. discriminate.
    + destruct Hfinal as (Ht & Hi & Hcb).
      * simpl. discriminate.
      * split; [exact Ht | split; [exact Hi |]].
        apply (Hcb [("Hello wor"%string, false)]). reflexivity.
  - intros s s'.
    destruct (onresult_final_else_interim
                (Speech.mkEvent 1 [Speech.mkResult true "Hello";
                                   Speech.mkResult false "wor"]) s)
      as (_ & Hinterim & _).
    + simpl. discriminate.
    + destruct Hinterim as (Ht & Hi & Hcb).
      * reflexivity.
      * split; [exact Ht | split; [exact Hi |]].
        apply (Hcb []). reflexivity.
Defined.

(** C2 as the specification words it fails on a batch with neither final
    nor interim text: the interim transcript "Hello wor" is replaced by the
    empty string and the callback is invoked with the empty string and
    [false]. *)
Lemma onresult_empty_batch_not_noop :
  let s := Speech.run (Speech.mount true true "en-US")
             [Speech.Start; Speech.OnStart;
              Speech.OnResult
                (Speech.mkEvent 0 [Speech.mkResult false "Hello wor"])] in
  let event := Speech.mkEvent 0 [Speech.mkResult false ""] in
  Speech.final_text event = EmptyString
  /\ Speech.interim_text event = EmptyString
  /\ Speech.interimTranscript s = "Hello wor"%string
  /\ Speech.interimTranscript (Speech.onresult event s) = EmptyString
  /\ Speech.onresult event s <> s
  /\ Speech.callback_calls (Speech.onresult event s)
     = Speech.callback_calls s ++ [(EmptyString, false)].
Proof.
  cbv zeta. repeat split. discriminate.
Qed.

(* ================================================================= *)
(** * Further properties *)

(* ================================================================= *)
(** ** The models on more inputs of the repository's tests *)

Example sanitizeFilename_path_traversal :
  Pdf.sanitizeFilename (Pdf.literal "../../../etc/passwd") = Pdf.literal "etcpasswd"
  /\ Pdf.sanitizeFilename (Pdf.literal "..\..\windows\system32")
     = Pdf.literal "windowssystem32".
Proof. split; reflexivity. Qed.

Example sanitizeFilename_dots_spaces_underscores :
  Pdf.sanitizeFilename (Pdf.literal "...hidden.pdf") = Pdf.literal "hidden.pdf"
  /\ Pdf.sanitizeFilename (Pdf.literal "  spaced.pdf  ") = Pdf.literal "spaced.pdf"
  /\ Pdf.sanitizeFilename (Pdf.literal "my   presentation.pdf")
     = Pdf.literal "my_presentation.pdf"
  /\ Pdf.sanitizeFilename (Pdf.literal "my___file.pdf") = Pdf.literal "my_file.pdf"
  /\ Pdf.sanitizeFilename (Pdf.literal "...") = Pdf.literal "unnamed"
  /\ Pdf.sanitizeFilename [] = Pdf.literal "unnamed".
Proof. repeat split; reflexivity. Qed.

Example sanitizeFilename_control_and_unicode :
  Pdf.sanitizeFilename ([102; 105; 0; 108; 31; 101] ++ Pdf.literal ".pdf")%N
  = Pdf.literal "file.pdf"
  /\ Pdf.sanitizeFilename ([12503; 12524; 12476; 12531] ++ Pdf.literal ".pdf")%N
     = ([12503; 12524; 12476; 12531] ++ Pdf.literal ".pdf")%N.
Proof. split; reflexivity. Qed.

Example validatePDF_checks_in_order :
  Pdf.validatePDF (Pdf.mkFile 0 "text/plain" None)
  = Pdf.mkValidation false (Some "File is empty."%string)
  /\ Pdf.validatePDF (Pdf.mkFile 9 "application/pdf"
                        (Some [37; 80; 68; 70; 45; 49; 46; 52; 10]%N))
     = Pdf.mkValidation true None
  /\ Pdf.validatePDF (Pdf.mkFile 3 "application/pdf" (Some [37; 80; 68]%N))
     = Pdf.mkValidation false (Some "File does not appear to be a valid PDF."%string).
Proof. repeat split; reflexivity. Qed.

(* ================================================================= *)
(** ** Lists *)

Section ListFacts.

Context {A : Type}.

Lemma filter_all (p : A -> bool) (l : list A) :
  forallb p l = true -> filter p l = l.
Proof.
  induction l as [| x l IH]; simpl; intros H.
  - reflexivity.
  - apply andb_prop in H as [Hx Hl]. rewrite Hx, IH by exact Hl. reflexivity.
Qed.

Lemma filter_twice (p q : A -> bool) (l : list A) :
  filter q (filter p l) = filter (fun x => p x && q x) l.
Proof.
  induction l as [| x l IH]; simpl.
  - reflexivity.
  - destruct (p x); simpl; [destruct (q x) |]; now rewrite IH.
Qed.

Lemma filter_length_le (p : A -> bool) (l : list A) :
  (List.length (filter p l) <= List.length l)%nat.
Proof.
  induction l as [| x l IH]; simpl; [lia |].
  destruct (p x); simpl; lia.
Qed.

End ListFacts.

(* ================================================================= *)
(** ** The rolling buffer and the segments of a slide *)

Section RollingFacts.

Import Transcript.

Lemma chronological_tail (a : TranscriptSegment) (rest : list TranscriptSegment) :
  chronological (a :: rest) = true -> chronological rest = true.
Proof.
  destruct rest as [| b rest]; [reflexivity |].
  cbn [chronological]. intros H. apply andb_prop in H as [_ H]. exact H.
Qed.

Lemma chronological_lower (rest : list TranscriptSegment) :
  forall a, chronological (a :: rest) = true ->
            forall s, In s rest -> timestamp a <= timestamp s.
Proof.
  induction rest as [| b rest IH]; intros a Hc s Hin; [destruct Hin |].
  cbn [chronological] in Hc. apply andb_prop in Hc as [Hab Hc].
  apply Z.leb_le in Hab.
  destruct Hin as [<- | Hin]; [exact Hab |].
  specialize (IH b Hc s Hin). lia.
Qed.

(** On segments in chronological order, keeping the segments from a cutoff
    time on keeps a suffix. *)
Lemma cutoff_suffix (cutoff : Z) (segments : list TranscriptSegment) :
  chronological segments = true ->
  exists k,
    filter (fun s => cutoff <=? timestamp s) segments = skipn k segments
    /\ (forall s, In s (firstn k segments) -> timestamp s < cutoff).
Proof.
  induction segments as [| a rest IH]; intros Hc.
  - exists 0%nat. split; [reflexivity | intros s []].
  - destruct (Z.leb_spec cutoff (timestamp a)) as [Hle | Hlt].
    + exists 0%nat. split; [| intros s []].
      cbn [skipn]. apply filter_all. cbn [forallb].
      apply andb_true_intro. split; [now apply Z.leb_le |].
      apply forallb_forall. intros s Hin. apply Z.leb_le.
      pose proof (chronological_lower rest a Hc s Hin). lia.
    + destruct (IH (chronological_tail a rest Hc)) as (k & Hk & Hbefore).
      exists (S k). cbn [filter skipn firstn].
      destruct (Z.leb_spec cutoff (timestamp a)) as [? | _]; [lia |].
      split; [exact Hk |].
      intros s [<- | Hin]; [exact Hlt | now apply Hbefore].
Qed.

(** The output of a walk is a segment per run: its timestamps and its
    slide numbers are among those of the input. *)
Lemma walk_members (thresholdMs : Z) (rest : list TranscriptSegment) :
  forall acc s,
    In s (mergeAdjacent_from thresholdMs acc rest) ->
    exists s0, In s0 (acc :: rest)
               /\ timestamp s = timestamp s0
               /\ slideNumber s = slideNumber s0.
Proof.
  induction rest as [| n rest IH]; intros acc s Hin.
  - destruct Hin as [<- | []]. exists acc. simpl. auto.
  - cbn [mergeAdjacent_from] in Hin.
    destruct ((slideNumber n =? slideNumber acc)
              && (timestamp n - timestamp acc <=? thresholdMs)).
    + destruct (IH _ s Hin) as (s0 & [<- | Hs0] & Ht & Hs).
      * exists acc. simpl in *. auto.
      * exists s0. simpl. auto.
    + destruct Hin as [<- | Hin].
      * exists acc. simpl. auto.
      * destruct (IH _ s Hin) as (s0 & Hs0 & Ht & Hs).
        exists s0. simpl in *. tauto.
Qed.

Lemma walk_length (thresholdMs : Z) (rest : list TranscriptSegment) :
  forall acc,
    (1 <= List.length (mergeAdjacent_from thresholdMs acc rest)
     <= S (List.length rest))%nat.
Proof.
  induction rest as [| n rest IH]; intros acc; cbn [mergeAdjacent_from].
  - simpl. lia.
  - destruct ((slideNumber n =? slideNumber acc)
              && (timestamp n - timestamp acc <=? thresholdMs)).
    + specialize (IH {| text := (text acc ++ " " ++ text n)%string;
                        timestamp := timestamp acc;
                        slideNumber := slideNumber acc |}).
      cbn [List.length]. lia.
    + specialize (IH n). cbn [List.length]. lia.
Qed.

(** A walk has a segment of slide [k] exactly when its input has one. *)
Lemma walk_slide_present (thresholdMs k : Z) (rest : list TranscriptSegment) :
  forall acc,
    getSegmentsForSlide (mergeAdjacent_from thresholdMs acc rest) k = []
    <-> getSegmentsForSlide (acc :: rest) k = [].
Proof.
  unfold getSegmentsForSlide.
  induction rest as [| n rest IH]; intros acc.
  - reflexivity.
  - cbn [mergeAdjacent_from].
    destruct ((slideNumber n =? slideNumber acc)
              && (timestamp n - timestamp acc <=? thresholdMs)) eqn:Etest.
    + rewrite IH. cbn [filter slideNumber].
      apply andb_prop in Etest as [Eslide _]. apply Z.eqb_eq in Eslide.
      rewrite Eslide.
      destruct (slideNumber acc =? k); [split; discriminate | reflexivity].
    + specialize (IH n). cbn [filter] in *.
      destruct (slideNumber acc =? k); [split; discriminate | exact IH].
Qed.

(** A walk keeps the spoken text of every slide. *)
Lemma walk_slide_text (thresholdMs k : Z) (rest : list TranscriptSegment) :
  forall acc,
    spoken_text (getSegmentsForSlide (mergeAdjacent_from thresholdMs acc rest) k)
    = spoken_text (getSegmentsForSlide (acc :: rest) k).
Proof.
  induction rest as [| n rest IH]; intros acc.
  - reflexivity.
  - cbn [mergeAdjacent_from].
    destruct ((slideNumber n =? slideNumber acc)
              && (timestamp n - timestamp acc <=? thresholdMs)) eqn:Etest.
    + rewrite IH. unfold getSegmentsForSlide. cbn [filter slideNumber].
      apply andb_prop in Etest as [Eslide _]. apply Z.eqb_eq in Eslide.
      rewrite Eslide.
      destruct (slideNumber acc =? k); [| reflexivity].
      unfold spoken_text. cbn [map text].
      exact (join_glue " " (text acc) (text n) _).
    + pose proof (walk_slide_present thresholdMs k rest n) as Hpresent.
      specialize (IH n).
      unfold getSegmentsForSlide in *. cbn [filter] in *.
      destruct (slideNumber acc =? k); [| exact IH].
      unfold spoken_text in *. cbn [map].
      destruct (filter (fun segment => slideNumber segment =? k)
                  (mergeAdjacent_from thresholdMs n rest)) as [| h tl] eqn:Eout.
      * rewrite (proj1 Hpresent eq_refl). reflexivity.
      * destruct (if slideNumber n =? k
                  then n :: filter (fun segment => slideNumber segment =? k) rest
                  else filter (fun segment => slideNumber segment =? k) rest)
          as [| h' tl'] eqn:Ein.
        -- destruct Hpresent as [_ Hback]. discriminate (Hback eq_refl).
        -- cbn [map] in *. rewrite !join_cons_nonempty. now rewrite IH.
Qed.

End RollingFacts.

(** X1.  On segments in chronological order the rolling buffer is a suffix
    of its input: the segments dropped all precede the cutoff
    [now - windowMs] and form a prefix, the segments kept are all at or
    after the cutoff. *)
Theorem getRollingBuffer_suffix :
  forall (now : Z) (segments : list Transcript.TranscriptSegment)
         (windowMs : option Z),
    Transcript.chronological segments = true ->
    exists k,
      Transcript.getRollingBuffer now segments windowMs = skipn k segments
      /\ (forall s, In s (firstn k segments) ->
            Transcript.timestamp s
            < now - match windowMs with
                    | Some w => w
                    | None => Transcript.DEFAULT_ROLLING_BUFFER_MS
                    end)
      /\ (forall s, In s (skipn k segments) ->
            now - match windowMs with
                  | Some w => w
                  | None => Transcript.DEFAULT_ROLLING_BUFFER_MS
                  end
            <= Transcript.timestamp s).
Proof.
  intros now segments windowMs Hc.
  unfold Transcript.getRollingBuffer.
  set (cutoff := now - match windowMs with
                       | Some w => w
                       | None => Transcript.DEFAULT_ROLLING_BUFFER_MS
                       end).
  destruct (cutoff_suffix cutoff segments Hc) as (k & Hk & Hbefore).
  exists k. split; [exact Hk |]. split; [exact Hbefore |].
  intros s Hin. rewrite <- Hk in Hin.
  apply filter_In in Hin as [_ Hs]. now apply Z.leb_le.
Qed.

(** Four segments, one every 30 seconds, seen 10 seconds after the last
    with the default window: the first is dropped. *)
Lemma getRollingBuffer_suffix_witness :
  exists k,
    Transcript.getRollingBuffer 100000
      [Transcript.mkSegment "a" 0 1; Transcript.mkSegment "b" 30000 1;
       Transcript.mkSegment "c" 60000 2; Transcript.mkSegment "d" 90000 2] None
    = skipn k
        [Transcript.mkSegment "a" 0 1; Transcript.mkSegment "b" 30000 1;
         Transcript.mkSegment "c" 60000 2; Transcript.mkSegment "d" 90000 2].
Proof.
  destruct (getRollingBuffer_suffix 100000
              [Transcript.mkSegment "a" 0 1; Transcript.mkSegment "b" 30000 1;
               Transcript.mkSegment "c" 60000 2; Transcript.mkSegment "d" 90000 2]
              None eq_refl) as (k & Hk & _).
  exists k. exact Hk.
Defined.

(** X2.  Taking the rolling buffer of a rolling buffer at the same time
    gives the rolling buffer of the smaller window, and the store's
    [getRecentTranscript] is the rolling buffer of its full transcript. *)
Theorem getRollingBuffer_nested :
  forall (now w1 w2 : Z) (segments : list Transcript.TranscriptSegment),
    Transcript.getRollingBuffer now
      (Transcript.getRollingBuffer now segments (Some w1)) (Some w2)
    = Transcript.getRollingBuffer now segments (Some (Z.min w1 w2))
    /\ (forall (Slide File : Type) (s : Store.SessionState Slide File),
          Store.getRecentTranscript now w1 s
          = Transcript.getRollingBuffer now (Store.getFullTranscript s) (Some w1)).
Proof.
  intros now w1 w2 segments. split; [| reflexivity].
  unfold Transcript.getRollingBuffer. rewrite filter_twice.
  apply filter_ext. intros s.
  destruct (Z.leb_spec (now - w1) (Transcript.timestamp s));
    destruct (Z.leb_spec (now - w2) (Transcript.timestamp s));
    destruct (Z.leb_spec (now - Z.min w1 w2) (Transcript.timestamp s));
    simpl; try reflexivity; lia.
Qed.

(** X3.  Merging keeps the spoken text of every slide: the texts of the
    merged segments of a slide, joined by one space, are the texts of the
    input segments of that slide, joined by one space. *)
Theorem mergeConsecutiveSegments_keeps_slide_text :
  forall (segments : list Transcript.TranscriptSegment) (thresholdMs k : Z),
    Transcript.spoken_text
      (Transcript.getSegmentsForSlide
         (Transcript.mergeConsecutiveSegments segments thresholdMs) k)
    = Transcript.spoken_text (Transcript.getSegmentsForSlide segments k).
Proof.
  intros segments thresholdMs k.
  rewrite merge_refines_spec.
  destruct segments as [| first rest]; [reflexivity |].
  apply walk_slide_text.
Qed.

Section MergeDurationFacts.

Import Transcript.

Lemma duration_nonneg (segments : list TranscriptSegment) :
  0 <= calculateSpeakingDuration segments.
Proof.
  destruct (Nat.leb_spec (List.length segments) 1) as [Hle | Hgt].
  - unfold calculateSpeakingDuration.
    destruct (Nat.leb_spec (List.length segments) 1); [lia | lia].
  - destruct (duration_is_range segments) as (lo & hi & Hlo & _ & Hb & ->);
      [lia |].
    specialize (Hb lo Hlo). lia.
Qed.

Lemma merge_duration_le (segments : list TranscriptSegment) (thresholdMs : Z) :
  calculateSpeakingDuration (mergeConsecutiveSegments segments thresholdMs)
  <= calculateSpeakingDuration segments.
Proof.
  rewrite merge_refines_spec.
  destruct segments as [| first rest]; [simpl; lia |].
  cbn [mergeAdjacent_spec].
  set (out := mergeAdjacent_from thresholdMs first rest).
  pose proof (walk_length thresholdMs rest first) as Hlen. fold out in Hlen.
  destruct (Nat.leb_spec (List.length out) 1) as [Hle | Hgt].
  - replace (calculateSpeakingDuration out) with 0.
    + apply duration_nonneg.
    + unfold calculateSpeakingDuration.
      destruct (Nat.leb_spec (List.length out) 1); [reflexivity | lia].
  - destruct (duration_is_range out) as (lo' & hi' & Hlo' & Hhi' & _ & ->);
      [lia |].
    destruct (duration_is_range (first :: rest)) as (lo & hi & _ & _ & Hb & ->);
      [cbn [List.length] in *; lia |].
    assert (Hsub : forall t, In t (map timestamp out) ->
                             In t (map timestamp (first :: rest))).
    { intros t Ht. apply in_map_iff in Ht as (s & <- & Hs).
      destruct (walk_members thresholdMs rest first s Hs) as (s0 & Hs0 & -> & _).
      now apply in_map. }
    pose proof (Hb lo' (Hsub lo' Hlo')). pose proof (Hb hi' (Hsub hi' Hhi')).
    lia.
Qed.

End MergeDurationFacts.

(** X4.  Merging never invents data and never lengthens the talk: it
    returns at most as many segments as it gets, at least one when it gets
    one; every output segment has the timestamp and the slide number of an
    input segment; and the speaking duration of the output is at most that
    of the input, which is never negative. *)
Theorem mergeConsecutiveSegments_shrinks :
  forall (segments : list Transcript.TranscriptSegment) (thresholdMs : Z),
    (List.length (Transcript.mergeConsecutiveSegments segments thresholdMs)
     <= List.length segments)%nat
    /\ (forall s,
          In s (Transcript.mergeConsecutiveSegments segments thresholdMs) ->
          exists s0, In s0 segments
                     /\ Transcript.timestamp s = Transcript.timestamp s0
                     /\ Transcript.slideNumber s = Transcript.slideNumber s0)
    /\ 0 <= Transcript.calculateSpeakingDuration
              (Transcript.mergeConsecutiveSegments segments thresholdMs)
         <= Transcript.calculateSpeakingDuration segments.
Proof.
  intros segments thresholdMs.
  split; [| split].
  - rewrite merge_refines_spec.
    destruct segments as [| first rest]; [simpl; lia |].
    pose proof (walk_length thresholdMs rest first). simpl in *. lia.
  - rewrite merge_refines_spec.
    destruct segments as [| first rest]; [intros s [] |].
    apply walk_members.
  - split; [apply duration_nonneg | apply merge_duration_le].
Qed.

(* ================================================================= *)
(** ** The store's selectors and the slide viewer *)

Section SelectorFacts.

Variables Slide File : Type.

Lemma slide_at_in_bounds (s : Store.SessionState Slide File) (index : Z) :
  0 <= index <= Store.slides_length s - 1 ->
  exists slide, Store.slide_at index s = Some slide /\ In slide (Store.slides s).
Proof.
  intros Hb. unfold Store.slide_at, Store.slides_length in *.
  destruct (Z.ltb_spec index 0) as [? | _]; [lia |].
  destruct (nth_error (Store.slides s) (Z.to_nat index)) as [slide |] eqn:E.
  - exists slide. split; [reflexivity |]. eapply nth_error_In, E.
  - apply nth_error_None in E. lia.
Qed.

Lemma set_index_same (s : Store.SessionState Slide File) (i j : Z) :
  j = Store.currentSlideIndex s ->
  Store.set_currentSlideIndex Slide File j
    (Store.set_currentSlideIndex Slide File i s) = s.
Proof. intros ->. destruct s. reflexivity. Qed.

Lemma join_snoc (sep x : string) (l : list string) :
  JS.join sep (l ++ [x])
  = match l with
    | [] => x
    | _ :: _ => (JS.join sep l ++ sep ++ x)%string
    end.
Proof.
  induction l as [| a l IH]; [reflexivity |].
  destruct l as [| b l]; [reflexivity |].
  change ((a :: b :: l) ++ [x]) with (a :: ((b :: l) ++ [x])).
  change ((b :: l) ++ [x]) with (b :: (l ++ [x])) at 1.
  rewrite join_cons_nonempty.
  change (b :: l ++ [x]) with ((b :: l) ++ [x]).
  rewrite IH, join_cons_nonempty, !string_app_assoc. reflexivity.
Qed.

End SelectorFacts.

(** X5.  After any sequence of store actions from the initial state,
    [getCurrentSlide] answers [undefined] exactly when no slides are
    loaded; with slides loaded it answers one of them. *)
Theorem getCurrentSlide_defined :
  forall (Slide File : Type) (actions : list (Store.Action Slide File)),
    let s := Store.run Store.createInitialState actions in
    (Store.slides s = [] -> Store.getCurrentSlide s = None)
    /\ (Store.slides s <> [] ->
        exists slide,
          Store.getCurrentSlide s = Some slide /\ In slide (Store.slides s)).
Proof.
  intros Slide File actions s.
  pose proof (run_in_bounds Slide File actions Store.createInitialState
                (initial_in_bounds Slide File)) as Hb.
  fold s in Hb. unfold Store.index_in_bounds in Hb.
  split.
  - intros E. unfold Store.getCurrentSlide, Store.slide_at. rewrite E.
    destruct (Store.currentSlideIndex s <? 0); [reflexivity |].
    now destruct (Z.to_nat (Store.currentSlideIndex s)).
  - intros Hne. unfold Store.getCurrentSlide.
    apply slide_at_in_bounds.
    destruct (Store.slides s); [contradiction | exact Hb].
Qed.

(** Two slides, a jump to the second one; and the store before any upload. *)
Lemma getCurrentSlide_defined_witness :
  (exists slide,
     Store.getCurrentSlide
       (Store.run (Store.createInitialState : Store.SessionState nat unit)
          [Store.SetSlides [10%nat; 20%nat]; Store.SetCurrentSlide 7])
     = Some slide
     /\ In slide [10%nat; 20%nat])
  /\ Store.getCurrentSlide
       (Store.run (Store.createInitialState : Store.SessionState nat unit)
          [Store.NextSlide; Store.SetCurrentSlide 3]) = None.
Proof.
  split.
  - destruct (getCurrentSlide_defined nat unit
                [Store.SetSlides [10%nat; 20%nat]; Store.SetCurrentSlide 7])
      as (_ & Hsome).
    apply Hsome. simpl. discriminate.
  - destruct (getCurrentSlide_defined nat unit
                [Store.NextSlide; Store.SetCurrentSlide 3]) as (Hnone & _).
    apply Hnone. reflexivity.
Defined.

(** X6.  In every state the store can reach with slides loaded, the two
    navigation keys undo each other away from the ends and do nothing at
    the ends, and the viewer's [isLastSlide] and [isFirstSlide] say exactly
    when: on the last slide ArrowRight changes nothing, elsewhere it moves
    one slide forward and ArrowLeft then restores the state; on the first
    slide ArrowLeft changes nothing, elsewhere it moves one slide back and
    ArrowRight then restores the state; every other key changes nothing. *)
Theorem arrow_keys_navigate :
  forall (Slide File : Type) (actions : list (Store.Action Slide File)),
    let s := Store.run Store.createInitialState actions in
    Store.slides s <> [] ->
    (if SlideViewer.isLastSlide s
     then SlideViewer.handleKeyDown "ArrowRight" s = s
     else Store.currentSlideIndex (SlideViewer.handleKeyDown "ArrowRight" s)
          = Store.currentSlideIndex s + 1
          /\ SlideViewer.handleKeyDown "ArrowLeft"
               (SlideViewer.handleKeyDown "ArrowRight" s) = s)
    /\ (if SlideViewer.isFirstSlide s
        then SlideViewer.handleKeyDown "ArrowLeft" s = s
        else Store.currentSlideIndex (SlideViewer.handleKeyDown "ArrowLeft" s)
             = Store.currentSlideIndex s - 1
             /\ SlideViewer.handleKeyDown "ArrowRight"
                  (SlideViewer.handleKeyDown "ArrowLeft" s) = s)
    /\ (forall key,
          key <> "ArrowRight"%string -> key <> "ArrowLeft"%string ->
          SlideViewer.handleKeyDown key s = s).
Proof.
  intros Slide File actions s Hne.
  pose proof (run_in_bounds Slide File actions Store.createInitialState
                (initial_in_bounds Slide File)) as Hb.
  fold s in Hb. unfold Store.index_in_bounds in Hb.
  destruct (Store.slides s) as [| x l] eqn:Eslides; [contradiction |].
  clear Hne.
  unfold SlideViewer.handleKeyDown, SlideViewer.isLastSlide,
         SlideViewer.isFirstSlide, Store.getTotalSlides.
  cbn [String.eqb Ascii.eqb Bool.eqb andb].
  split; [| split].
  - destruct (Z.eqb_spec (Store.currentSlideIndex s) (Store.slides_length s - 1))
      as [Elast | Hnot].
    + unfold Store.nextSlide.
      destruct (Z.ltb_spec (Store.currentSlideIndex s) (Store.slides_length s - 1));
        [lia | reflexivity].
    + unfold Store.nextSlide.
      destruct (Z.ltb_spec (Store.currentSlideIndex s) (Store.slides_length s - 1))
        as [_ | ?]; [| lia].
      split; [reflexivity |].
      unfold Store.previousSlide. cbn [Store.currentSlideIndex
                                       Store.set_currentSlideIndex].
      destruct (Z.ltb_spec 0 (Store.currentSlideIndex s + 1)) as [_ | ?]; [| lia].
      apply set_index_same. lia.
  - destruct (Z.eqb_spec (Store.currentSlideIndex s) 0) as [Efirst | Hnot].
    + unfold Store.previousSlide.
      destruct (Z.ltb_spec 0 (Store.currentSlideIndex s)); [lia | reflexivity].
    + unfold Store.previousSlide.
      destruct (Z.ltb_spec 0 (Store.currentSlideIndex s)) as [_ | ?]; [| lia].
      split; [reflexivity |].
      unfold Store.nextSlide, Store.slides_length.
      cbn [Store.currentSlideIndex Store.set_currentSlideIndex Store.slides].
      fold (Store.slides_length s).
      destruct (Z.ltb_spec (Store.currentSlideIndex s - 1)
                  (Store.slides_length s - 1)) as [_ | ?]; [| lia].
      apply set_index_same. lia.
  - intros key Hr Hl.
    apply String.eqb_neq in Hr, Hl. now rewrite Hr, Hl.
Qed.

(** Three slides, the viewer on the second one. *)
Lemma arrow_keys_navigate_witness :
  let s := Store.run (Store.createInitialState : Store.SessionState nat unit)
             [Store.SetSlides [10%nat; 20%nat; 30%nat]; Store.NextSlide] in
  SlideViewer.handleKeyDown "ArrowLeft" (SlideViewer.handleKeyDown "ArrowRight" s)
  = s
  /\ SlideViewer.handleKeyDown "Enter" s = s.
Proof.
  intros s.
  destruct (arrow_keys_navigate nat unit
              [Store.SetSlides [10%nat; 20%nat; 30%nat]; Store.NextSlide])
    as (Hright & _ & Hother).
  - simpl. discriminate.
  - split.
    + apply Hright.
    + apply Hother; discriminate.
Defined.

(** X7.  Adding a segment to the store extends the transcript text by one
    space and the text of the segment, or makes it that text when the
    transcript was empty; clearing the transcript empties the text; and no
    action other than adding a segment, clearing the transcript and
    resetting the session changes the transcript. *)
Theorem getTranscriptText_grows :
  forall (Slide File : Type) (s : Store.SessionState Slide File)
         (segment : Transcript.TranscriptSegment),
    Store.getTranscriptText (Store.addTranscriptSegment segment s)
    = match Store.transcript s with
      | [] => Transcript.text segment
      | _ :: _ =>
          (Store.getTranscriptText s ++ " " ++ Transcript.text segment)%string
      end
    /\ Store.getTranscriptText (Store.clearTranscript s) = EmptyString
    /\ (forall a,
          Store.is_transcript_action a = false ->
          Store.transcript (Store.dispatch s a) = Store.transcript s).
Proof.
  intros Slide File s segment. split; [| split].
  - unfold Store.getTranscriptText, Store.addTranscriptSegment, Store.set_transcript.
    cbn [Store.transcript]. rewrite map_app. cbn [map].
    rewrite join_snoc. now destruct (Store.transcript s).
  - reflexivity.
  - intros a Ha. destruct a; try discriminate Ha; try reflexivity.
    + unfold Store.dispatch, Store.setCurrentSlide.
      destruct (Store.slides_length s =? 0); reflexivity.
    + unfold Store.dispatch, Store.nextSlide.
      destruct (Store.currentSlideIndex s <? Store.slides_length s - 1);
        reflexivity.
    + unfold Store.dispatch, Store.previousSlide.
      destruct (0 <? Store.currentSlideIndex s); reflexivity.
Qed.

(** Loading slides keeps the transcript. *)
Lemma getTranscriptText_grows_witness :
  let s := Store.addTranscriptSegment (Transcript.mkSegment "Hello" 1000 1)
             (Store.createInitialState : Store.SessionState nat unit) in
  Store.transcript (Store.dispatch s (Store.SetSlides [10%nat; 20%nat]))
  = Store.transcript s.
Proof.
  intros s.
  destruct (getTranscriptText_grows nat unit s (Transcript.mkSegment "x" 0 1))
    as (_ & _ & Hframe).
  apply Hframe. reflexivity.
Defined.

(* ================================================================= *)
(** ** The tracker's records and timings *)

Section TimingFacts.

Import Tracker.

Lemma last_slide_snoc (ts : list SlideTransition) (t : SlideTransition) :
  last_slide (ts ++ [t]) = Some (slideIndex t).
Proof. unfold last_slide. now rewrite rev_app_distr. Qed.

Lemma last_slide_cons (a b : SlideTransition) (ts : list SlideTransition) :
  last_slide (a :: b :: ts) = last_slide (b :: ts).
Proof.
  unfold last_slide. cbn [rev].
  destruct (rev ts) as [| x l]; reflexivity.
Qed.

Lemma no_repeated_snoc (ts : list SlideTransition) (t : SlideTransition) :
  no_repeated_slide (ts ++ [t])
  = no_repeated_slide ts
    && match last_slide ts with
       | None => true
       | Some i => negb (i =? slideIndex t)
       end.
Proof.
  induction ts as [| a ts IH]; [reflexivity |].
  destruct ts as [| b ts].
  - cbn. now rewrite andb_true_r.
  - change (no_repeated_slide ((a :: b :: ts) ++ [t]))
      with (negb (slideIndex a =? slideIndex b)
            && no_repeated_slide ((b :: ts) ++ [t])).
    change (no_repeated_slide (a :: b :: ts))
      with (negb (slideIndex a =? slideIndex b) && no_repeated_slide (b :: ts)).
    rewrite IH, last_slide_cons. now rewrite andb_assoc.
Qed.

(** The three invariants together are kept by every input. *)
Lemma step_all_inv (s : State) (i : Input) :
  tracker_inv s /\ start_inv s /\ record_inv s ->
  tracker_inv (step s i) /\ start_inv (step s i) /\ record_inv (step s i).
Proof.
  intros (Ht & Hs & Hnr & Hlast).
  split; [now apply step_inv |].
  destruct Ht as [Href Hdeps].
  unfold start_inv, record_inv in *.
  destruct i as [index now | now | |]; cbn [step].
  - (* render *)
    unfold render.
    destruct (deps_eqb (effectDeps s) index (isTracking s)); cbn.
    + auto.
    + unfold effect; cbn.
      destruct (isTracking s) eqn:Et; cbn; [| auto].
      specialize (Href eq_refl). specialize (Hlast eq_refl).
      rewrite Href in Hlast. rewrite Href.
      destruct (Z.eqb_spec (currentSlideIndex s) index) as [E | Hne]; cbn.
      * subst index. auto.
      * split; [| split; [| intros _; apply last_slide_snoc]].
        -- destruct (transitions s) as [| first rest];
             [discriminate Hlast | exact Hs].
        -- rewrite no_repeated_snoc, Hnr, Hlast. cbn.
           destruct (Z.eqb_spec (currentSlideIndex s) index); [contradiction |].
           reflexivity.
  - cbn. auto.
  - cbn. split; [exact Hs | split; [exact Hnr | discriminate]].
  - cbn. split; [reflexivity | split; [reflexivity | discriminate]].
Qed.

Lemma run_all_inv (inputs : list Input) :
  forall s,
    tracker_inv s /\ start_inv s /\ record_inv s ->
    tracker_inv (run s inputs) /\ start_inv (run s inputs)
    /\ record_inv (run s inputs).
Proof.
  induction inputs as [| i inputs IH]; intros s Hs; [exact Hs |].
  apply IH, step_all_inv, Hs.
Qed.

Lemma initial_all_inv (index : Z) :
  tracker_inv (initial index) /\ start_inv (initial index)
  /\ record_inv (initial index).
Proof.
  split; [apply initial_inv |].
  split; [reflexivity |].
  split; [reflexivity | discriminate].
Qed.

(** The durations of the timings telescope. *)
Lemma total_duration_telescopes (now : Z) (ts : list SlideTransition) :
  forall t, total_duration (slide_timings now (t :: ts)) = now - timestamp t.
Proof.
  induction ts as [| u ts IH]; intros t.
  - cbn. lia.
  - specialize (IH u). cbn [slide_timings] in *.
    unfold total_duration in *. cbn [fold_right duration] in *. lia.
Qed.

Lemma slide_timings_length (now : Z) (ts : list SlideTransition) :
  List.length (slide_timings now ts) = List.length ts.
Proof.
  induction ts as [| t ts IH]; [reflexivity |].
  cbn [slide_timings List.length]. now rewrite IH.
Qed.

(** The last timing is that of the last transition and runs up to now. *)
Lemma slide_timings_snoc (now : Z) (ts : list SlideTransition) (t : SlideTransition) :
  exists before,
    slide_timings now (ts ++ [t])
    = before ++ [mkTiming (slideIndex t) (timestamp t) (now - timestamp t)].
Proof.
  induction ts as [| a ts [before IH]].
  - exists []. reflexivity.
  - change ((a :: ts) ++ [t]) with (a :: (ts ++ [t])).
    cbn [slide_timings]. rewrite IH.
    eexists (_ :: before). reflexivity.
Qed.

Lemma last_duration (now : Z) (ts : list SlideTransition) :
  last (map duration (slide_timings now ts)) 0
  = match rev ts with
    | [] => 0
    | lastTransition :: _ => now - timestamp lastTransition
    end.
Proof.
  destruct ts as [| a ts] using rev_ind; [reflexivity |].
  destruct (slide_timings_snoc now ts a) as [before ->].
  rewrite map_app. cbn [map duration].
  rewrite last_last, rev_app_distr. reflexivity.
Qed.

(** With a clock that does not run backwards the timestamps are in order. *)
Lemma timestamps_upto_later (ts : list SlideTransition) :
  forall t t', timestamps_upto t ts = true -> t <= t' ->
               timestamps_upto t' ts = true.
Proof.
  induction ts as [| a ts IH]; intros t t' H Hle; [reflexivity |].
  destruct ts as [| b ts]; cbn [timestamps_upto] in *.
  - apply Z.leb_le in H. apply Z.leb_le. lia.
  - apply andb_prop in H as [Hab H]. rewrite Hab. cbn.
    exact (IH t t' H Hle).
Qed.

Lemma timestamps_upto_snoc (ts : list SlideTransition) (x : SlideTransition) :
  forall t, timestamps_upto t ts = true -> t <= timestamp x ->
            timestamps_upto (timestamp x) (ts ++ [x]) = true.
Proof.
  induction ts as [| a ts IH]; intros t H Hle.
  - cbn. apply Z.leb_refl.
  - destruct ts as [| b ts].
    + cbn in *. apply Z.leb_le in H.
      rewrite Z.leb_refl, andb_true_r. apply Z.leb_le. lia.
    + change ((a :: b :: ts) ++ [x]) with (a :: b :: (ts ++ [x])).
      cbn [timestamps_upto] in *.
      apply andb_prop in H as [Hab H]. rewrite Hab. cbn.
      exact (IH t H Hle).
Qed.

Lemma step_timestamps (s : State) (i : Input) (t : Z) :
  timestamps_upto t (transitions s) = true ->
  match input_time i with
  | None => timestamps_upto t (transitions (step s i)) = true
  | Some t' => t <= t' -> timestamps_upto t' (transitions (step s i)) = true
  end.
Proof.
  intros H. destruct i as [index now | now | |]; cbn [input_time step].
  - intros Hle. unfold render.
    destruct (deps_eqb (effectDeps s) index (isTracking s)); cbn.
    + exact (timestamps_upto_later _ _ _ H Hle).
    + unfold effect; cbn.
      destruct (isTracking s); cbn;
        [| exact (timestamps_upto_later _ _ _ H Hle)].
      destruct (previousSlideIndexRef s) as [p |];
        [| exact (timestamps_upto_later _ _ _ H Hle)].
      destruct (negb (p =? index));
        [| exact (timestamps_upto_later _ _ _ H Hle)].
      exact (timestamps_upto_snoc (transitions s)
               {| slideIndex := index; timestamp := now |} t H Hle).
  - intros _. cbn. apply Z.leb_refl.
  - exact H.
  - reflexivity.
Qed.

Lemma run_timestamps (inputs : list Input) :
  forall s t,
    timestamps_upto t (transitions s) = true ->
    clock_monotone t inputs = true ->
    timestamps_upto (clock_after t inputs) (transitions (run s inputs)) = true.
Proof.
  induction inputs as [| i inputs IH]; intros s t H Hclock; [exact H |].
  cbn [clock_monotone clock_after run fold_left] in *.
  pose proof (step_timestamps s i t H) as Hstep.
  destruct (input_time i) as [t' |].
  - apply andb_prop in Hclock as [Hle Hclock]. apply Z.leb_le in Hle.
    exact (IH _ _ (Hstep Hle) Hclock).
  - exact (IH _ _ Hstep Hclock).
Qed.

Lemma timings_nonneg (now : Z) (ts : list SlideTransition) :
  forall t, timestamps_upto t ts = true -> t <= now ->
            Forall (fun timing => 0 <= duration timing) (slide_timings now ts).
Proof.
  induction ts as [| a ts IH]; intros t H Hle; [constructor |].
  destruct ts as [| b ts].
  - cbn in *. apply Z.leb_le in H. repeat constructor. cbn. lia.
  - cbn [timestamps_upto] in H. apply andb_prop in H as [Hab H].
    apply Z.leb_le in Hab.
    cbn [slide_timings]. constructor; [cbn; lia |].
    exact (IH t H Hle).
Qed.

Lemma last_nonneg (l : list Z) :
  Forall (fun d => 0 <= d) l -> 0 <= last l 0.
Proof.
  induction 1 as [| d l Hd Hl IH]; [cbn; lia |].
  destruct l; [exact Hd | exact IH].
Qed.

(** While disarmed, and as long as tracking is neither started nor reset,
    nothing that is recorded changes. *)
Lemma step_frozen (s : State) (i : Input) :
  isTracking s = false ->
  is_start_tracking i = false -> is_reset i = false ->
  isTracking (step s i) = false
  /\ transitions (step s i) = transitions s
  /\ sessionStartTime (step s i) = sessionStartTime s.
Proof.
  intros Ht Hi1 Hi2.
  destruct i as [index now | now | |]; try discriminate; cbn [step].
  - unfold render, effect. cbn. rewrite Ht. cbn.
    destruct (deps_eqb (effectDeps s) index false); cbn; auto.
  - cbn. auto.
Qed.

Lemma run_frozen (inputs : list Input) :
  forall s,
    isTracking s = false ->
    forallb (fun i => negb (is_start_tracking i || is_reset i)) inputs = true ->
    isTracking (run s inputs) = false
    /\ transitions (run s inputs) = transitions s
    /\ sessionStartTime (run s inputs) = sessionStartTime s.
Proof.
  induction inputs as [| i inputs IH]; intros s Ht Hall; [auto |].
  cbn [forallb] in Hall.
  apply andb_prop in Hall as [Hi Hall].
  apply negb_true_iff, orb_false_elim in Hi as [Hi1 Hi2].
  destruct (step_frozen s i Ht Hi1 Hi2) as (Ht' & Hts & Hst).
  destruct (IH (step s i) Ht' Hall) as (H1 & H2 & H3).
  change (run s (i :: inputs)) with (run (step s i) inputs).
  rewrite H2, H3. auto.
Qed.

End TimingFacts.

(** X8.  In every state the tracker can reach, [getSlideTimings] has one
    timing per transition, and the durations add up to the time elapsed
    since the session start time; before tracking was ever started, and
    after a reset, there is no timing. *)
Theorem getSlideTimings_cover_session :
  forall (index0 : Z) (inputs : list Tracker.Input) (now : Z),
    let s := Tracker.run (Tracker.initial index0) inputs in
    List.length (Tracker.getSlideTimings now s)
    = List.length (Tracker.transitions s)
    /\ match Tracker.sessionStartTime s with
       | Some t0 =>
           Tracker.total_duration (Tracker.getSlideTimings now s) = now - t0
       | None => Tracker.getSlideTimings now s = []
       end.
Proof.
  intros index0 inputs now s.
  destruct (run_all_inv inputs _ (initial_all_inv index0)) as (_ & Hstart & _).
  fold s in Hstart. unfold Tracker.start_inv in Hstart.
  unfold Tracker.getSlideTimings.
  split; [apply slide_timings_length |].
  destruct (Tracker.transitions s) as [| first rest]; rewrite Hstart.
  - reflexivity.
  - apply total_duration_telescopes.
Qed.

(** X9.  In every state the tracker can reach, no two neighbouring
    transitions are for the same slide; while tracking is armed the last
    transition is for the slide observed by the latest render, and
    [getCurrentSlideDuration] is the duration of the last timing of
    [getSlideTimings]. *)
Theorem tracker_last_record_is_current :
  forall (index0 : Z) (inputs : list Tracker.Input),
    let s := Tracker.run (Tracker.initial index0) inputs in
    Tracker.no_repeated_slide (Tracker.transitions s) = true
    /\ (Tracker.isTracking s = true ->
        Tracker.last_slide (Tracker.transitions s)
        = Some (Tracker.currentSlideIndex s)
        /\ forall now,
             Tracker.getCurrentSlideDuration now s
             = last (map Tracker.duration (Tracker.getSlideTimings now s)) 0).
Proof.
  intros index0 inputs s.
  destruct (run_all_inv inputs _ (initial_all_inv index0))
    as ((Href & _) & _ & Hnr & Hlast).
  fold s in Href, Hnr, Hlast.
  split; [exact Hnr |].
  intros Ht. split.
  - rewrite (Hlast Ht). exact (Href Ht).
  - intros now. unfold Tracker.getCurrentSlideDuration, Tracker.getSlideTimings.
    rewrite Ht, last_duration. reflexivity.
Qed.

(** Tracking started on slide 0, the presenter moves to slide 1, the same
    index is observed once more, then slide 2. *)
Lemma tracker_last_record_is_current_witness :
  let s := Tracker.run (Tracker.initial 0)
             [Tracker.Render 0 10; Tracker.StartTracking 1000;
              Tracker.Render 1 6000; Tracker.Render 1 7000;
              Tracker.Render 2 9000] in
  Tracker.last_slide (Tracker.transitions s) = Some 2
  /\ Tracker.getCurrentSlideDuration 12000 s
     = last (map Tracker.duration (Tracker.getSlideTimings 12000 s)) 0.
Proof.
  intros s.
  destruct (tracker_last_record_is_current 0
              [Tracker.Render 0 10; Tracker.StartTracking 1000;
               Tracker.Render 1 6000; Tracker.Render 1 7000;
               Tracker.Render 2 9000]) as (_ & Harmed).
  destruct Harmed as (Hlast & Hduration); [reflexivity |].
  split; [exact Hlast | exact (Hduration 12000)].
Defined.

(** X10.  [stopTracking] keeps what was recorded: after it, and until
    tracking is started again or reset, whatever slide changes are
    observed, the transitions, the session start time and the timings stay
    as they were, tracking stays disarmed and [getCurrentSlideDuration]
    is 0. *)
Theorem stopTracking_freezes_records :
  forall (s : Tracker.State) (inputs : list Tracker.Input),
    forallb (fun i => negb (Tracker.is_start_tracking i || Tracker.is_reset i))
      inputs = true ->
    let s' := Tracker.run (Tracker.stopTracking s) inputs in
    Tracker.transitions s' = Tracker.transitions s
    /\ Tracker.sessionStartTime s' = Tracker.sessionStartTime s
    /\ Tracker.isTracking s' = false
    /\ (forall now,
          Tracker.getSlideTimings now s' = Tracker.getSlideTimings now s
          /\ Tracker.getCurrentSlideDuration now s' = 0).
Proof.
  intros s inputs Hall s'.
  destruct (run_frozen inputs (Tracker.stopTracking s) eq_refl Hall)
    as (Ht & Hts & Hst).
  fold s' in Ht, Hts, Hst.
  split; [exact Hts |]. split; [exact Hst |]. split; [exact Ht |].
  intros now. unfold Tracker.getSlideTimings, Tracker.getCurrentSlideDuration.
  rewrite Hts, Ht. split; reflexivity.
Qed.

(** Tracking stopped on slide 1, then two more slide changes. *)
Lemma stopTracking_freezes_records_witness :
  let s := Tracker.run (Tracker.initial 0)
             [Tracker.Render 0 10; Tracker.StartTracking 1000;
              Tracker.Render 1 6000] in
  Tracker.transitions
    (Tracker.run (Tracker.stopTracking s)
       [Tracker.Render 2 7000; Tracker.StopTracking; Tracker.Render 3 8000])
  = [Tracker.mkTransition 0 1000; Tracker.mkTransition 1 6000].
Proof.
  intros s.
  destruct (stopTracking_freezes_records s
              [Tracker.Render 2 7000; Tracker.StopTracking; Tracker.Render 3 8000])
    as (Hts & _).
  - reflexivity.
  - exact Hts.
Defined.

(** X11.  When the clock read by the inputs never runs backwards, and
    [now] is not before the last reading, no timing of [getSlideTimings]
    has a negative duration and [getCurrentSlideDuration] is not
    negative. *)
Theorem timings_never_negative :
  forall (index0 t0 : Z) (inputs : list Tracker.Input) (now : Z),
    Tracker.clock_monotone t0 inputs = true ->
    Tracker.clock_after t0 inputs <= now ->
    let s := Tracker.run (Tracker.initial index0) inputs in
    Forall (fun timing => 0 <= Tracker.duration timing)
      (Tracker.getSlideTimings now s)
    /\ 0 <= Tracker.getCurrentSlideDuration now s.
Proof.
  intros index0 t0 inputs now Hclock Hnow s.
  pose proof (run_timestamps inputs (Tracker.initial index0) t0 eq_refl Hclock)
    as Hupto.
  fold s in Hupto.
  pose proof (timings_nonneg now _ _ Hupto Hnow) as Hall.
  split; [exact Hall |].
  unfold Tracker.getCurrentSlideDuration.
  destruct (Tracker.isTracking s); cbn [negb]; [| lia].
  rewrite <- last_duration. apply last_nonneg.
  apply Forall_map. exact Hall.
Qed.

(** A session read three times on a running clock. *)
Lemma timings_never_negative_witness :
  let s := Tracker.run (Tracker.initial 0)
             [Tracker.StartTracking 1000; Tracker.Render 1 6000;
              Tracker.StopTracking; Tracker.Render 2 9000] in
  Forall (fun timing => 0 <= Tracker.duration timing)
    (Tracker.getSlideTimings 9500 s)
  /\ 0 <= Tracker.getCurrentSlideDuration 9500 s.
Proof.
  intros s.
  apply (timings_never_negative 0 0
           [Tracker.StartTracking 1000; Tracker.Render 1 6000;
            Tracker.StopTracking; Tracker.Render 2 9000] 9500).
  - reflexivity.
  - simpl. lia.
Defined.

(* ================================================================= *)
(** ** More on the recognition session *)

Section SessionFacts.

Import Speech.

Lemma count_app {A : Type} (p : A -> bool) (l l' : list A) :
  count p (l ++ l') = (count p l + count p l')%nat.
Proof. unfold count. now rewrite filter_app, length_app. Qed.

Lemma count_cons {A : Type} (p : A -> bool) (x : A) (l : list A) :
  count p (x :: l) = ((if p x then 1 else 0) + count p l)%nat.
Proof. unfold count. cbn [filter]. now destruct (p x). Qed.

(** Every input keeps the recognizer, supported or not. *)
Lemma step_keeps_recognizer (s : Session) (i : Input) :
  recognitionRef s <> None -> recognitionRef (step s i) <> None.
Proof.
  intros Hrec.
  destruct (recognitionRef s) as [r |] eqn:Er; [| contradiction].
  destruct i; cbn [step].
  - unfold start. rewrite Er.
    destruct (negb (isSupported s)); cbn; rewrite ?Er; discriminate.
  - unfold stop. rewrite Er. discriminate.
  - cbn. rewrite ?Er. discriminate.
  - unfold onstart. rewrite Er. cbn. rewrite ?Er. discriminate.
  - unfold onresult. rewrite Er.
    destruct (batch_texts event) as [f it].
    destruct (JS.truthy f); cbn; rewrite ?Er; discriminate.
  - unfold onerror. rewrite Er. cbn. rewrite ?Er. discriminate.
  - unfold onend. rewrite Er. cbn.
    destruct (shouldRestartRef s && negb (isStoppingRef s)); discriminate.
Qed.

(** What one input adds to the transcript. *)
Lemma step_transcript (s : Session) (i : Input) :
  recognitionRef s <> None ->
  is_reset i = false ->
  transcript (step s i) = (transcript s ++ delivered_final_text i)%string.
Proof.
  intros Hrec Hi.
  destruct (recognitionRef s) as [r |] eqn:Er; [| contradiction].
  destruct i; try discriminate Hi; cbn [step delivered_final_text];
    try rewrite string_app_nil_r.
  - unfold start. rewrite Er. now destruct (negb (isSupported s)).
  - unfold stop. now rewrite Er.
  - unfold onstart. now rewrite Er.
  - unfold onresult. rewrite Er, batch_texts_split.
    destruct (JS.truthy (final_text event)) eqn:Et; [reflexivity |].
    destruct (final_text event); [| discriminate Et].
    cbn. now rewrite string_app_nil_r.
  - unfold onerror. now rewrite Er.
  - unfold onend. now rewrite Er.
Qed.

Lemma run_transcript (inputs : list Input) :
  forall s,
    recognitionRef s <> None ->
    forallb (fun i => negb (is_reset i)) inputs = true ->
    transcript (run s inputs)
    = (transcript s ++ String.concat "" (map delivered_final_text inputs))%string.
Proof.
  induction inputs as [| i inputs IH]; intros s Hrec Hall.
  - cbn. now rewrite string_app_nil_r.
  - cbn [forallb] in Hall. apply andb_prop in Hall as [Hi Hall].
    apply negb_true_iff in Hi.
    change (run s (i :: inputs)) with (run (step s i) inputs).
    rewrite IH by (try apply step_keeps_recognizer; assumption).
    rewrite step_transcript by assumption.
    cbn [map]. rewrite concat_empty_cons, string_app_assoc. reflexivity.
Qed.

(** Without a recognizer only [resetTranscript] does anything. *)
Lemma step_without_recognizer (s : Session) (i : Input) :
  recognitionRef s = None ->
  step s i = if is_reset i then resetTranscript s else s.
Proof.
  intros Er. destruct i; cbn [step is_reset];
    unfold start, stop, onstart, onresult, onerror, onend;
    rewrite ?Er; reflexivity.
Qed.

Lemma resetTranscript_twice (s : Session) :
  resetTranscript (resetTranscript s) = resetTranscript s.
Proof. reflexivity. Qed.

Lemma run_without_recognizer (inputs : list Input) :
  forall s,
    recognitionRef s = None ->
    run s inputs = if existsb is_reset inputs then resetTranscript s else s.
Proof.
  induction inputs as [| i inputs IH]; intros s Er; [reflexivity |].
  change (run s (i :: inputs)) with (run (step s i) inputs).
  rewrite (step_without_recognizer s i Er). cbn [existsb].
  destruct (is_reset i) eqn:Ei; cbn [orb].
  - rewrite IH by exact Er. now destruct (existsb is_reset inputs).
  - apply IH, Er.
Qed.

(** The calls one input adds to the recognizer's log. *)
Lemma step_calls (s : Session) (i : Input) :
  has_recognizer s ->
  exists added,
    recognizer_calls (step s i) = recognizer_calls s ++ added
    /\ count is_call_stop added = (if is_stop i then 1 else 0)%nat
    /\ ((if is_start i then 1 else 0) <= count is_call_start added)%nat
    /\ (count is_call_start added
        <= if is_start i || is_end i then 1 else 0)%nat
    /\ (List.length added
        <= if is_start i || is_stop i || is_end i then 1 else 0)%nat
    /\ forallb (fun c => is_call_start c || is_call_stop c) added = true.
Proof.
  intros [Hsup Hrec].
  destruct (recognitionRef s) as [r |] eqn:Er; [| contradiction].
  assert (Hcalls : recognizer_calls s = calls r)
    by (unfold recognizer_calls; now rewrite Er).
  rewrite Hcalls.
  destruct i; cbn [step is_start is_stop is_end orb].
  - exists [CallStart]. unfold start, recognizer_calls.
    rewrite Er, Hsup. unfold count. cbn. repeat split; try reflexivity; lia.
  - exists [CallStop]. unfold stop, recognizer_calls. rewrite Er.
    unfold count. cbn. repeat split; try reflexivity; lia.
  - exists []. unfold resetTranscript, recognizer_calls. cbn.
    rewrite Er, app_nil_r. unfold count. cbn. repeat split; try reflexivity; lia.
  - exists []. unfold onstart, recognizer_calls. rewrite Er. cbn.
    rewrite app_nil_r. unfold count. cbn. repeat split; try reflexivity; lia.
  - exists []. unfold onresult, recognizer_calls. rewrite Er.
    destruct (batch_texts event) as [f it].
    destruct (JS.truthy f); cbn; rewrite app_nil_r; unfold count; cbn;
      repeat split; try reflexivity; lia.
  - exists []. unfold onerror, recognizer_calls. rewrite Er. cbn.
    rewrite app_nil_r. unfold count. cbn. repeat split; try reflexivity; lia.
  - unfold onend, recognizer_calls. rewrite Er. cbn.
    destruct (shouldRestartRef s && negb (isStoppingRef s)).
    + exists [CallStart]. unfold count. cbn. repeat split; try reflexivity; lia.
    + exists []. rewrite app_nil_r. cbn. repeat split; try reflexivity; lia.
Qed.

Lemma run_calls (inputs : list Input) :
  forall s,
    has_recognizer s ->
    exists added,
      recognizer_calls (run s inputs) = recognizer_calls s ++ added
      /\ count is_call_stop added = count is_stop inputs
      /\ (count is_start inputs <= count is_call_start added)%nat
      /\ (count is_call_start added
          <= count is_start inputs + count is_end inputs)%nat
      /\ (List.length added
          <= count is_start inputs + count is_stop inputs
             + count is_end inputs)%nat
      /\ forallb (fun c => is_call_start c || is_call_stop c) added = true.
Proof.
  induction inputs as [| i inputs IH]; intros s Hs.
  - exists []. cbn. rewrite app_nil_r. auto 6.
  - change (run s (i :: inputs)) with (run (step s i) inputs).
    destruct (step_calls s i Hs)
      as (a1 & E1 & Hstop1 & Hlo1 & Hhi1 & Hlen1 & Hkind1).
    destruct (IH (step s i) (step_has_recognizer s i Hs))
      as (a2 & E2 & Hstop2 & Hlo2 & Hhi2 & Hlen2 & Hkind2).
    exists (a1 ++ a2). rewrite E2, E1, <- app_assoc.
    rewrite !count_app, !count_cons, length_app, forallb_app, Hkind1, Hkind2.
    split; [reflexivity |].
    destruct i; cbn [is_start is_stop is_end orb] in *;
      repeat split; try reflexivity; lia.
Qed.

(** What one input reports to the caller's callback. *)
Lemma step_callback (s : Session) (i : Input) (log : list (string * bool)) :
  recognitionRef s <> None ->
  onResult s = Some log ->
  exists reported,
    onResult (step s i) = Some (log ++ reported)
    /\ List.length reported = (if is_result i then 1 else 0)%nat
    /\ String.concat "" (map fst (filter snd reported))
       = delivered_final_text i.
Proof.
  intros Hrec Hlog.
  destruct (recognitionRef s) as [r |] eqn:Er; [| contradiction].
  destruct i; cbn [step is_result delivered_final_text].
  - exists []. unfold start. rewrite Er, app_nil_r.
    destruct (negb (isSupported s)); cbn; auto.
  - exists []. unfold stop. rewrite Er, app_nil_r. cbn. auto.
  - exists []. rewrite app_nil_r. cbn. auto.
  - exists []. unfold onstart. rewrite Er, app_nil_r. cbn. auto.
  - unfold onresult. rewrite Er, batch_texts_split, Hlog.
    destruct (JS.truthy (final_text event)) eqn:Et; cbn.
    + exists [(final_text event, true)]. cbn. auto.
    + exists [(interim_text event, false)]. cbn.
      destruct (final_text event); [auto | discriminate Et].
  - exists []. unfold onerror. rewrite Er, app_nil_r. cbn. auto.
  - exists []. unfold onend. rewrite Er, app_nil_r. cbn. auto.
Qed.

Lemma concat_empty_app (l l' : list string) :
  String.concat "" (l ++ l')
  = (String.concat "" l ++ String.concat "" l')%string.
Proof.
  induction l as [| a l IH]; [reflexivity |].
  change ((a :: l) ++ l') with (a :: (l ++ l')).
  rewrite !concat_empty_cons, IH, string_app_assoc. reflexivity.
Qed.

Lemma run_callback (inputs : list Input) :
  forall s log,
    recognitionRef s <> None ->
    onResult s = Some log ->
    exists reported,
      onResult (run s inputs) = Some (log ++ reported)
      /\ List.length reported = count is_result inputs
      /\ String.concat "" (map fst (filter snd reported))
         = String.concat "" (map delivered_final_text inputs).
Proof.
  induction inputs as [| i inputs IH]; intros s log Hrec Hlog.
  - exists []. rewrite app_nil_r. cbn. auto.
  - change (run s (i :: inputs)) with (run (step s i) inputs).
    destruct (step_callback s i log Hrec Hlog) as (r1 & E1 & Hlen1 & Htext1).
    destruct (IH (step s i) (log ++ r1) (step_keeps_recognizer s i Hrec) E1)
      as (r2 & E2 & Hlen2 & Htext2).
    exists (r1 ++ r2). rewrite E2, <- app_assoc.
    split; [reflexivity |].
    rewrite length_app, count_cons, Hlen1, Hlen2.
    split; [reflexivity |].
    rewrite filter_app, map_app, concat_empty_app, Htext1, Htext2.
    cbn [map]. now rewrite concat_empty_cons.
Qed.

Lemma getErrorMessage_injective (c1 c2 : string) :
  getErrorMessage c1 = getErrorMessage c2 -> c1 = c2.
Proof.
  unfold getErrorMessage.
  destruct (String.eqb_spec c1 "no-speech");
    destruct (String.eqb_spec c1 "audio-capture");
    destruct (String.eqb_spec c1 "not-allowed");
    destruct (String.eqb_spec c1 "network");
    destruct (String.eqb_spec c2 "no-speech");
    destruct (String.eqb_spec c2 "audio-capture");
    destruct (String.eqb_spec c2 "not-allowed");
    destruct (String.eqb_spec c2 "network");
    intros H; try congruence;
    cbn in H; try discriminate H.
  now injection H.
Qed.

End SessionFacts.

(** X12.  As long as the transcript is not reset, the accumulated
    transcript of a session with a recognizer is what it was followed by
    the final texts of the result events delivered since, in order; no
    other input changes it. *)
Theorem transcript_is_the_final_texts :
  forall (s : Speech.Session) (inputs : list Speech.Input),
    Speech.recognitionRef s <> None ->
    forallb (fun i => negb (Speech.is_reset i)) inputs = true ->
    Speech.transcript (Speech.run s inputs)
    = (Speech.transcript s
       ++ String.concat "" (map Speech.delivered_final_text inputs))%string.
Proof.
  intros s inputs Hrec Hall. now apply run_transcript.
Qed.

(** Two final results around an error and an automatic restart. *)
Lemma transcript_is_the_final_texts_witness :
  Speech.transcript
    (Speech.run (Speech.mount true true "en-US")
       [Speech.Start; Speech.OnStart;
        Speech.OnResult (Speech.mkEvent 0 [Speech.mkResult true "Hello "]);
        Speech.OnEnd; Speech.OnStart;
        Speech.OnResult (Speech.mkEvent 0 [Speech.mkResult false "wor"]);
        Speech.OnResult (Speech.mkEvent 0 [Speech.mkResult true "world"]);
        Speech.OnError "network"; Speech.Stop])
  = "Hello world"%string.
Proof.
  rewrite transcript_is_the_final_texts.
  - reflexivity.
  - simpl. discriminate.
  - reflexivity.
Defined.

(** X13.  In a browser without speech recognition the hook is inert:
    whatever is called, no call is made on a recognizer, nothing is
    reported to the callback, [isListening] stays false and the transcripts
    stay empty; the only change ever made is that [resetTranscript] clears
    the "not supported" message. *)
Theorem unsupported_session_is_inert :
  forall (callback : bool) (language : string) (inputs : list Speech.Input),
    let s0 := Speech.mount false callback language in
    let s := Speech.run s0 inputs in
    s = (if existsb Speech.is_reset inputs then Speech.resetTranscript s0 else s0)
    /\ Speech.recognizer_calls s = []
    /\ Speech.callback_calls s = []
    /\ Speech.isListening s = false
    /\ Speech.transcript s = EmptyString
    /\ Speech.interimTranscript s = EmptyString
    /\ Speech.error s
       = (if existsb Speech.is_reset inputs then None
          else Some Speech.unsupported_message).
Proof.
  intros callback language inputs s0 s.
  assert (E : s = if existsb Speech.is_reset inputs
                  then Speech.resetTranscript s0 else s0)
    by (apply run_without_recognizer; reflexivity).
  split; [exact E |].
  rewrite E. destruct (existsb Speech.is_reset inputs), callback;
    repeat split; reflexivity.
Qed.

(** X14.  In a session with a recognizer, and for as long as the hook
    stays mounted, the calls that [start], [stop], [resetTranscript] and
    the four event handlers make on the recognizer are only [start ()] and
    [stop ()], never [abort ()]: [stop ()] once per call of the hook's
    [stop], [start ()] at least once per call of the hook's [start] and at
    most once more per [onend] event.  (The [abort ()] of the clean-up of
    the mount effect, made when the hook is unmounted or its language
    changes, is not among these inputs.) *)
Theorem recognizer_calls_are_bounded :
  forall (s : Speech.Session) (inputs : list Speech.Input),
    Speech.has_recognizer s ->
    exists added,
      Speech.recognizer_calls (Speech.run s inputs)
      = Speech.recognizer_calls s ++ added
      /\ forallb (fun c => Speech.is_call_start c || Speech.is_call_stop c)
           added = true
      /\ Speech.count Speech.is_call_stop added
         = Speech.count Speech.is_stop inputs
      /\ (Speech.count Speech.is_start inputs
          <= Speech.count Speech.is_call_start added
          <= Speech.count Speech.is_start inputs
             + Speech.count Speech.is_end inputs)%nat
      /\ (List.length added
          <= Speech.count Speech.is_start inputs
             + Speech.count Speech.is_stop inputs
             + Speech.count Speech.is_end inputs)%nat.
Proof.
  intros s inputs Hs.
  destruct (run_calls inputs s Hs)
    as (added & E & Hstop & Hlo & Hhi & Hlen & Hkind).
  exists added. auto 6.
Qed.

(** A session ended twice by the recognizer, then stopped, then ended. *)
Lemma recognizer_calls_are_bounded_witness :
  exists added,
    Speech.recognizer_calls
      (Speech.run (Speech.mount true false "en-US")
         [Speech.Start; Speech.OnEnd; Speech.OnEnd; Speech.Stop; Speech.OnEnd])
    = [] ++ added
    /\ forallb (fun c => Speech.is_call_start c || Speech.is_call_stop c)
         added = true
    /\ Speech.count Speech.is_call_stop added = 1%nat.
Proof.
  destruct (recognizer_calls_are_bounded (Speech.mount true false "en-US")
              [Speech.Start; Speech.OnEnd; Speech.OnEnd; Speech.Stop; Speech.OnEnd])
    as (added & E & Hkind & Hstop & _).
  - split; simpl; [reflexivity | discriminate].
  - exists added. split; [exact E | split; [exact Hkind | exact Hstop]].
Defined.

(** X15.  In a session with a recognizer and a callback, the callback is
    invoked exactly once per result event and by nothing else, and the
    texts it is given as final, put together in order, are the final texts
    delivered, that is what the transcript has grown by. *)
Theorem callback_once_per_result :
  forall (s : Speech.Session) (inputs : list Speech.Input)
         (log : list (string * bool)),
    Speech.recognitionRef s <> None ->
    Speech.onResult s = Some log ->
    exists reported,
      Speech.onResult (Speech.run s inputs) = Some (log ++ reported)
      /\ List.length reported = Speech.count Speech.is_result inputs
      /\ String.concat "" (map fst (filter snd reported))
         = String.concat "" (map Speech.delivered_final_text inputs).
Proof.
  intros s inputs log Hrec Hlog. now apply run_callback.
Qed.

(** An interim result, a final result, and a batch without any text. *)
Lemma callback_once_per_result_witness :
  exists reported,
    Speech.onResult
      (Speech.run (Speech.mount true true "en-US")
         [Speech.Start; Speech.OnStart;
          Speech.OnResult (Speech.mkEvent 0 [Speech.mkResult false "Hel"]);
          Speech.OnResult (Speech.mkEvent 0 [Speech.mkResult true "Hello"]);
          Speech.OnResult (Speech.mkEvent 1 [Speech.mkResult true "Hello"]);
          Speech.OnEnd])
    = Some ([] ++ reported)
    /\ List.length reported = 3%nat.
Proof.
  destruct (callback_once_per_result (Speech.mount true true "en-US")
              [Speech.Start; Speech.OnStart;
               Speech.OnResult (Speech.mkEvent 0 [Speech.mkResult false "Hel"]);
               Speech.OnResult (Speech.mkEvent 0 [Speech.mkResult true "Hello"]);
               Speech.OnResult (Speech.mkEvent 1 [Speech.mkResult true "Hello"]);
               Speech.OnEnd] [])
    as (reported & E & Hlen & _).
  - simpl. discriminate.
  - reflexivity.
  - exists reported. split; [exact E | exact Hlen].
Defined.

(** X16.  [getErrorMessage] never gives two different error codes the
    same message: the four known codes have four different fixed messages,
    and every other code is quoted in its message. *)
Theorem getErrorMessage_distinguishes_codes :
  forall c1 c2 : string,
    c1 <> c2 -> Speech.getErrorMessage c1 <> Speech.getErrorMessage c2.
Proof.
  intros c1 c2 Hne E. apply Hne. now apply getErrorMessage_injective.
Qed.

(** A known code and an unknown one. *)
Lemma getErrorMessage_distinguishes_codes_witness :
  Speech.getErrorMessage "network" <> Speech.getErrorMessage "aborted".
Proof.
  apply getErrorMessage_distinguishes_codes. discriminate.
Defined.

(* ================================================================= *)
(** ** Validating a PDF file *)

Section ValidateFacts.

Import Pdf.

(** The magic-byte test holds exactly when the content starts with the
    five bytes of ["%PDF-"]. *)
Lemma magic_bytes_test (content : list N) :
  every_from 0 (byte_is (firstn 5 (skipn 0 content))) PDF_MAGIC_BYTES = true
  <-> firstn 5 content = PDF_MAGIC_BYTES.
Proof.
  unfold PDF_MAGIC_BYTES.
  destruct content as [| b0 [| b1 [| b2 [| b3 [| b4 rest]]]]];
    cbn; try (split; intros H; discriminate H).
  - destruct (N.eqb_spec b0 37); split; intros H; cbn in *; congruence.
  - destruct (N.eqb_spec b0 37), (N.eqb_spec b1 80);
      split; intros H; cbn in *; congruence.
  - destruct (N.eqb_spec b0 37), (N.eqb_spec b1 80), (N.eqb_spec b2 68);
      split; intros H; cbn in *; congruence.
  - destruct (N.eqb_spec b0 37), (N.eqb_spec b1 80), (N.eqb_spec b2 68),
             (N.eqb_spec b3 70);
      split; intros H; cbn in *; congruence.
  - destruct (N.eqb_spec b0 37), (N.eqb_spec b1 80), (N.eqb_spec b2 68),
             (N.eqb_spec b3 70), (N.eqb_spec b4 45);
      split; intros H; cbn in *; congruence.
Qed.

Lemma validatePDF_valid (file : File) :
  valid (validatePDF file) = true
  <-> (size file <> 0%N
       /\ (size file <= MAX_FILE_SIZE)%N
       /\ type file = "application/pdf"%string
       /\ exists content,
            bytes file = Some content /\ firstn 5 content = PDF_MAGIC_BYTES).
Proof.
  unfold validatePDF, readFileSlice.
  destruct (N.eqb_spec (size file) 0) as [E0 | Hne0].
  { cbn. split; [discriminate | intros (H & _); contradiction]. }
  destruct (N.ltb_spec MAX_FILE_SIZE (size file)) as [Hbig | Hle].
  { cbn [valid]. split; [discriminate | intros (_ & H & _); lia]. }
  destruct (String.eqb_spec (type file) "application/pdf") as [Et | Hnt].
  2: { cbn. split; [discriminate | intros (_ & _ & H & _); contradiction]. }
  cbn [negb].
  destruct (bytes file) as [content |].
  2: { cbn. split; [discriminate | intros (_ & _ & _ & c & H & _); discriminate]. }
  change (5 - 0)%nat with 5%nat.
  pose proof (magic_bytes_test content) as Hmagic.
  destruct (every_from 0 (byte_is (firstn 5 (skipn 0 content))) PDF_MAGIC_BYTES);
    cbn.
  - split; [| reflexivity]. intros _.
    repeat split; try assumption.
    exists content. split; [reflexivity | now apply Hmagic].
  - split; [discriminate |].
    intros (_ & _ & _ & c & Hc & Hm). injection Hc as <-.
    apply Hmagic in Hm. discriminate Hm.
Qed.

Lemma validatePDF_error (file : File) :
  (error (validatePDF file) = None <-> valid (validatePDF file) = true)
  /\ (valid (validatePDF file) = false ->
      error (validatePDF file) = Some (validation_message (validatePDF file))
      /\ validation_message (validatePDF file) <> "Invalid PDF file"%string).
Proof.
  unfold validatePDF.
  destruct (size file =? 0)%N;
    [cbn; repeat split; intros; discriminate |].
  destruct (MAX_FILE_SIZE <? size file)%N;
    [cbn; repeat split; intros; discriminate |].
  destruct (negb (String.eqb (type file) "application/pdf"));
    [cbn; repeat split; intros; discriminate |].
  destruct (readFileSlice file 0 5) as [content |];
    [| cbn; repeat split; intros; discriminate].
  destruct (every_from 0 (byte_is content) PDF_MAGIC_BYTES);
    cbn; repeat split; intros; try discriminate; reflexivity.
Qed.

End ValidateFacts.

(** X17.  [validatePDF] accepts a file exactly when it is not empty, not
    larger than 50 MiB, of type "application/pdf", readable, and starts
    with the five bytes of "%PDF-"; a file it rejects always comes with an
    error message of its own, so the fallback message "Invalid PDF file"
    of its callers is never shown. *)
Theorem validatePDF_accepts_exactly :
  forall file : Pdf.File,
    (Pdf.valid (Pdf.validatePDF file) = true
     <-> (Pdf.size file <> 0%N
          /\ (Pdf.size file <= Pdf.MAX_FILE_SIZE)%N
          /\ Pdf.type file = "application/pdf"%string
          /\ exists content,
               Pdf.bytes file = Some content
               /\ firstn 5 content = Pdf.PDF_MAGIC_BYTES))
    /\ (Pdf.error (Pdf.validatePDF file) = None
        <-> Pdf.valid (Pdf.validatePDF file) = true)
    /\ (Pdf.valid (Pdf.validatePDF file) = false ->
        Pdf.error (Pdf.validatePDF file)
        = Some (Pdf.validation_message (Pdf.validatePDF file))
        /\ Pdf.validation_message (Pdf.validatePDF file)
           <> "Invalid PDF file"%string).
Proof.
  intros file. split; [apply validatePDF_valid |].
  apply validatePDF_error.
Qed.

(** A text file renamed to PDF, with the PDF type, is rejected on its
    first bytes. *)
Lemma validatePDF_accepts_exactly_witness :
  Pdf.error (Pdf.validatePDF
               (Pdf.mkFile 5 "application/pdf" (Some [104; 101; 108; 108; 111]%N)))
  = Some "File does not appear to be a valid PDF."%string
  /\ Pdf.size (Pdf.mkFile 6 "application/pdf"
                 (Some [37; 80; 68; 70; 45; 49]%N)) <> 0%N.
Proof.
  split.
  - destruct (validatePDF_accepts_exactly
                (Pdf.mkFile 5 "application/pdf" (Some [104; 101; 108; 108; 111]%N)))
      as (_ & _ & Hrejected).
    destruct Hrejected as (Herror & _); [reflexivity |].
    exact Herror.
  - destruct (validatePDF_accepts_exactly
                (Pdf.mkFile 6 "application/pdf" (Some [37; 80; 68; 70; 45; 49]%N)))
      as (Haccepted & _).
    apply Haccepted. reflexivity.
Defined.

(* ================================================================= *)
(** ** Sanitizing a file name *)

Section SanitizeFacts.

Import Pdf.

(** Induction two characters at a time, as [remove_dotdot] recurses. *)
Lemma pair_induction (P : jsstring -> Prop) :
  P [] ->
  (forall c, P [c]) ->
  (forall c d l, P l -> P (d :: l) -> P (c :: d :: l)) ->
  forall l, P l.
Proof.
  intros Hnil Hone Hstep l.
  assert (H : P l /\ forall c, P (c :: l)).
  { induction l as [| d l [IH1 IH2]].
    - split; [exact Hnil | exact Hone].
    - split; [apply IH2 |]. intros c. apply Hstep; [exact IH1 | apply IH2]. }
  apply H.
Qed.

Lemma remove_dotdot_cons2 (c d : N) (l : jsstring) :
  remove_dotdot (c :: d :: l)
  = if is_dot c && is_dot d then remove_dotdot l
    else c :: remove_dotdot (d :: l).
Proof. reflexivity. Qed.

Lemma remove_dotdot_head (d : N) (l : jsstring) :
  is_dot d = false -> remove_dotdot (d :: l) = d :: remove_dotdot l.
Proof.
  intros Hd. destruct l as [| e l]; [reflexivity |].
  rewrite remove_dotdot_cons2, Hd. reflexivity.
Qed.

Lemma no_pair_cons (class : N -> bool) (x : N) (l : jsstring) :
  no_pair class (x :: l)
  = (negb (class x) || not_leading class l) && no_pair class l.
Proof.
  destruct l as [| d l]; cbn [no_pair not_leading].
  - now rewrite orb_true_r.
  - now rewrite negb_andb.
Qed.

Lemma remove_dotdot_members (s : jsstring) :
  forall x, In x (remove_dotdot s) -> In x s.
Proof.
  induction s as [| c | c d l IH1 IH2] using pair_induction; intros x Hin.
  - exact Hin.
  - exact Hin.
  - rewrite remove_dotdot_cons2 in Hin.
    destruct (is_dot c && is_dot d).
    + right. right. now apply IH1.
    + destruct Hin as [<- | Hin]; [now left | right; now apply IH2].
Qed.

Lemma remove_dotdot_no_pair (s : jsstring) :
  no_pair is_dot (remove_dotdot s) = true.
Proof.
  induction s as [| c | c d l IH1 IH2] using pair_induction.
  - reflexivity.
  - reflexivity.
  - rewrite remove_dotdot_cons2.
    destruct (is_dot c) eqn:Ec; destruct (is_dot d) eqn:Ed; cbn [andb].
    + exact IH1.
    + rewrite no_pair_cons, IH2, remove_dotdot_head by exact Ed.
      cbn [not_leading]. rewrite Ed. now rewrite orb_true_r.
    + rewrite no_pair_cons, IH2, Ec. reflexivity.
    + rewrite no_pair_cons, IH2, Ec. reflexivity.
Qed.

Lemma remove_dotdot_id (s : jsstring) :
  no_pair is_dot s = true -> remove_dotdot s = s.
Proof.
  induction s as [| c | c d l IH1 IH2] using pair_induction; intros H.
  - reflexivity.
  - reflexivity.
  - rewrite remove_dotdot_cons2.
    cbn [no_pair] in H. apply andb_prop in H as [Hcd H].
    apply negb_true_iff in Hcd. rewrite Hcd.
    now rewrite IH2.
Qed.

Lemma drop_leading_suffix (class : N -> bool) (s : jsstring) :
  exists t, s = t ++ drop_leading class s.
Proof.
  induction s as [| c s [t IH]].
  - exists []. reflexivity.
  - cbn [drop_leading]. destruct (class c).
    + exists (c :: t). cbn. now rewrite <- IH.
    + exists []. reflexivity.
Qed.

Lemma drop_leading_not_leading (class : N -> bool) (s : jsstring) :
  not_leading class (drop_leading class s) = true.
Proof.
  induction s as [| c s IH]; [reflexivity |].
  cbn [drop_leading]. destruct (class c) eqn:Ec; [exact IH |].
  cbn. now rewrite Ec.
Qed.

Lemma drop_leading_id (class : N -> bool) (s : jsstring) :
  not_leading class s = true -> drop_leading class s = s.
Proof.
  destruct s as [| c s]; [reflexivity |].
  cbn. intros H. apply negb_true_iff in H. now rewrite H.
Qed.

Lemma drop_trailing_prefix (class : N -> bool) (s : jsstring) :
  exists t, s = drop_trailing class s ++ t.
Proof.
  unfold drop_trailing.
  destruct (drop_leading_suffix class (rev s)) as [t Ht].
  exists (rev t).
  rewrite <- rev_app_distr, <- Ht. now rewrite rev_involutive.
Qed.

Lemma drop_trailing_not_trailing (class : N -> bool) (s : jsstring) :
  not_trailing class (drop_trailing class s) = true.
Proof.
  unfold not_trailing, drop_trailing.
  rewrite rev_involutive. apply drop_leading_not_leading.
Qed.

Lemma drop_trailing_id (class : N -> bool) (s : jsstring) :
  not_trailing class s = true -> drop_trailing class s = s.
Proof.
  unfold not_trailing, drop_trailing. intros H.
  rewrite drop_leading_id by exact H. apply rev_involutive.
Qed.

Lemma no_pair_app (class : N -> bool) (a b : jsstring) :
  no_pair class (a ++ b) = true ->
  no_pair class a = true /\ no_pair class b = true.
Proof.
  induction a as [| x a IH]; intros H.
  - split; [reflexivity | exact H].
  - change ((x :: a) ++ b) with (x :: (a ++ b)) in H.
    rewrite no_pair_cons in H. apply andb_prop in H as [Hx H].
    destruct (IH H) as [Ha Hb]. split; [| exact Hb].
    rewrite no_pair_cons, Ha, andb_true_r.
    destruct a as [| y a]; [now rewrite orb_true_r | exact Hx].
Qed.

Lemma not_leading_app (class : N -> bool) (a b : jsstring) :
  not_leading class (a ++ b) = true -> not_leading class a = true.
Proof. destruct a; [reflexivity | intros H; exact H]. Qed.

Lemma not_leading_of_all (class : N -> bool) (s : jsstring) :
  forallb (fun c => negb (class c)) s = true -> not_leading class s = true.
Proof.
  destruct s as [| c s]; [reflexivity |].
  cbn. intros H. now apply andb_prop in H as [H _].
Qed.

Lemma forallb_rev (p : N -> bool) (s : jsstring) :
  forallb p s = true -> forallb p (rev s) = true.
Proof.
  rewrite !forallb_forall. intros H x Hx. apply H. now apply in_rev.
Qed.

(** Collapsing the runs of a class. *)
Lemma collapse_members (class : N -> bool) (s : jsstring) :
  forall in_run x,
    In x (collapse_runs class in_run s) ->
    x = 95%N \/ (In x s /\ class x = false).
Proof.
  induction s as [| c s IH]; intros in_run x Hin; [destruct Hin |].
  cbn [collapse_runs] in Hin.
  destruct (class c) eqn:Ec.
  - destruct in_run.
    + destruct (IH _ _ Hin) as [E | [H1 H2]]; [now left | right].
      split; [now right | exact H2].
    + destruct Hin as [<- | Hin]; [now left |].
      destruct (IH _ _ Hin) as [E | [H1 H2]]; [now left | right].
      split; [now right | exact H2].
  - destruct Hin as [<- | Hin]; [right; split; [now left | exact Ec] |].
    destruct (IH _ _ Hin) as [E | [H1 H2]]; [now left | right].
    split; [now right | exact H2].
Qed.

Lemma collapse_not_leading (class p : N -> bool) (s : jsstring) :
  p 95%N = false ->
  not_leading p s = true ->
  not_leading p (collapse_runs class false s) = true.
Proof.
  intros H95 H. destruct s as [| c s]; [reflexivity |].
  cbn [collapse_runs]. destruct (class c); cbn [not_leading].
  - now rewrite H95.
  - exact H.
Qed.

Lemma collapse_no_pair (class p : N -> bool) (s : jsstring) :
  p 95%N = false ->
  forall in_run,
    no_pair p s = true -> no_pair p (collapse_runs class in_run s) = true.
Proof.
  intros H95. induction s as [| c s IH]; intros in_run H; [reflexivity |].
  rewrite no_pair_cons in H. apply andb_prop in H as [Hc H].
  cbn [collapse_runs]. destruct (class c).
  - destruct in_run; [now apply IH |].
    rewrite no_pair_cons, H95, IH by exact H. reflexivity.
  - rewrite no_pair_cons, IH, andb_true_r by exact H.
    destruct (p c); [| reflexivity].
    cbn [negb orb] in *. now apply collapse_not_leading.
Qed.

Lemma collapse_no_pair_underscore (s : jsstring) :
  forall in_run,
    no_pair is_underscore (collapse_runs is_space_or_underscore in_run s) = true
    /\ (in_run = true ->
        not_leading is_underscore
          (collapse_runs is_space_or_underscore in_run s) = true).
Proof.
  induction s as [| c s IH]; intros in_run; [split; reflexivity |].
  cbn [collapse_runs].
  destruct (is_space_or_underscore c) eqn:Ec.
  - destruct in_run; [apply IH |].
    destruct (IH true) as [Hnp Hhead].
    split; [| discriminate].
    rewrite no_pair_cons, Hnp, (Hhead eq_refl). now rewrite orb_true_r.
  - assert (Eu : is_underscore c = false).
    { unfold is_space_or_underscore in Ec. now apply orb_false_elim in Ec. }
    destruct (IH false) as [Hnp _].
    split.
    + rewrite no_pair_cons, Hnp, Eu. reflexivity.
    + intros _. cbn [not_leading]. now rewrite Eu.
Qed.

Lemma collapse_id (s : jsstring) :
  forall in_run,
    forallb (fun c => negb (is_space c)) s = true ->
    no_pair is_underscore s = true ->
    (in_run = true -> not_leading is_underscore s = true) ->
    collapse_runs is_space_or_underscore in_run s = s.
Proof.
  induction s as [| c s IH]; intros in_run Hsp Hnp Hhead; [reflexivity |].
  cbn [forallb] in Hsp. apply andb_prop in Hsp as [Hc Hsp].
  apply negb_true_iff in Hc.
  rewrite no_pair_cons in Hnp. apply andb_prop in Hnp as [Hcs Hnp].
  cbn [collapse_runs]. unfold is_space_or_underscore at 1. rewrite Hc.
  cbn [orb]. destruct (is_underscore c) eqn:Eu.
  - destruct in_run.
    + specialize (Hhead eq_refl). cbn in Hhead. now rewrite Eu in Hhead.
    + apply N.eqb_eq in Eu. subst c. f_equal.
      apply IH; [exact Hsp | exact Hnp | intros _; exact Hcs].
  - f_equal. apply IH; [exact Hsp | exact Hnp | discriminate].
Qed.

(** The string [sanitizeFilename] builds before it looks whether it is
    empty. *)
Lemma sanitized_is_clean (filename : jsstring) :
  let sanitized :=
    drop_trailing is_underscore
      (collapse_runs is_space_or_underscore false
         (drop_leading is_dot
            (trim
               (remove_dotdot
                  (remove_all is_path_separator
                     (remove_all is_control filename)))))) in
  forallb (fun c => negb (is_control c)) sanitized = true
  /\ forallb (fun c => negb (is_path_separator c)) sanitized = true
  /\ forallb (fun c => negb (is_space c)) sanitized = true
  /\ no_pair is_dot sanitized = true
  /\ no_pair is_underscore sanitized = true
  /\ not_leading is_dot sanitized = true
  /\ not_trailing is_underscore sanitized = true.
Proof.
  cbv zeta. unfold trim.
  set (s1 := remove_all is_control filename).
  set (s2 := remove_all is_path_separator s1).
  set (s3 := remove_dotdot s2).
  set (s3' := drop_leading is_space s3).
  set (s4 := drop_trailing is_space s3').
  set (s5 := drop_leading is_dot s4).
  set (s6 := collapse_runs is_space_or_underscore false s5).
  set (sanitized := drop_trailing is_underscore s6).
  destruct (drop_leading_suffix is_space s3) as [t3 E3]. fold s3' in E3.
  destruct (drop_trailing_prefix is_space s3') as [t4 E4]. fold s4 in E4.
  destruct (drop_leading_suffix is_dot s4) as [t5 E5]. fold s5 in E5.
  destruct (drop_trailing_prefix is_underscore s6) as [t7 E7].
  fold sanitized in E7.
  assert (In5 : forall x, In x s5 -> In x s2).
  { intros x Hx. apply remove_dotdot_members. fold s3.
    rewrite E3. apply in_or_app. right.
    rewrite E4. apply in_or_app. left.
    rewrite E5. apply in_or_app. now right. }
  assert (In7 : forall x, In x sanitized ->
                          x = 95%N \/ (In x s2 /\ is_space_or_underscore x = false)).
  { intros x Hx.
    assert (Hx6 : In x s6) by (rewrite E7; apply in_or_app; now left).
    destruct (collapse_members _ _ _ _ Hx6) as [E | [H5 Hc]]; [now left |].
    right. split; [now apply In5 | exact Hc]. }
  assert (Np3 : no_pair is_dot s5 = true).
  { pose proof (remove_dotdot_no_pair s2) as H. fold s3 in H.
    rewrite E3 in H. apply no_pair_app in H as [_ H].
    rewrite E4 in H. apply no_pair_app in H as [H _].
    rewrite E5 in H. now apply no_pair_app in H as [_ H]. }
  split; [| split; [| split; [| split; [| split; [| split]]]]].
  - apply forallb_forall. intros x Hx.
    destruct (In7 x Hx) as [-> | [H2 _]]; [reflexivity |].
    apply filter_In in H2 as [H1 _]. now apply filter_In in H1 as [_ H1].
  - apply forallb_forall. intros x Hx.
    destruct (In7 x Hx) as [-> | [H2 _]]; [reflexivity |].
    now apply filter_In in H2 as [_ H2].
  - apply forallb_forall. intros x Hx.
    destruct (In7 x Hx) as [-> | [_ Hc]]; [reflexivity |].
    unfold is_space_or_underscore in Hc. apply orb_false_elim in Hc as [Hc _].
    now rewrite Hc.
  - pose proof (collapse_no_pair is_space_or_underscore is_dot s5 eq_refl
                  false Np3) as H.
    fold s6 in H. rewrite E7 in H. now apply no_pair_app in H as [H _].
  - destruct (collapse_no_pair_underscore s5 false) as [H _].
    fold s6 in H. rewrite E7 in H. now apply no_pair_app in H as [H _].
  - pose proof (collapse_not_leading is_space_or_underscore is_dot s5 eq_refl
                  (drop_leading_not_leading is_dot s4)) as H.
    fold s6 in H. rewrite E7 in H. now apply not_leading_app in H.
  - apply drop_trailing_not_trailing.
Qed.

Lemma sanitizeFilename_safe (filename : jsstring) :
  safe_name (sanitizeFilename filename) = true.
Proof.
  pose proof (sanitized_is_clean filename) as H. cbv zeta in H.
  unfold sanitizeFilename.
  destruct (drop_trailing is_underscore _) as [| c l]; [reflexivity |].
  destruct H as (H1 & H2 & H3 & H4 & H5 & H6 & H7).
  unfold safe_name. rewrite H1, H2, H3, H4, H5, H6, H7. reflexivity.
Qed.

Lemma sanitizeFilename_fixes_safe (s : jsstring) :
  safe_name s = true -> sanitizeFilename s = s.
Proof.
  unfold safe_name. intros H.
  apply andb_prop in H as [H H7]. apply andb_prop in H as [H H6].
  apply andb_prop in H as [H H5]. apply andb_prop in H as [H H4].
  apply andb_prop in H as [H H3]. apply andb_prop in H as [H H2].
  apply andb_prop in H as [H0 H1].
  unfold sanitizeFilename, remove_all, trim.
  rewrite (filter_all _ s H1), (filter_all _ s H2).
  rewrite (remove_dotdot_id s H4).
  rewrite (drop_leading_id is_space s (not_leading_of_all _ _ H3)).
  rewrite (drop_trailing_id is_space s)
    by (apply not_leading_of_all, forallb_rev, H3).
  rewrite (drop_leading_id is_dot s H6).
  rewrite (collapse_id s false H3 H5) by discriminate.
  rewrite (drop_trailing_id is_underscore s H7).
  destruct s; [discriminate H0 | reflexivity].
Qed.

End SanitizeFacts.

(** X18.  Whatever name it is given, [sanitizeFilename] returns a name
    that is not empty, has no character from U+0000 to U+001F, no slash,
    no backslash and no white space, has no two dots in a row and no two
    underscores in a row, does not start with a dot and does not end with
    an underscore.  (Other control characters, U+007F and U+0080 to
    U+009F, are not removed by the code and are not excluded here.) *)
Theorem sanitizeFilename_is_safe :
  forall filename : Pdf.jsstring,
    Pdf.safe_name (Pdf.sanitizeFilename filename) = true.
Proof.
  apply sanitizeFilename_safe.
Qed.

(** X19.  [sanitizeFilename] leaves a safe name as it is, so sanitizing
    twice is sanitizing once. *)
Theorem sanitizeFilename_idempotent :
  forall filename : Pdf.jsstring,
    (Pdf.safe_name filename = true -> Pdf.sanitizeFilename filename = filename)
    /\ Pdf.sanitizeFilename (Pdf.sanitizeFilename filename)
       = Pdf.sanitizeFilename filename.
Proof.
  intros filename. split.
  - apply sanitizeFilename_fixes_safe.
  - apply sanitizeFilename_fixes_safe, sanitizeFilename_safe.
Qed.

(** The name of the repository's first test. *)
Lemma sanitizeFilename_idempotent_witness :
  Pdf.sanitizeFilename (Pdf.literal "presentation.pdf")
  = Pdf.literal "presentation.pdf".
Proof.
  destruct (sanitizeFilename_idempotent (Pdf.literal "presentation.pdf"))
    as (Hfixed & _).
  apply Hfixed. reflexivity.
Defined.

(* ================================================================= *)
(** ** Uploading a file *)

Section UploadFacts.

Import FileUpload.

Lemma slides_from_numbered (pageImages pageTexts : list string) :
  forall index,
    numbered_from (Z.of_nat index + 1) (slides_from index pageImages pageTexts)
    = true
    /\ List.length (slides_from index pageImages pageTexts)
       = List.length pageTexts.
Proof.
  induction pageTexts as [| text rest IH]; intros index; [split; reflexivity |].
  destruct (IH (S index)) as [Hn Hl].
  cbn [slides_from numbered_from number List.length].
  rewrite Z.eqb_refl, Hl. split; [| reflexivity].
  replace (Z.of_nat index + 1 + 1) with (Z.of_nat (S index) + 1) by lia.
  exact Hn.
Qed.

Lemma numbered_nth (slides : list Slide) :
  forall n k slide,
    numbered_from n slides = true ->
    nth_error slides k = Some slide ->
    number slide = n + Z.of_nat k.
Proof.
  induction slides as [| sl slides IH]; intros n k slide Hn Hk.
  - destruct k; discriminate Hk.
  - cbn [numbered_from] in Hn. apply andb_prop in Hn as [Hhead Hn].
    apply Z.eqb_eq in Hhead.
    destruct k as [| k]; cbn [nth_error] in Hk.
    + injection Hk as <-. lia.
    + rewrite (IH _ _ _ Hn Hk). lia.
Qed.

Lemma dispatch_numbered (s : Store.SessionState Slide Pdf.File)
    (a : Store.Action Slide Pdf.File) :
  sets_numbered_slides a = true ->
  numbered_from 1 (Store.slides s) = true ->
  numbered_from 1 (Store.slides (Store.dispatch s a)) = true.
Proof.
  intros Ha Hs. destruct a; cbn [Store.dispatch]; try exact Hs.
  - exact Ha.
  - unfold Store.setCurrentSlide.
    destruct (Store.slides_length s =? 0); exact Hs.
  - unfold Store.nextSlide.
    destruct (Store.currentSlideIndex s <? Store.slides_length s - 1); exact Hs.
  - unfold Store.previousSlide.
    destruct (0 <? Store.currentSlideIndex s); exact Hs.
  - reflexivity.
Qed.

Lemma run_numbered (actions : list (Store.Action Slide Pdf.File)) :
  forall s,
    forallb sets_numbered_slides actions = true ->
    numbered_from 1 (Store.slides s) = true ->
    numbered_from 1 (Store.slides (Store.run s actions)) = true.
Proof.
  induction actions as [| a actions IH]; intros s Hall Hs; [exact Hs |].
  cbn [forallb] in Hall. apply andb_prop in Hall as [Ha Hall].
  apply (IH (Store.dispatch s a) Hall). now apply dispatch_numbered.
Qed.

Lemma processFile_numbered (file : Pdf.File) (outcome : Extraction) :
  forallb sets_numbered_slides (processFile file outcome) = true.
Proof.
  unfold processFile.
  destruct (negb (Pdf.valid (Pdf.validatePDF file))); [reflexivity |].
  destruct outcome as [pageTexts pageImages | thrown]; [| reflexivity].
  cbn. rewrite andb_true_r.
  apply (slides_from_numbered pageImages pageTexts 0).
Qed.

End UploadFacts.

(** X20.  [processFile] always ends with the loading flag cleared and
    never touches the transcript.  For a valid file whose pages were
    extracted it loads the slides built from the pages, shows the first
    one, remembers the file and leaves no error; for a file that is not
    valid, and when the extraction throws, it keeps the slides, the
    current slide and the file that were there and reports an error. *)
Theorem processFile_loads_or_keeps :
  forall (s : Store.SessionState FileUpload.Slide Pdf.File)
         (file : Pdf.File) (outcome : FileUpload.Extraction),
    let s' := Store.run s (FileUpload.processFile file outcome) in
    Store.isLoading s' = false
    /\ Store.transcript s' = Store.transcript s
    /\ (forall pageTexts pageImages,
          Pdf.valid (Pdf.validatePDF file) = true ->
          outcome = FileUpload.Extracted pageTexts pageImages ->
          Store.slides s' = FileUpload.build_slides pageTexts pageImages
          /\ Store.currentSlideIndex s' = 0
          /\ Store.pdfFile s' = Some file
          /\ Store.error s' = None)
    /\ (Pdf.valid (Pdf.validatePDF file) = false
        \/ (exists thrown, outcome = FileUpload.Threw thrown) ->
        Store.slides s' = Store.slides s
        /\ Store.currentSlideIndex s' = Store.currentSlideIndex s
        /\ Store.pdfFile s' = Store.pdfFile s
        /\ Store.error s' <> None).
Proof.
  intros s file outcome s'. subst s'. unfold FileUpload.processFile.
  destruct (Pdf.valid (Pdf.validatePDF file)) eqn:Ev; cbn [negb].
  - destruct outcome as [texts images | thrown].
    + split; [reflexivity |]. split; [reflexivity |]. split.
      * intros pageTexts pageImages _ E. injection E as <- <-.
        repeat split.
      * intros [H | [thrown H]]; discriminate H.
    + split; [reflexivity |]. split; [reflexivity |]. split.
      * intros pageTexts pageImages _ E. discriminate E.
      * intros _. repeat split. discriminate.
  - split; [reflexivity |]. split; [reflexivity |]. split.
    + intros pageTexts pageImages H. discriminate H.
    + intros _. repeat split. discriminate.
Qed.

(** An empty file dropped on a session that shows the second of two
    slides. *)
Lemma processFile_loads_or_keeps_witness :
  let s := Store.run Store.createInitialState
             [Store.SetSlides (FileUpload.build_slides ["a"; "b"]%string []);
              Store.NextSlide] in
  let s' := Store.run s
              (FileUpload.processFile (Pdf.mkFile 0 "application/pdf" None)
                 (FileUpload.Threw None)) in
  Store.slides s' = Store.slides s
  /\ Store.currentSlideIndex s' = 1
  /\ Store.pdfFile s' = None
  /\ Store.error s' <> None.
Proof.
  intros s s'.
  destruct (processFile_loads_or_keeps s (Pdf.mkFile 0 "application/pdf" None)
              (FileUpload.Threw None)) as (_ & _ & _ & Hkept).
  apply Hkept. left. reflexivity.
Defined.

(** X21.  The slides that [processFile] builds are numbered 1, 2, 3, ...,
    one per page text; so in every state the store reaches through
    uploads, navigation and the other actions, the slide that
    [getCurrentSlide] returns has the number [currentSlideIndex + 1]. *)
Theorem current_slide_number_matches :
  (forall pageTexts pageImages,
     FileUpload.numbered_from 1 (FileUpload.build_slides pageTexts pageImages)
     = true
     /\ List.length (FileUpload.build_slides pageTexts pageImages)
        = List.length pageTexts)
  /\ (forall file outcome,
        forallb FileUpload.sets_numbered_slides
          (FileUpload.processFile file outcome) = true)
  /\ (forall (actions : list (Store.Action FileUpload.Slide Pdf.File)) slide,
        forallb FileUpload.sets_numbered_slides actions = true ->
        let s := Store.run Store.createInitialState actions in
        Store.getCurrentSlide s = Some slide ->
        FileUpload.number slide = Store.currentSlideIndex s + 1).
Proof.
  split; [| split].
  - intros pageTexts pageImages.
    apply (slides_from_numbered pageImages pageTexts 0).
  - apply processFile_numbered.
  - intros actions slide Hall s Hcur.
    pose proof (run_numbered actions Store.createInitialState Hall eq_refl)
      as Hn.
    fold s in Hn.
    unfold Store.getCurrentSlide, Store.slide_at in Hcur.
    destruct (Z.ltb_spec (Store.currentSlideIndex s) 0) as [? | Hge];
      [discriminate Hcur |].
    rewrite (numbered_nth _ _ _ _ Hn Hcur). lia.
Qed.

(** A three-page upload, then two steps forward. *)
Lemma current_slide_number_matches_witness :
  let s := Store.run Store.createInitialState
             (FileUpload.processFile
                (Pdf.mkFile 9 "application/pdf"
                   (Some [37; 80; 68; 70; 45; 49; 46; 52; 10]%N))
                (FileUpload.Extracted ["one"; "two"; "three"]%string
                   ["img1"; ""]%string)
              ++ [Store.NextSlide; Store.NextSlide]) in
  FileUpload.number (FileUpload.mkSlide 3 "three" "" "")
  = Store.currentSlideIndex s + 1.
Proof.
  intros s.
  destruct current_slide_number_matches as (_ & _ & Hmatch).
  apply (Hmatch
           (FileUpload.processFile
              (Pdf.mkFile 9 "application/pdf"
                 (Some [37; 80; 68; 70; 45; 49; 46; 52; 10]%N))
              (FileUpload.Extracted ["one"; "two"; "three"]%string
                 ["img1"; ""]%string)
            ++ [Store.NextSlide; Store.NextSlide])
           (FileUpload.mkSlide 3 "three" "" "")).
  - reflexivity.
  - reflexivity.
Defined.

(** X22.  In every state of the store, [getSlideContent (index)] answers
    the text of a loaded slide exactly for the indices from 0 to
    [getTotalSlides () - 1], and [undefined] for every other index,
    negative ones included. *)
Theorem getSlideContent_in_range :
  forall (Slide File : Type) (textContent : Slide -> string)
         (s : Store.SessionState Slide File) (index : Z),
    (0 <= index < Store.getTotalSlides s ->
     exists slide,
       In slide (Store.slides s)
       /\ Store.getSlideContent textContent index s = Some (textContent slide))
    /\ (index < 0 \/ Store.getTotalSlides s <= index ->
        Store.getSlideContent textContent index s = None).
Proof.
  intros Slide File textContent s index.
  unfold Store.getSlideContent, Store.getTotalSlides. split.
  - intros Hin.
    destruct (slide_at_in_bounds Slide File s index) as (slide & E & Hmem);
      [lia |].
    exists slide. rewrite E. auto.
  - intros Hout. unfold Store.slide_at, Store.slides_length in *.
    destruct (Z.ltb_spec index 0) as [_ | Hge]; [reflexivity |].
    destruct (nth_error (Store.slides s) (Z.to_nat index)) eqn:E;
      [| reflexivity].
    assert (Hlt : (Z.to_nat index < List.length (Store.slides s))%nat)
      by (apply nth_error_Some; congruence).
    lia.
Qed.

(** Two slides: the second one, and the index after it. *)
Lemma getSlideContent_in_range_witness :
  let s := Store.run (Store.createInitialState
                        : Store.SessionState FileUpload.Slide unit)
             [Store.SetSlides (FileUpload.build_slides ["a"; "b"]%string [])] in
  (exists slide,
     In slide (Store.slides s)
     /\ Store.getSlideContent FileUpload.textContent 1 s
        = Some (FileUpload.textContent slide))
  /\ Store.getSlideContent FileUpload.textContent 2 s = None.
Proof.
  intros s.
  split.
  - destruct (getSlideContent_in_range _ _ FileUpload.textContent s 1)
      as (Hin & _).
    apply Hin. unfold Store.getTotalSlides, Store.slides_length. simpl. lia.
  - destruct (getSlideContent_in_range _ _ FileUpload.textContent s 2)
      as (_ & Hout).
    apply Hout. right. unfold Store.getTotalSlides, Store.slides_length.
    simpl. lia.
Defined.

(* ================================================================= *)
(** ** The transcript built by the panel *)

Section PanelFacts.

Variable trim : string -> string.
Variables Slide File : Type.

Import TranscriptPanel.

Lemma chronological_snoc (l : list Transcript.TranscriptSegment)
    (x : Transcript.TranscriptSegment) :
  Transcript.chronological l = true ->
  (forall s, In s l -> Transcript.timestamp s <= Transcript.timestamp x) ->
  Transcript.chronological (l ++ [x]) = true.
Proof.
  induction l as [| a l IH]; intros Hc Hle; [reflexivity |].
  destruct l as [| b l].
  - cbn. rewrite andb_true_r. apply Z.leb_le, Hle. now left.
  - change (Transcript.chronological ((a :: b :: l) ++ [x]))
      with ((Transcript.timestamp a <=? Transcript.timestamp b)
            && Transcript.chronological ((b :: l) ++ [x])).
    change (Transcript.chronological (a :: b :: l))
      with ((Transcript.timestamp a <=? Transcript.timestamp b)
            && Transcript.chronological (b :: l)) in Hc.
    apply andb_prop in Hc as [Hab Hc]. rewrite Hab. cbn [andb].
    apply IH; [exact Hc |]. intros s Hs. apply Hle. now right.
Qed.

(** Every input keeps the invariant, a result moving the clock on. *)
Lemma panel_step (p : Panel Slide File) (i : Input Slide File) (t : Z) :
  adds_through_panel i = true ->
  panel_inv trim t p ->
  match i with
  | Result _ _ now => t <= now -> panel_inv trim now (step trim p i)
  | _ => panel_inv trim t (step trim p i)
  end.
Proof.
  intros Hi (Hb & Hr & Hin & Hwf & Hc).
  assert (Hidx : 0 <= Store.currentSlideIndex (store p)).
  { unfold Store.index_in_bounds in Hb. destruct (Store.slides (store p)); lia. }
  destruct i as [a | | | text isFinal now]; cbn [step].
  - (* an action of the store *)
    unfold panel_inv. cbn [store renderedSlideIndex installedSlideIndex].
    split; [now apply dispatch_in_bounds |].
    split; [exact Hr |]. split; [exact Hin |].
    destruct a; try discriminate Hi; cbn [Store.dispatch];
      try (split; [exact Hwf | exact Hc]).
    + unfold Store.setCurrentSlide.
      destruct (Store.slides_length (store p) =? 0); split; assumption.
    + unfold Store.nextSlide.
      destruct (Store.currentSlideIndex (store p)
                <? Store.slides_length (store p) - 1); split; assumption.
    + unfold Store.previousSlide.
      destruct (0 <? Store.currentSlideIndex (store p)); split; assumption.
    + split; [constructor | reflexivity].
    + split; [constructor | reflexivity].
  - (* a render *)
    unfold panel_inv, render. cbn. auto 6.
  - (* the effect *)
    unfold panel_inv, install. cbn. auto 6.
  - (* a result *)
    intros Hle.
    assert (Hlater : Forall (well_formed_segment trim now)
                       (Store.transcript (store p))).
    { eapply Forall_impl; [| exact Hwf].
      intros seg (H1 & H2 & H3 & H4). repeat split; try assumption. lia. }
    unfold panel_inv. cbn [store renderedSlideIndex installedSlideIndex].
    unfold handleResult.
    destruct (isFinal && JS.truthy (trim text)) eqn:Etest.
    + apply andb_prop in Etest as [_ Etext].
      split; [exact Hb |]. split; [exact Hr |]. split; [exact Hin |].
      unfold Store.addTranscriptSegment, Store.set_transcript.
      cbn [Store.transcript].
      split.
      * apply Forall_app. split; [exact Hlater |].
        constructor; [| constructor].
        unfold well_formed_segment, createTranscriptSegment. cbn.
        split; [now exists text |].
        split; [now apply truthy_nonempty |].
        split; lia.
      * apply chronological_snoc; [exact Hc |].
        intros seg Hseg. cbn.
        rewrite Forall_forall in Hwf.
        destruct (Hwf seg Hseg) as (_ & _ & _ & H4). lia.
    + split; [exact Hb |]. split; [exact Hr |]. split; [exact Hin |].
      split; [exact Hlater | exact Hc].
Qed.

Lemma panel_run (inputs : list (Input Slide File)) :
  forall (p : Panel Slide File) (t : Z),
    forallb adds_through_panel inputs = true ->
    clock_monotone t inputs = true ->
    panel_inv trim t p ->
    exists t', panel_inv trim t' (run trim p inputs).
Proof.
  induction inputs as [| i inputs IH]; intros p t Hall Hclock Hp.
  - exists t. exact Hp.
  - cbn [forallb] in Hall. apply andb_prop in Hall as [Hi Hall].
    pose proof (panel_step p i t Hi Hp) as Hstep.
    change (run trim p (i :: inputs)) with (run trim (step trim p i) inputs).
    destruct i as [a | | | text isFinal now]; cbn [clock_monotone] in Hclock.
    + exact (IH _ t Hall Hclock Hstep).
    + exact (IH _ t Hall Hclock Hstep).
    + exact (IH _ t Hall Hclock Hstep).
    + apply andb_prop in Hclock as [Hle Hclock]. apply Z.leb_le in Hle.
      exact (IH _ now Hall Hclock (Hstep Hle)).
Qed.

(** Store actions that add no segment leave an empty transcript empty. *)
Lemma run_adds_nothing (actions : list (Store.Action Slide File)) :
  forall s : Store.SessionState Slide File,
    forallb (fun a => negb (is_add_segment a)) actions = true ->
    Store.transcript s = [] ->
    Store.transcript (Store.run s actions) = [].
Proof.
  induction actions as [| a actions IH]; intros s Hall Hs; [exact Hs |].
  cbn [forallb] in Hall. apply andb_prop in Hall as [Ha Hall].
  apply (IH (Store.dispatch s a) Hall).
  destruct a; try discriminate Ha; cbn [Store.dispatch];
    try exact Hs; try reflexivity.
  - unfold Store.setCurrentSlide.
    destruct (Store.slides_length s =? 0); exact Hs.
  - unfold Store.nextSlide.
    destruct (Store.currentSlideIndex s <? Store.slides_length s - 1); exact Hs.
  - unfold Store.previousSlide.
    destruct (0 <? Store.currentSlideIndex s); exact Hs.
Qed.

End PanelFacts.

(** X23.  The panel is mounted on a store reached by actions that add no
    segment; from then on segments reach the store only through the
    [handleResult] installed on the recognizer, which stamps the slide
    index read by the render it comes from, and that index can lag behind
    the store until the next render and effect.  Whatever the order of
    store actions, renders, effects and results, as long as the clock read
    at the results never runs backwards, the store's transcript is in
    chronological order and every segment in it has a trimmed, non-empty
    text and a slide number of at least 1. *)
Theorem panel_transcript_is_well_formed :
  forall (trim : string -> string) (Slide File : Type)
         (before : list (Store.Action Slide File))
         (inputs : list (TranscriptPanel.Input Slide File)) (t0 : Z),
    forallb (fun a => negb (TranscriptPanel.is_add_segment a)) before = true ->
    forallb TranscriptPanel.adds_through_panel inputs = true ->
    TranscriptPanel.clock_monotone t0 inputs = true ->
    let p := TranscriptPanel.run trim
               (TranscriptPanel.mount
                  (Store.run Store.createInitialState before)) inputs in
    Transcript.chronological (Store.transcript (TranscriptPanel.store p)) = true
    /\ Forall (fun segment =>
                 (exists raw, Transcript.text segment = trim raw)
                 /\ Transcript.text segment <> EmptyString
                 /\ 1 <= Transcript.slideNumber segment)
         (Store.transcript (TranscriptPanel.store p)).
Proof.
  intros trim Slide File before inputs t0 Hbefore Hall Hclock p.
  set (s0 := Store.run Store.createInitialState before) in *.
  assert (Hb0 : Store.index_in_bounds s0)
    by (apply run_in_bounds, initial_in_bounds).
  assert (Ht0 : Store.transcript s0 = [])
    by (apply run_adds_nothing; [exact Hbefore | reflexivity]).
  assert (Hidx : 0 <= Store.currentSlideIndex s0).
  { unfold Store.index_in_bounds in Hb0. destruct (Store.slides s0); lia. }
  assert (Hp0 : TranscriptPanel.panel_inv trim t0 (TranscriptPanel.mount s0)).
  { unfold TranscriptPanel.panel_inv, TranscriptPanel.mount. cbn.
    rewrite Ht0. repeat split; try assumption; constructor. }
  destruct (panel_run trim Slide File inputs _ t0 Hall Hclock Hp0)
    as (t' & _ & _ & _ & Hwf & Hc).
  fold p in Hwf, Hc.
  split; [exact Hc |].
  eapply Forall_impl; [| exact Hwf].
  intros seg (H1 & H2 & H3 & _). auto.
Qed.

(** The panel mounted on two slides; the store moves to the second slide
    and a final result arrives before the panel has rendered again, then a
    blank final result and an interim one, then a final result after the
    render and its effect.  The identity stands for [trim]. *)
Lemma panel_transcript_is_well_formed_witness :
  let p := TranscriptPanel.run (fun text => text)
             (TranscriptPanel.mount
                (Store.run (Store.createInitialState
                              : Store.SessionState nat unit)
                   [Store.SetSlides [10%nat; 20%nat]]))
             [TranscriptPanel.Dispatch Store.NextSlide;
              TranscriptPanel.Result "Hello" true 1000;
              TranscriptPanel.Result "" true 2000;
              TranscriptPanel.Result "wor" false 3000;
              TranscriptPanel.Render; TranscriptPanel.RunEffect;
              TranscriptPanel.Result "world" true 4000] in
  Transcript.chronological (Store.transcript (TranscriptPanel.store p)) = true
  /\ Store.transcript (TranscriptPanel.store p)
     = [Transcript.mkSegment "Hello" 1000 1; Transcript.mkSegment "world" 4000 2].
Proof.
  intros p. split; [| reflexivity].
  destruct (panel_transcript_is_well_formed (fun text => text) nat unit
              [Store.SetSlides [10%nat; 20%nat]]
              [TranscriptPanel.Dispatch Store.NextSlide;
               TranscriptPanel.Result "Hello" true 1000;
               TranscriptPanel.Result "" true 2000;
               TranscriptPanel.Result "wor" false 3000;
               TranscriptPanel.Render; TranscriptPanel.RunEffect;
               TranscriptPanel.Result "world" true 4000] 0)
    as (Hchrono & _).
  - reflexivity.
  - reflexivity.
  - reflexivity.
  - exact Hchrono.
Defined.
